(** * testkeeper-ai: the structural diff and the relevance ranking

    A shallow embedding of [src/utils/openapi-diff.js] and of the ranking,
    extraction and budgeting functions of [src/scripts/suggest-updates.js],
    followed by the properties of the specification checked against them.

    Conventions of the embedding.
    - A JavaScript string is a [string]; each character stands for one
      UTF-16 code unit in the range U+0000..U+00FF, so [String.length] is the
      [.length] of the source.
    - A parsed document is a [value]; an object is the list of its own
      enumerable properties in [for .. in] order.  A property that is not
      an own property is looked up in the prototypes of the engine, which
      are an interface ([Realm]): a plain object inherits the members of
      [Object.prototype] ([constructor], [toString], ...), and what a read
      finds there is a built-in ([VNative]).
    - A JavaScript number is an integer [Z] (magnitude below 2^53).
    - Code that can throw lives in the [Completion] monad; [try .. catch] is
      [try_catch].
    - [JSON.parse], [yaml.load], the [fs]/[path] built-ins and
      [Array.prototype.sort] are taken as interfaces ([SpecParsers],
      [FileSystem], [ArraySort]). *)

From Stdlib Require Import List String Ascii NArith ZArith Lia Bool Arith.
From Stdlib Require Import Permutation Sorted DecimalString.
Import ListNotations.

Local Open Scope string_scope.
Local Open Scope list_scope.

(* ===================================================================== *)
(** * JavaScript strings and arrays *)
(* ===================================================================== *)

Module JS.

Definition code (c : ascii) : N := N_of_ascii c.

Definition in_range (lo hi : N) (c : ascii) : bool :=
  (lo <=? code c)%N && (code c <=? hi)%N.

Definition is_upper (c : ascii) : bool := in_range 65 90 c.
Definition is_lower (c : ascii) : bool := in_range 97 122 c.
Definition is_digit (c : ascii) : bool := in_range 48 57 c.

(** [\s] of a regular expression and the characters removed by [trim]:
    TAB, LF, VT, FF, CR, SPACE and NBSP (the others lie above U+00FF). *)
Definition is_space (c : ascii) : bool :=
  in_range 9 13 c || (code c =? 32)%N || (code c =? 160)%N.

(** Line terminators, which [.] of a regular expression does not match. *)
Definition is_line_terminator (c : ascii) : bool :=
  (code c =? 10)%N || (code c =? 13)%N.

(** [String.prototype.toLowerCase] on one code unit: A-Z, and the Latin-1
    capitals U+00C0..U+00DE except the multiplication sign U+00D7. *)
Definition lower_char (c : ascii) : ascii :=
  if is_upper c || (in_range 192 222 c && negb (code c =? 215)%N)
  then ascii_of_N (code c + 32) else c.

Fixpoint toLowerCase (s : string) : string :=
  match s with
  | EmptyString => EmptyString
  | String c r => String (lower_char c) (toLowerCase r)
  end.

Definition startsWith (s p : string) : bool := String.prefix p s.

Fixpoint includes (s p : string) : bool :=
  String.prefix p s ||
  match s with
  | EmptyString => false
  | String _ r => includes r p
  end.

Fixpoint has_char (c : ascii) (s : string) : bool :=
  match s with
  | EmptyString => false
  | String d r => Ascii.eqb c d || has_char c r
  end.

Definition is_empty (s : string) : bool :=
  match s with EmptyString => true | _ => false end.

(** [s.split(sep)] where [sep] matches exactly one character. *)
Fixpoint split_by (sep : ascii -> bool) (s : string) : list string :=
  match s with
  | EmptyString => [EmptyString]
  | String d r =>
      if sep d then EmptyString :: split_by sep r
      else match split_by sep r with
           | [] => [String d EmptyString]
           | w :: ws => String d w :: ws
           end
  end.

Definition split (c : ascii) (s : string) : list string :=
  split_by (Ascii.eqb c) s.

(** [a.join(sep)]. *)
Fixpoint join (sep : string) (l : list string) : string :=
  match l with
  | [] => EmptyString
  | [x] => x
  | x :: r => x ++ sep ++ join sep r
  end.

(** [.filter(Boolean)] on an array of strings: the empty string is falsy. *)
Definition filter_Boolean (l : list string) : list string :=
  filter (fun s => negb (is_empty s)) l.

Fixpoint trimStart (s : string) : string :=
  match s with
  | EmptyString => EmptyString
  | String c r => if is_space c then trimStart r else s
  end.

Fixpoint trimEnd (s : string) : string :=
  match s with
  | EmptyString => EmptyString
  | String c r =>
      let r' := trimEnd r in
      if is_empty r' && is_space c then EmptyString else String c r'
  end.

Definition trim (s : string) : string := trimEnd (trimStart s).

(** [a.slice(start, end)]: a negative bound counts from the end of the array,
    and both bounds are clamped to [0 .. a.length]. *)
Definition slice_bound (len : nat) (i : Z) : nat :=
  if (i <? 0)%Z then Z.to_nat (Z.max (Z.of_nat len + i) 0)
  else Nat.min (Z.to_nat i) len.

Definition slice {A} (l : list A) (start stop : Z) : list A :=
  let from := slice_bound (List.length l) start in
  let to := slice_bound (List.length l) stop in
  firstn (to - from) (skipn from l).

(** Every array, the empty one included, is truthy. *)
Definition truthy_array {A} (l : list A) : bool := true.

(** [a || b] on arrays. *)
Definition or_array {A} (a b : list A) : list A :=
  if truthy_array a then a else b.

(** [Array.prototype.sort(cmp)]: the sort is stable, and for a consistent
    comparator its result is the stable ordering computed here by insertion
    from the right. *)
Fixpoint sort_insert {A} (cmp : A -> A -> Z) (x : A) (l : list A) : list A :=
  match l with
  | [] => [x]
  | y :: r => if (cmp x y <=? 0)%Z then x :: y :: r
              else y :: sort_insert cmp x r
  end.

Fixpoint sort {A} (cmp : A -> A -> Z) (l : list A) : list A :=
  match l with
  | [] => []
  | x :: r => sort_insert cmp x (sort cmp r)
  end.

(** A [Set] of strings in insertion order. *)
Definition set_has (s : list string) (x : string) : bool :=
  existsb (String.eqb x) s.

Definition set_add (s : list string) (x : string) : list string :=
  if set_has s x then s else s ++ [x].

Definition set_add_all (s : list string) (xs : list string) : list string :=
  fold_left set_add xs s.

(** [path.basename(p)] (POSIX): trailing slashes are dropped, then the part
    after the last remaining slash is kept. *)
Fixpoint strip_trailing_slashes (s : string) : string :=
  match s with
  | EmptyString => EmptyString
  | String c r =>
      let r' := strip_trailing_slashes r in
      if is_empty r' && Ascii.eqb c "/" then EmptyString else String c r'
  end.

Fixpoint last_component (s : string) : string :=
  match s with
  | EmptyString => EmptyString
  | String c r =>
      if has_char "/" r then last_component r
      else if Ascii.eqb c "/" then r else s
  end.

Definition basename (p : string) : string :=
  last_component (strip_trailing_slashes p).

Definition string_of_nat (n : nat) : string :=
  NilEmpty.string_of_uint (Nat.to_uint n).

Definition string_of_Z (z : Z) : string :=
  NilEmpty.string_of_int (Z.to_int z).

Definition dquote : ascii := ascii_of_nat 34.
Definition squote : ascii := ascii_of_nat 39.
Definition backslash : ascii := ascii_of_nat 92.
Definition LF : ascii := ascii_of_nat 10.
Definition newline : string := String LF EmptyString.

Fixpoint drop (n : nat) (s : string) : string :=
  match n, s with
  | S k, String _ r => drop k r
  | _, _ => s
  end.

(** [s.replace(/^p/, '')] for a literal [p]. *)
Definition strip_prefix (p s : string) : string :=
  if startsWith s p then drop (String.length p) s else s.

(** [s.replace(/p$/, '')] for a literal [p]: [None] when [s] does not end
    with [p]. *)
Fixpoint strip_suffix (p s : string) : option string :=
  if String.eqb s p then Some EmptyString
  else match s with
       | EmptyString => None
       | String c r => option_map (String c) (strip_suffix p r)
       end.

(** The longest prefix of characters satisfying [f], and what follows. *)
Fixpoint span (f : ascii -> bool) (s : string) : string * string :=
  match s with
  | EmptyString => (EmptyString, EmptyString)
  | String c r =>
      if f c then let (a, b) := span f r in (String c a, b)
      else (EmptyString, s)
  end.

End JS.

(* ===================================================================== *)
(** * Exceptions *)
(* ===================================================================== *)

Inductive js_error : Type :=
| SyntaxError      (* thrown by JSON.parse *)
| YAMLException    (* thrown by yaml.load *)
| TypeError        (* property access on null/undefined, call of a non-function *)
| SystemError      (* thrown by fs.readFileSync and fs.statSync *)
| SpecParseError.  (* the Error built by parseSpec *)

Inductive Completion (A : Type) : Type :=
| Normal (a : A)
| Throw (e : js_error).

Arguments Normal {A} a.
Arguments Throw {A} e.

Definition bind {A B} (c : Completion A) (k : A -> Completion B)
  : Completion B :=
  match c with
  | Normal a => k a
  | Throw e => Throw e
  end.

Declare Scope js_scope.
Delimit Scope js_scope with js.
Notation "x <- c1 ;; c2" := (bind c1 (fun x => c2))
  (at level 61, c1 at next level, right associativity) : js_scope.
Local Open Scope js_scope.

Definition try_catch {A} (body : Completion A)
  (handler : js_error -> Completion A) : Completion A :=
  match body with
  | Normal a => Normal a
  | Throw e => handler e
  end.

(** A loop whose iterations push records on one shared array: each
    iteration contributes the records it pushes, and the first exception
    leaves the loop. *)
Fixpoint forM {A B} (l : list A) (f : A -> Completion (list B))
  : Completion (list B) :=
  match l with
  | [] => Normal []
  | x :: r =>
      c <- f x ;;
      cs <- forM r f ;;
      Normal (c ++ cs)
  end.

(* ===================================================================== *)
(** * Parsed documents *)
(* ===================================================================== *)

(** A value met by the comparison: what the parsers build, or a built-in
    object or function of the engine reached through a prototype
    ([Object], [Object.prototype.toString], ...), known by its name. *)
#[warnings="-register-all"]
Inductive value : Type :=
| VUndefined
| VNull
| VBool (b : bool)
| VNum (n : Z)
| VStr (s : string)
| VArr (elems : list value)
| VObj (props : list (string * value))
| VNative (name : string).

Definition truthy (v : value) : bool :=
  match v with
  | VUndefined | VNull => false
  | VBool b => b
  | VNum n => negb (n =? 0)%Z
  | VStr s => negb (JS.is_empty s)
  | VArr _ | VObj _ | VNative _ => true
  end.

(** [a || b]. *)
Definition or_value (a b : value) : value := if truthy a then a else b.

(** [a === b] between values of two separately parsed documents: two
    objects or arrays are never the same reference; a built-in is itself. *)
Definition strict_eq (a b : value) : bool :=
  match a, b with
  | VUndefined, VUndefined => true
  | VNull, VNull => true
  | VBool x, VBool y => Bool.eqb x y
  | VNum x, VNum y => (x =? y)%Z
  | VStr x, VStr y => String.eqb x y
  | VNative x, VNative y => String.eqb x y
  | _, _ => false
  end.

Fixpoint lookup (k : string) (props : list (string * value)) : option value :=
  match props with
  | [] => None
  | (k', v) :: r => if String.eqb k' k then Some v else lookup k r
  end.

Fixpoint index_lookup (k : string) (i : nat) (l : list value) : value :=
  match l with
  | [] => VUndefined
  | x :: r => if String.eqb (JS.string_of_nat i) k then x
              else index_lookup k (S i) r
  end.

Definition chars (s : string) : list value :=
  map (fun c => VStr (String c EmptyString)) (list_ascii_of_string s).

(** Whether [k] is one of the indices [i], [i + 1], ... of [n] elements. *)
Fixpoint is_index (k : string) (i n : nat) : bool :=
  match n with
  | O => false
  | S m => String.eqb (JS.string_of_nat i) k || is_index k (S i) m
  end.

(** [Object.prototype.hasOwnProperty.call(v, k)]: the properties a value
    holds itself, as opposed to those it inherits. *)
Definition has_own (v : value) (k : string) : bool :=
  match v with
  | VStr s => String.eqb k "length" || is_index k 0 (String.length s)
  | VArr l => String.eqb k "length" || is_index k 0 (List.length l)
  | VObj props => match lookup k props with Some _ => true | None => false end
  | _ => false
  end.

(** The own property [k] of [v]; [undefined] when [v] has no such
    property of its own. *)
Definition prop (v : value) (k : string) : value :=
  match v with
  | VStr s =>
      if String.eqb k "length" then VNum (Z.of_nat (String.length s))
      else index_lookup k 0 (chars s)
  | VArr l =>
      if String.eqb k "length" then VNum (Z.of_nat (List.length l))
      else index_lookup k 0 l
  | VObj props => match lookup k props with Some x => x | None => VUndefined end
  | _ => VUndefined
  end.

(** The prototypes of the engine: [inherited R v k] is what the read
    [v[k]] finds, or throws, when [k] is not an own property of [v]; for a
    built-in, every read. *)
Record Realm : Type := {
  inherited : value -> string -> Completion value
}.

(** [v[k]] (and [v.k]). *)
Definition get (R : Realm) (v : value) (k : string) : Completion value :=
  match v with
  | VUndefined | VNull => Throw TypeError
  | _ => if has_own v k then Normal (prop v k) else inherited R v k
  end.

(** The names that the comparison reads as fields of a document. *)
Definition document_fields : list string :=
  ["paths"; "parameters"; "responses"; "name"; "in"; "required"].

Definition is_native (v : value) : bool :=
  match v with VNative _ => true | _ => false end.

(** No prototype has a member named as a field of a document; a built-in
    function has a [name] of its own. *)
Definition field_of_document (v : value) (k : string) : bool :=
  existsb (String.eqb k) document_fields &&
  (negb (String.eqb k "name") || negb (is_native v)).

(** The members of [Object.prototype], which every plain object
    inherits. *)
Definition Object_prototype : list string :=
  ["constructor"; "__defineGetter__"; "__defineSetter__"; "hasOwnProperty";
   "__lookupGetter__"; "__lookupSetter__"; "isPrototypeOf";
   "propertyIsEnumerable"; "toString"; "valueOf"; "__proto__";
   "toLocaleString"].

Definition inherited_name (k : string) : bool :=
  existsb (String.eqb k) Object_prototype.

(** What is assumed of the prototypes, in any engine whose prototypes have
    not been extended: a field of a document is never inherited; a plain
    object inherits the members of [Object.prototype], each of them a
    built-in, and nothing else. *)
Record RealmLaws (R : Realm) : Prop := {
  field_not_inherited : forall v k,
    field_of_document v k = true -> inherited R v k = Normal VUndefined;
  object_inherits_member : forall props k,
    inherited_name k = true ->
    exists name, inherited R (VObj props) k = Normal (VNative name);
  object_inherits_nothing_else : forall props k,
    inherited_name k = false -> inherited R (VObj props) k = Normal VUndefined
}.

(** The keys visited by [for (const k in v)]: the own enumerable
    properties; the members of the prototypes and of the built-ins are not
    enumerable. *)
Definition keys (v : value) : list string :=
  match v with
  | VObj props => map fst props
  | VArr l => map JS.string_of_nat (seq 0 (List.length l))
  | VStr s => map JS.string_of_nat (seq 0 (String.length s))
  | _ => []
  end.

(** The receiver of [.forEach] and [.find]: anything but an array has no
    such method, and the call throws. *)
Definition as_array (v : value) : Completion (list value) :=
  match v with
  | VArr l => Normal l
  | _ => Throw TypeError
  end.

(* ===================================================================== *)
(** * src/utils/openapi-diff.js *)
(* ===================================================================== *)

Inductive ParameterDelta : Type :=
| new_parameter (parameter location : value)
| parameter_requirement_changed (parameter location from to : value)
| removed_parameter (parameter location : value).

Inductive ResponseDelta : Type :=
| new_response_code (code : string)
| removed_response_code (code : string).

Inductive Change : Type :=
| new_endpoint (path : string)
| new_method (path method : string)
| parameter_changes (path method : string) (details : list ParameterDelta)
| response_changes (path method : string) (details : list ResponseDelta)
| removed_endpoint (path : string)
| removed_method (path method : string).

(** [JSON.parse] and [yaml.load] of js-yaml. *)
Record SpecParsers : Type := {
  JSON_parse : string -> Completion value;
  yaml_load : string -> Completion value
}.

Definition parseSpec (P : SpecParsers) (specStr : string) : Completion value :=
  try_catch (JSON_parse P specStr) (fun jsonError =>
    try_catch (yaml_load P specStr) (fun yamlError =>
      Throw SpecParseError)).

(** [ps.find(p => p.name === q.name && p.in === q.in)]. *)
Fixpoint find_param (R : Realm) (ps : list value) (q : value)
  : Completion value :=
  match ps with
  | [] => Normal VUndefined
  | p :: r =>
      pn <- get R p "name" ;;
      qn <- get R q "name" ;;
      if strict_eq pn qn then
        pi <- get R p "in" ;;
        qi <- get R q "in" ;;
        if strict_eq pi qi then Normal p else find_param R r q
      else find_param R r q
  end.

Definition compareParameters (R : Realm) (oldParams newParams : value)
  : Completion (list ParameterDelta) :=
  news <- as_array newParams ;;
  added <- forM news (fun newParam =>
    olds <- as_array oldParams ;;
    oldParam <- find_param R olds newParam ;;
    if negb (truthy oldParam) then
      n <- get R newParam "name" ;;
      l <- get R newParam "in" ;;
      Normal [new_parameter n l]
    else
      oldReq <- get R oldParam "required" ;;
      newReq <- get R newParam "required" ;;
      if negb (strict_eq oldReq newReq) then
        n <- get R newParam "name" ;;
        l <- get R newParam "in" ;;
        Normal [parameter_requirement_changed n l
                  (or_value oldReq (VBool false))
                  (or_value newReq (VBool false))]
      else Normal []) ;;
  olds <- as_array oldParams ;;
  removed <- forM olds (fun oldParam =>
    news' <- as_array newParams ;;
    newParam <- find_param R news' oldParam ;;
    if negb (truthy newParam) then
      n <- get R oldParam "name" ;;
      l <- get R oldParam "in" ;;
      Normal [removed_parameter n l]
    else Normal []) ;;
  Normal (added ++ removed).

Definition compareResponses (R : Realm) (oldResponses newResponses : value)
  : Completion (list ResponseDelta) :=
  added <- forM (keys newResponses) (fun code =>
    old <- get R oldResponses code ;;
    if negb (truthy old) then Normal [new_response_code code]
    else Normal []) ;;
  removed <- forM (keys oldResponses) (fun code =>
    new <- get R newResponses code ;;
    if negb (truthy new) then Normal [removed_response_code code]
    else Normal []) ;;
  Normal (added ++ removed).

(** [spec.paths[path]] and [spec.paths[path][method]]. *)
Definition path_item (R : Realm) (spec : value) (path : string)
  : Completion value :=
  paths <- get R spec "paths" ;;
  get R paths path.

Definition operation (R : Realm) (spec : value) (path method : string)
  : Completion value :=
  item <- path_item R spec path ;;
  get R item method.

(** [!spec.paths || !spec.paths[path]]. *)
Definition path_missing (R : Realm) (spec : value) (path : string)
  : Completion bool :=
  paths <- get R spec "paths" ;;
  if negb (truthy paths) then Normal true
  else item <- get R paths path ;; Normal (negb (truthy item)).

(** [spec.paths[path][method].field || dflt]. *)
Definition field_or (R : Realm) (spec : value) (path method field : string)
  (dflt : value) : Completion value :=
  op <- operation R spec path method ;;
  v <- get R op field ;;
  Normal (or_value v dflt).

(** The body of the [try] block of [diffOpenAPISpecs], after parsing. *)
Definition diffSpecs (R : Realm) (oldSpec newSpec : value)
  : Completion (list Change) :=
  newPaths <- get R newSpec "paths" ;;
  forward <- forM (keys (or_value newPaths (VObj []))) (fun path =>
    missing <- path_missing R oldSpec path ;;
    if missing then Normal [new_endpoint path]
    else
      newItem <- path_item R newSpec path ;;
      forM (keys newItem) (fun method =>
        oldOp <- operation R oldSpec path method ;;
        if negb (truthy oldOp) then Normal [new_method path method]
        else
          oldParams <- field_or R oldSpec path method "parameters" (VArr []) ;;
          newParams <- field_or R newSpec path method "parameters" (VArr []) ;;
          paramChanges <- compareParameters R oldParams newParams ;;
          oldResponses <- field_or R oldSpec path method "responses" (VObj []) ;;
          newResponses <- field_or R newSpec path method "responses" (VObj []) ;;
          responseChanges <- compareResponses R oldResponses newResponses ;;
          Normal
            ((if (0 <? List.length paramChanges)%nat
              then [parameter_changes path method paramChanges] else [])
             ++
             (if (0 <? List.length responseChanges)%nat
              then [response_changes path method responseChanges] else [])))) ;;
  oldPaths <- get R oldSpec "paths" ;;
  backward <- forM (keys (or_value oldPaths (VObj []))) (fun path =>
    missing <- path_missing R newSpec path ;;
    if missing then Normal [removed_endpoint path]
    else
      oldItem <- path_item R oldSpec path ;;
      forM (keys oldItem) (fun method =>
        newOp <- operation R newSpec path method ;;
        if negb (truthy newOp) then Normal [removed_method path method]
        else Normal [])) ;;
  Normal (forward ++ backward).

Definition diffOpenAPISpecs (R : Realm) (P : SpecParsers)
  (oldSpecStr newSpecStr : string) : Completion (list Change) :=
  try_catch
    (oldSpec <- parseSpec P oldSpecStr ;;
     newSpec <- parseSpec P newSpecStr ;;
     diffSpecs R oldSpec newSpec)
    (fun error => Normal []).

(* ===================================================================== *)
(** * src/scripts/suggest-updates.js: extractApiEndpoints *)
(* ===================================================================== *)

Module Regex.

Definition not_close (c : ascii) : bool := negb (Ascii.eqb c "}").
Definition not_dquote (c : ascii) : bool := negb (Ascii.eqb c JS.dquote).
Definition is_quote (c : ascii) : bool :=
  Ascii.eqb c JS.dquote || Ascii.eqb c JS.squote.

(** [/\/(get|post|put|delete|patch|head|options)$/] replaced by nothing.
    No alternative is a suffix of another, so at most one applies. *)
Definition http_suffixes : list string :=
  ["/get"; "/post"; "/put"; "/delete"; "/patch"; "/head"; "/options"].

Fixpoint strip_first_suffix (sufs : list string) (s : string) : string :=
  match sufs with
  | [] => s
  | p :: r => match JS.strip_suffix p s with
              | Some s' => s'
              | None => strip_first_suffix r s
              end
  end.

Definition strip_method_suffix (s : string) : string :=
  strip_first_suffix http_suffixes s.

(** [s] starts with [[^}]+\}]: at least one character other than a closing
    brace, then a closing brace; the rest after it. *)
Definition braces_body (s : string) : option string :=
  let (body, rest) := JS.span not_close s in
  match body, rest with
  | String _ _, String _ t => Some t
  | _, _ => None
  end.

Fixpoint no_line_terminator (s : string) : bool :=
  match s with
  | EmptyString => true
  | String c r => negb (JS.is_line_terminator c) && no_line_terminator r
  end.

(** The trailing-parameter pattern of [withoutParams] matches at the start
    of [s]: a slash, a braced group [{x}] with a non-empty body free of
    closing braces, then either the end of the string or a slash followed by
    characters other than line terminators up to the end. *)
Definition param_tail_at (s : string) : bool :=
  match s with
  | String "/" (String "{" r) =>
      match braces_body r with
      | Some EmptyString => true
      | Some (String "/" u) => no_line_terminator u
      | _ => false
      end
  | _ => false
  end.

(** [cleanPath.replace(trailing-parameter pattern, '')]: a match runs to the
    end of the string, so what remains is the part before the leftmost
    match. *)
Fixpoint strip_param_tail (s : string) : string :=
  if param_tail_at s then EmptyString
  else match s with
       | EmptyString => EmptyString
       | String c r => String c (strip_param_tail r)
       end.

(** [s.replace(/\{[^}]+\}/g, '')]: [skipping] is set inside a match, up to
    its closing brace. *)
Fixpoint remove_params_from (skipping : bool) (s : string) : string :=
  match s with
  | EmptyString => EmptyString
  | String c r =>
      if skipping then remove_params_from (not_close c) r
      else if Ascii.eqb c "{" &&
              match braces_body r with Some _ => true | None => false end
           then remove_params_from true r
           else String c (remove_params_from false r)
  end.

Definition remove_params (s : string) : string := remove_params_from false s.

(** The class [[a-zA-Z0-9\/_\-{}]]. *)
Definition is_path_char (c : ascii) : bool :=
  JS.is_lower c || JS.is_upper c || JS.is_digit c ||
  Ascii.eqb c "/" || Ascii.eqb c "_" || Ascii.eqb c "-" ||
  Ascii.eqb c "{" || Ascii.eqb c "}".

(** The path-like pattern of [pathMatches] matches at the start of [s]: a
    quote (double or single), a slash, one or more characters of the class
    above, a quote.  The result is the captured group. *)
Definition quoted_path_at (s : string) : option string :=
  match s with
  | String q (String "/" r) =>
      if is_quote q then
        let (body, rest) := JS.span is_path_char r in
        match body, rest with
        | String _ _, String q' _ =>
            if is_quote q' then Some (String "/" body) else None
        | _, _ => None
        end
      else None
  | _ => None
  end.

(** All matches of the path-like pattern in [s], left to right and without
    overlap, each with its two quotes already removed.  [skip] counts the
    characters of the current match still to be passed over. *)
Fixpoint quoted_paths_from (skip : nat) (s : string) : list string :=
  match s with
  | EmptyString => []
  | String _ r =>
      match skip with
      | S k => quoted_paths_from k r
      | O => match quoted_path_at s with
             | Some p => p :: quoted_paths_from (String.length p + 1) r
             | None => quoted_paths_from 0 r
             end
      end
  end.

Definition quoted_paths (s : string) : list string := quoted_paths_from 0 s.

Definition operationId_key : string :=
  String JS.dquote ("operationId" ++ String JS.dquote ":").

(** The operationId pattern matches at the start of [s]: the quoted key and
    its colon, optional white space, a double quote, one or more characters
    other than a double quote, a double quote.  The result is the captured
    group. *)
Definition operationId_at (s : string) : option string :=
  if JS.startsWith s operationId_key then
    match JS.trimStart (JS.drop (String.length operationId_key) s) with
    | String q t =>
        if Ascii.eqb q JS.dquote then
          let (body, rest) := JS.span not_dquote t in
          match body, rest with
          | String _ _, String _ _ => Some body
          | _, _ => None
          end
        else None
    | EmptyString => None
    end
  else None.

(** Group 1 of the leftmost match of the operationId pattern in [s]. *)
Fixpoint find_operationId (s : string) : option string :=
  match operationId_at s with
  | Some x => Some x
  | None => match s with
            | EmptyString => None
            | String _ r => find_operationId r
            end
  end.

(** [s.replace(/([A-Z])/g, '-$1')]. *)
Fixpoint dash_capitals (s : string) : string :=
  match s with
  | EmptyString => EmptyString
  | String c r =>
      if JS.is_upper c then String "-" (String c (dash_capitals r))
      else String c (dash_capitals r)
  end.

(** [/^\/[a-z]$/]. *)
Definition single_letter_path (s : string) : bool :=
  match s with
  | String "/" (String c EmptyString) => JS.is_lower c
  | _ => false
  end.

End Regex.

(** ** JSON.stringify *)

Definition hex_digit (n : N) : ascii :=
  if (n <? 10)%N then ascii_of_N (48 + n) else ascii_of_N (87 + n).

Definition json_escape (c : ascii) : string :=
  let n := JS.code c in
  if Ascii.eqb c JS.dquote then String JS.backslash (String JS.dquote "")
  else if Ascii.eqb c JS.backslash then String JS.backslash (String JS.backslash "")
  else if (n =? 8)%N then String JS.backslash "b"
  else if (n =? 12)%N then String JS.backslash "f"
  else if (n =? 10)%N then String JS.backslash "n"
  else if (n =? 13)%N then String JS.backslash "r"
  else if (n =? 9)%N then String JS.backslash "t"
  else if (n <? 32)%N then
    String JS.backslash
      ("u00" ++ String (hex_digit (n / 16)%N) (String (hex_digit (n mod 16)%N) ""))
  else String c "".

Fixpoint json_escape_all (s : string) : string :=
  match s with
  | EmptyString => EmptyString
  | String c r => json_escape c ++ json_escape_all r
  end.

Definition json_quote (s : string) : string :=
  String JS.dquote (json_escape_all s ++ String JS.dquote "").

(** [JSON.stringify(v)] below the top level: [undefined] prints as [null]
    inside an array, and a property whose value is [undefined] is left
    out; a built-in function prints as [undefined] does. *)
Fixpoint stringify (v : value) : string :=
  match v with
  | VUndefined | VNull | VNative _ => "null"
  | VBool true => "true"
  | VBool false => "false"
  | VNum n => JS.string_of_Z n
  | VStr s => json_quote s
  | VArr l => "[" ++ JS.join "," (map stringify l) ++ "]"
  | VObj props =>
      "{" ++ JS.join ","
        ((fix members (ps : list (string * value)) : list string :=
            match ps with
            | [] => []
            | (k, x) :: r =>
                match x with
                | VUndefined | VNative _ => members r
                | _ => (json_quote k ++ ":" ++ stringify x)%string :: members r
                end
            end) props) ++ "}"
  end.

(** The objects pushed by [compareParameters] and [compareResponses]. *)
Definition parameter_delta_value (d : ParameterDelta) : value :=
  match d with
  | new_parameter n l =>
      VObj [("type", VStr "new_parameter"); ("parameter", n); ("location", l)]
  | parameter_requirement_changed n l f t =>
      VObj [("type", VStr "parameter_requirement_changed");
            ("parameter", n); ("location", l); ("from", f); ("to", t)]
  | removed_parameter n l =>
      VObj [("type", VStr "removed_parameter"); ("parameter", n);
            ("location", l)]
  end.

Definition response_delta_value (d : ResponseDelta) : value :=
  match d with
  | new_response_code c => VObj [("type", VStr "new_response_code"); ("code", VStr c)]
  | removed_response_code c =>
      VObj [("type", VStr "removed_response_code"); ("code", VStr c)]
  end.

Definition change_path (c : Change) : string :=
  match c with
  | new_endpoint p | new_method p _ | parameter_changes p _ _
  | response_changes p _ _ | removed_endpoint p | removed_method p _ => p
  end.

(** [change.details], when the record has one. *)
Definition change_details (c : Change) : option value :=
  match c with
  | parameter_changes _ _ ds => Some (VArr (map parameter_delta_value ds))
  | response_changes _ _ ds => Some (VArr (map response_delta_value ds))
  | _ => None
  end.

(** The descending loop [for (let i = n; i >= 2; i--)]. *)
Definition down_to_2 (n : nat) : list nat := rev (seq 2 (n - 1)).

(** The [if (change.path)] block. *)
Definition add_path_endpoints (endpoints : list string) (path : string)
  : list string :=
  if JS.is_empty path then endpoints else
  let cleanPath := Regex.strip_method_suffix (JS.strip_prefix "/paths" path) in
  if JS.startsWith cleanPath "/" && (1 <? String.length cleanPath)%nat then
    let endpoints := JS.set_add endpoints cleanPath in
    let withoutParams := Regex.strip_param_tail cleanPath in
    let endpoints :=
      if negb (String.eqb withoutParams cleanPath) &&
         (1 <? String.length withoutParams)%nat
      then JS.set_add endpoints withoutParams else endpoints in
    let segments := JS.filter_Boolean (JS.split "/" cleanPath) in
    if (1 <? List.length segments)%nat then
      fold_left (fun (endpoints : list string) (i : nat) =>
        let partialPath :=
          ("/" ++ JS.join "/" (JS.slice segments 0 (Z.of_nat i)))%string in
        if negb (JS.includes partialPath "{")
        then JS.set_add endpoints partialPath else endpoints)
        (down_to_2 (List.length segments)) endpoints
    else endpoints
  else endpoints.

(** The [if (change.details && typeof change.details === 'object')]
    block. *)
Definition add_details_endpoints (endpoints : list string) (details : value)
  : list string :=
  let detailsStr := stringify details in
  let endpoints :=
    fold_left (fun endpoints path =>
      if (3 <? String.length path)%nat && JS.includes path "/"
      then JS.set_add endpoints path else endpoints)
      (Regex.quoted_paths detailsStr) endpoints in
  match Regex.find_operationId detailsStr with
  | Some operationId =>
      let segments :=
        filter (fun s => (2 <? String.length s)%nat)
          (JS.split_by (fun c => Ascii.eqb c "-" || Ascii.eqb c "_")
             (JS.toLowerCase (Regex.dash_capitals operationId))) in
      if (0 <? List.length segments)%nat
      then JS.set_add endpoints ("/" ++ JS.join "/" segments)%string
      else endpoints
  | None => endpoints
  end.

Definition collect_endpoints (changes : list Change) : list string :=
  fold_left (fun endpoints change =>
    let endpoints := add_path_endpoints endpoints (change_path change) in
    match change_details change with
    | Some details => add_details_endpoints endpoints details
    | None => endpoints
    end) changes [].

Definition keep_endpoint (endpoint : string) : bool :=
  (3 <? String.length endpoint)%nat &&
  negb (Regex.single_letter_path endpoint) &&
  negb (String.eqb endpoint "/api") &&
  negb (String.eqb endpoint "/v1") &&
  negb (String.eqb endpoint "/v2").

(** [extractApiEndpoints(diff)], on [diff.changes]. *)
Definition extractApiEndpoints (changes : list Change) : list string :=
  filter keep_endpoint (collect_endpoints changes).

(* ===================================================================== *)
(** * src/scripts/suggest-updates.js: findRelevantTestFiles *)
(* ===================================================================== *)

(** [fs.readFileSync(f, 'utf8')], [fs.statSync(f).size] and
    [path.relative(from, to)]. *)
Record FileSystem : Type := {
  readFileSync : string -> Completion string;
  statSync_size : string -> Completion Z;
  path_relative : string -> string -> string
}.

(** The ways an endpoint may be written in a test. *)
Definition patterns (endpoint : string) : list string :=
  [ endpoint;
    JS.strip_prefix "/" endpoint;
    Regex.remove_params endpoint;
    JS.join "/" (JS.filter_Boolean (JS.split "/" endpoint)) ]
  ++ filter (fun part =>
       negb (JS.is_empty part) && negb (JS.startsWith part "{") &&
       (2 <? String.length part)%nat)
       (JS.split "/" endpoint).

(** The array [matches] built for one file: one entry per endpoint and
    pattern found in the lower-cased content. *)
Definition file_matches (changedEndpoints : list string) (content : string)
  : list string :=
  flat_map (fun endpoint =>
    flat_map (fun pattern =>
      if negb (JS.is_empty pattern) &&
         JS.includes content (JS.toLowerCase pattern)
      then [endpoint] else [])
      (patterns endpoint))
    changedEndpoints.

(** A [Map] from file to matched endpoints. *)
Definition EndpointMap : Type := list (string * list string).

Fixpoint map_set (m : EndpointMap) (k : string) (v : list string)
  : EndpointMap :=
  match m with
  | [] => [(k, v)]
  | (k', v') :: r =>
      if String.eqb k' k then (k, v) :: r else (k', v') :: map_set r k v
  end.

Fixpoint map_get (m : EndpointMap) (k : string) : option (list string) :=
  match m with
  | [] => None
  | (k', v) :: r => if String.eqb k' k then Some v else map_get r k
  end.

Record ScanState : Type := {
  relevantFiles : list string;
  endpointMatches : EndpointMap
}.

(** One iteration of [for (const testFile of allTestFiles)]; a file that
    cannot be read is skipped by the [catch]. *)
Definition scan_file (fs : FileSystem) (changedEndpoints : list string)
  (st : ScanState) (testFile : string) : ScanState :=
  match readFileSync fs testFile with
  | Throw _ => st
  | Normal raw =>
      let content := JS.toLowerCase raw in
      let matches := file_matches changedEndpoints content in
      if (0 <? List.length matches)%nat then
        {| relevantFiles := relevantFiles st ++ [testFile];
           endpointMatches :=
             map_set (endpointMatches st) testFile (JS.set_add_all [] matches) |}
      else st
  end.

Definition scan_files (fs : FileSystem) (changedEndpoints : list string)
  (allTestFiles : list string) : ScanState :=
  fold_left (scan_file fs changedEndpoints) allTestFiles
    {| relevantFiles := []; endpointMatches := [] |}.

(** [endpointMatches.get(f)?.length || 0]. *)
Definition match_count (m : EndpointMap) (f : string) : Z :=
  match map_get m f with
  | Some l => Z.of_nat (List.length l)
  | None => 0
  end.

(** [Math.min(5, Math.max(2, Math.floor(15000 / Math.max(n, 1))))]; the
    quotient of the two integers is far enough from the next integer for the
    floating-point [floor] to be the integer quotient. *)
Definition maxFiles (n : nat) : Z :=
  Z.min 5 (Z.max 2 (15000 / Z.max (Z.of_nat n) 1)).

Definition is_api_test_file (file : string) : bool :=
  let fileName := JS.toLowerCase (JS.basename file) in
  JS.includes fileName "api" || JS.includes fileName "endpoint" ||
  JS.includes fileName "integration" || JS.includes fileName "service".

(** [findRelevantTestFiles] after [changedEndpoints] has been extracted. *)
Definition rankTestFiles (fs : FileSystem) (allTestFiles : list string)
  (changedEndpoints : list string) : list string :=
  if (List.length changedEndpoints =? 0)%nat then
    JS.slice allTestFiles 0 (Z.min 3 (Z.of_nat (List.length allTestFiles)))
  else
    let st := scan_files fs changedEndpoints allTestFiles in
    let sortedFiles :=
      JS.sort (fun a b =>
        match_count (endpointMatches st) b - match_count (endpointMatches st) a)%Z
        (relevantFiles st) in
    if (List.length sortedFiles =? 0)%nat then
      let apiTestFiles := filter is_api_test_file allTestFiles in
      JS.or_array
        (JS.slice apiTestFiles 0 (Z.min 2 (Z.of_nat (List.length apiTestFiles))))
        (JS.slice allTestFiles 0 2)
    else JS.slice sortedFiles 0 (maxFiles (List.length allTestFiles)).

Definition findRelevantTestFiles (fs : FileSystem) (allTestFiles : list string)
  (changes : list Change) : list string :=
  rankTestFiles fs allTestFiles (extractApiEndpoints changes).

(* ===================================================================== *)
(** * src/scripts/suggest-updates.js: readTestFiles *)
(* ===================================================================== *)

Definition maxTokensPerFile : Z := 1000.
Definition maxTotalTokens : Z := 8000.

Definition detectTestFramework (content : string) : string :=
  if JS.includes content "describe(" && JS.includes content "it(" then "Jest/Mocha"
  else if JS.includes content "test(" then "Jest"
  else if JS.includes content "@Test" then "JUnit"
  else if JS.includes content "def test_" then "pytest"
  else "Unknown".

(** The comparator of the size sort: any failing [statSync] makes it
    return 0. *)
Definition compare_size (fs : FileSystem) (a b : string) : Z :=
  match statSync_size fs a with
  | Throw _ => 0
  | Normal aSize =>
      match statSync_size fs b with
      | Throw _ => 0
      | Normal bSize => aSize - bSize
      end
  end.

(** A line kept as a declaration: an import, a constant or a require. *)
Definition is_declaration (line : string) : bool :=
  JS.startsWith (JS.trim line) "import " ||
  JS.startsWith (JS.trim line) "const " ||
  JS.startsWith (JS.trim line) "require(".

Definition importLines (content : string) : list string :=
  JS.slice (filter is_declaration (JS.split JS.LF content)) 0 10.

Definition codeLines (content : string) : list string :=
  filter (fun line => negb (is_declaration line)) (JS.split JS.LF content).

(** [Math.floor((maxTokensPerFile - importLines.join('\n').length) / 50)]. *)
Definition maxCodeLines (content : string) : Z :=
  (maxTokensPerFile
   - Z.of_nat (String.length (JS.join JS.newline (importLines content)))) / 50.

Definition selectedCode (content : string) : list string :=
  JS.slice (codeLines content) 0 (maxCodeLines content).

Definition truncation_marker : string := "// ...(truncated)".

Definition truncate (content : string) : string :=
  if (maxTokensPerFile <? Z.of_nat (String.length content))%Z then
    (JS.join JS.newline (importLines content) ++ JS.newline ++ JS.newline
     ++ JS.join JS.newline (selectedCode content) ++ JS.newline ++ JS.newline
     ++ truncation_marker)%string
  else content.

(** [Math.ceil(text.length / 3.5)], that is the ceiling of [2 * length / 7]. *)
Definition estimateTokens (text : string) : Z :=
  (2 * Z.of_nat (String.length text) + 6) / 7.

Definition render (fs : FileSystem) (testRepoPath filePath content : string)
  : string :=
  (JS.newline ++ "=== " ++ JS.basename filePath ++ " ===" ++ JS.newline
   ++ "Path: " ++ path_relative fs testRepoPath filePath ++ JS.newline
   ++ "Framework: " ++ detectTestFramework content ++ JS.newline
   ++ truncate content ++ JS.newline)%string.

Record BudgetState : Type := {
  fileContents : list string;
  totalTokens : Z
}.

(** The [try] block of the loop: the file is read, its text truncated and
    counted, and its block pushed; a file that cannot be read is skipped by
    the [catch]. *)
Definition include_file (fs : FileSystem) (testRepoPath : string)
  (st : BudgetState) (filePath : string) : BudgetState :=
  match readFileSync fs filePath with
  | Throw _ => st
  | Normal content =>
      {| fileContents :=
           fileContents st ++ [render fs testRepoPath filePath content];
         totalTokens :=
           (totalTokens st + estimateTokens (truncate content))%Z |}
  end.

(** [for (const filePath of sortedFiles)]: the [break] is taken when the
    total has reached the limit before the file is read. *)
Fixpoint budget_loop (fs : FileSystem) (testRepoPath : string)
  (files : list string) (st : BudgetState) : BudgetState :=
  match files with
  | [] => st
  | filePath :: rest =>
      if (maxTotalTokens <=? totalTokens st)%Z then st
      else budget_loop fs testRepoPath rest
             (include_file fs testRepoPath st filePath)
  end.

(** [Array.prototype.sort] on an array of file names.  The order it
    leaves is the engine's own when the comparator is not consistent, as the
    comparator of [readTestFiles] is once a [statSync] fails. *)
Record ArraySort : Type := {
  array_sort : (string -> string -> Z) -> list string -> list string
}.

(** What is assumed of it: the result holds the elements of the array, and
    with a comparator that compares a key of the elements it is the stable
    sort by that key. *)
Record ArraySortLaws (S : ArraySort) : Prop := {
  array_sort_permutation : forall cmp l, Permutation l (array_sort S cmp l);
  array_sort_by_key : forall cmp (key : string -> Z) l,
    (forall a b, In a l -> In b l -> cmp a b = (key a - key b)%Z) ->
    array_sort S cmp l = JS.sort cmp l
}.

Definition sortedBySize (S : ArraySort) (fs : FileSystem)
  (testFiles : list string) : list string :=
  array_sort S (compare_size fs) testFiles.

(** The state of [readTestFiles] when its loop ends. *)
Definition readTestFiles_state (S : ArraySort) (fs : FileSystem)
  (testFiles : list string) (testRepoPath : string) : BudgetState :=
  budget_loop fs testRepoPath (sortedBySize S fs testFiles)
    {| fileContents := []; totalTokens := 0 |}.

Definition readTestFiles (S : ArraySort) (fs : FileSystem)
  (testFiles : list string) (testRepoPath : string) : string :=
  let st := readTestFiles_state S fs testFiles testRepoPath in
  if (List.length (fileContents st) =? 0)%nat then
    "No test files found in the test repository. Please create new test files following standard testing patterns."
  else JS.join JS.newline (fileContents st).

(* ===================================================================== *)
(** * Vocabulary of the properties *)
(* ===================================================================== *)

(** [clamp(x, lower, upper)] and the ranking budget K of a corpus of [n]
    documents. *)
Definition clamp (x lower upper : Z) : Z := Z.max lower (Z.min x upper).

Definition ranking_budget (n : nat) : Z := clamp (15000 / Z.of_nat n) 2 5.

Definition nullish (v : value) : bool :=
  match v with VUndefined | VNull => true | _ => false end.

(** What the read [v[k]] yields, own or inherited; [undefined] where it
    throws. *)
Definition read (R : Realm) (v : value) (k : string) : value :=
  match get R v k with
  | Normal x => x
  | Throw _ => VUndefined
  end.

(** The own entries [spec.paths[path]] and [spec.paths[path][method]] of a
    document. *)
Definition item (spec : value) (path : string) : value :=
  prop (prop spec "paths") path.

Definition entry (spec : value) (path method : string) : value :=
  prop (item spec path) method.

Definition parameters_of (op : value) : value :=
  or_value (prop op "parameters") (VArr []).

Definition responses_of (op : value) : value :=
  or_value (prop op "responses") (VObj []).

(** ** The shape of a normalized spec

    [paths] is absent or an object of path items; a path item is an object
    whose entries are truthy; an entry that is an object is an operation
    descriptor: its [parameters], when present, is an array of parameter
    objects with a string [name], a string [in] and an absent or boolean
    [required], no two of them with the same name and location, and its
    [responses], when present, is an object with truthy entries. *)

Definition is_string (v : value) : bool :=
  match v with VStr _ => true | _ => false end.

Definition is_flag (v : value) : bool :=
  match v with VUndefined | VBool _ => true | _ => false end.

Definition is_object (v : value) : bool :=
  match v with VObj _ => true | _ => false end.

Definition wf_parameter (p : value) : bool :=
  is_object p && is_string (prop p "name") && is_string (prop p "in") &&
  is_flag (prop p "required").

Definition same_parameter (p q : value) : bool :=
  strict_eq (prop p "name") (prop q "name") &&
  strict_eq (prop p "in") (prop q "in").

Fixpoint distinct_parameters (ps : list value) : bool :=
  match ps with
  | [] => true
  | p :: r => negb (existsb (fun q => same_parameter q p) r) &&
              distinct_parameters r
  end.

Definition wf_parameters (v : value) : bool :=
  match v with
  | VUndefined => true
  | VArr ps => forallb wf_parameter ps && distinct_parameters ps
  | _ => false
  end.

Definition wf_responses (v : value) : bool :=
  match v with
  | VUndefined => true
  | VObj rs => forallb (fun kv => truthy (snd kv)) rs
  | _ => false
  end.

Definition wf_entry (e : value) : bool :=
  truthy e &&
  match e with
  | VObj _ => wf_parameters (prop e "parameters") &&
              wf_responses (prop e "responses")
  | _ => true
  end.

Definition wf_path_item (i : value) : bool :=
  match i with
  | VObj entries => forallb (fun kv => wf_entry (snd kv)) entries
  | _ => false
  end.

Definition wf_spec (spec : value) : bool :=
  is_object spec &&
  match prop spec "paths" with
  | VUndefined => true
  | VObj items => forallb (fun kv => wf_path_item (snd kv)) items
  | _ => false
  end.

(** ** Keys that name no inherited member

    A key that is not an own key of an object is still found by a read when
    it is the name of a member of [Object.prototype].  In a plain spec no key
    of [paths], of a path item or of a [responses] object is such a name. *)

Definition plain_keys (v : value) : bool :=
  forallb (fun k => negb (inherited_name k)) (keys v).


(** A read of [k] in [o] that finds an own property or nothing. *)
Definition own_or_absent (o : value) (k : string) : bool :=
  has_own o k || negb (inherited_name k).

(** Every key of [b] that the comparison looks up in [a] is an own key
    there, or names no inherited member. *)
Definition reads_settled (a b : value) : Prop :=
  forall path, In path (keys (prop b "paths")) ->
    own_or_absent (prop a "paths") path = true /\
    forall method, In method (keys (item b path)) ->
      own_or_absent (item a path) method = true /\
      forall code, In code (keys (responses_of (entry b path method))) ->
        own_or_absent (responses_of (entry a path method)) code = true.

(** ** Complementary change lists *)







(** ** What the comparison computes on well-formed input *)

Definition elements (v : value) : list value :=
  match v with VArr l => l | _ => [] end.

Definition found (ps : list value) (q : value) : option value :=
  find (fun p => same_parameter p q) ps.

Definition added_parameter (olds : list value) (newParam : value)
  : list ParameterDelta :=
  match found olds newParam with
  | None => [new_parameter (prop newParam "name") (prop newParam "in")]
  | Some oldParam =>
      if negb (strict_eq (prop oldParam "required") (prop newParam "required"))
      then [parameter_requirement_changed
              (prop newParam "name") (prop newParam "in")
              (or_value (prop oldParam "required") (VBool false))
              (or_value (prop newParam "required") (VBool false))]
      else []
  end.

Definition dropped_parameter (news : list value) (oldParam : value)
  : list ParameterDelta :=
  match found news oldParam with
  | None => [removed_parameter (prop oldParam "name") (prop oldParam "in")]
  | Some _ => []
  end.

Definition parameter_deltas (olds news : list value) : list ParameterDelta :=
  flat_map (added_parameter olds) news ++ flat_map (dropped_parameter news) olds.

Definition added_code (olds : value) (code : string) : list ResponseDelta :=
  if negb (truthy (prop olds code)) then [new_response_code code] else [].

Definition dropped_code (news : value) (code : string) : list ResponseDelta :=
  if negb (truthy (prop news code)) then [removed_response_code code] else [].

Definition response_deltas (olds news : value) : list ResponseDelta :=
  flat_map (added_code olds) (keys news) ++
  flat_map (dropped_code news) (keys olds).

Definition wrap_parameters (path method : string) (ds : list ParameterDelta)
  : list Change :=
  if (0 <? List.length ds)%nat then [parameter_changes path method ds] else [].

Definition wrap_responses (path method : string) (ds : list ResponseDelta)
  : list Change :=
  if (0 <? List.length ds)%nat then [response_changes path method ds] else [].

Definition method_changes (oldSpec newSpec : value) (path method : string)
  : list Change :=
  if negb (truthy (entry oldSpec path method)) then [new_method path method]
  else
    wrap_parameters path method
      (parameter_deltas
         (elements (parameters_of (entry oldSpec path method)))
         (elements (parameters_of (entry newSpec path method))))
    ++
    wrap_responses path method
      (response_deltas
         (responses_of (entry oldSpec path method))
         (responses_of (entry newSpec path method))).

Definition path_forward (oldSpec newSpec : value) (path : string)
  : list Change :=
  if negb (truthy (item oldSpec path)) then [new_endpoint path]
  else flat_map (method_changes oldSpec newSpec path)
         (keys (item newSpec path)).

Definition method_backward (newSpec : value) (path method : string)
  : list Change :=
  if negb (truthy (entry newSpec path method))
  then [removed_method path method] else [].

Definition path_backward (oldSpec newSpec : value) (path : string)
  : list Change :=
  if negb (truthy (item newSpec path)) then [removed_endpoint path]
  else flat_map (method_backward newSpec path) (keys (item oldSpec path)).

Definition forward_changes (oldSpec newSpec : value) : list Change :=
  flat_map (path_forward oldSpec newSpec) (keys (prop newSpec "paths")).

Definition backward_changes (oldSpec newSpec : value) : list Change :=
  flat_map (path_backward oldSpec newSpec) (keys (prop oldSpec "paths")).

(* ===================================================================== *)
(** * A realm and a sort *)
(* ===================================================================== *)

(** A fragment of the built-ins of Node.js, enough to follow a read through
    [Object.prototype]: [Object.prototype] with its members, [Object] with
    its static methods, [Function] and [Function.prototype].  A built-in is
    named by the path that leads to it. *)

Definition Function_prototype : list string :=
  ["apply"; "bind"; "call"; "toString"].

Definition Object_statics : list string :=
  ["assign"; "create"; "defineProperties"; "defineProperty"; "entries";
   "freeze"; "fromEntries"; "getOwnPropertyDescriptor";
   "getOwnPropertyDescriptors"; "getOwnPropertyNames";
   "getOwnPropertySymbols"; "getPrototypeOf"; "hasOwn"; "is"; "isExtensible";
   "isFrozen"; "isSealed"; "keys"; "preventExtensions"; "seal";
   "setPrototypeOf"; "values"].

Definition one_of (names : list string) (k : string) : bool :=
  existsb (String.eqb k) names.

(** The member [k] of [Object.prototype]. *)
Definition object_member (k : string) : value :=
  if String.eqb k "constructor" then VNative "Object"
  else if String.eqb k "__proto__" then VNative "Object.prototype"
  else if inherited_name k then VNative ("Object.prototype." ++ k)
  else VUndefined.

(** The member [k] of [Function.prototype], which hides the member of
    [Object.prototype] of the same name. *)
Definition function_member (k : string) : value :=
  if String.eqb k "constructor" then VNative "Function"
  else if String.eqb k "__proto__" then VNative "Function.prototype"
  else if one_of Function_prototype k then VNative ("Function.prototype." ++ k)
  else object_member k.

(** The name of a built-in function is the last component of its path. *)
Definition short_name (name : string) : string :=
  match rev (JS.split "." name) with
  | last :: _ => last
  | [] => name
  end.

(** The number of parameters of a built-in function. *)
Definition arity (name : string) : Z :=
  if one_of ["toString"; "valueOf"; "toLocaleString"] (short_name name) then 0
  else if one_of ["__defineGetter__"; "__defineSetter__"; "apply"; "assign";
                  "create"; "defineProperties"; "getOwnPropertyDescriptor";
                  "hasOwn"; "is"; "setPrototypeOf"] (short_name name) then 2
  else if String.eqb (short_name name) "defineProperty" then 3
  else 1.

(** A read in a built-in.  [caller] and [arguments] are accessors of
    [Function.prototype] that throw. *)
Definition native_member (name k : string) : Completion value :=
  if String.eqb name "Object.prototype" then
    Normal (if String.eqb k "__proto__" then VNull else object_member k)
  else if String.eqb name "Function.prototype" then
    if String.eqb k "caller" || String.eqb k "arguments" then Throw TypeError
    else if String.eqb k "name" then Normal (VStr "")
    else if String.eqb k "length" then Normal (VNum 0)
    else if String.eqb k "__proto__" then Normal (VNative "Object.prototype")
    else Normal (function_member k)
  else
    if String.eqb k "caller" || String.eqb k "arguments" then Throw TypeError
    else if String.eqb k "name" then Normal (VStr (short_name name))
    else if String.eqb k "length" then Normal (VNum (arity name))
    else if String.eqb k "prototype" then
      Normal (if String.eqb name "Object" then VNative "Object.prototype"
              else if String.eqb name "Function"
                   then VNative "Function.prototype"
              else VUndefined)
    else if String.eqb name "Object" && one_of Object_statics k then
      Normal (VNative ("Object." ++ k))
    else Normal (function_member k).

(** Every value inherits the members of [Object.prototype].  For an array,
    a string, a number or a boolean the chain starts at the prototype of its
    kind, whose members are not listed: what is found for such a value is
    the member of [Object.prototype] of that name. *)
Definition node_inherited (v : value) (k : string) : Completion value :=
  if field_of_document v k then Normal VUndefined
  else
    match v with
    | VNative name => native_member name k
    | _ => Normal (object_member k)
    end.

Definition node_realm : Realm := {| inherited := node_inherited |}.

(** The stable sort, whatever the comparator. *)
Definition stable_sort : ArraySort := {|
  array_sort := fun cmp l => JS.sort cmp l
|}.

(* ===================================================================== *)
(** * Sample documents and corpora *)
(* ===================================================================== *)

(** A parser known on finitely many documents; every other text is
    rejected. *)
Definition table_parser (e : js_error) (t : list (string * value))
  (text : string) : Completion value :=
  match lookup text t with
  | Some v => Normal v
  | None => Throw e
  end.

Definition parameter (name location : string) (required : option bool)
  : value :=
  VObj ([("name", VStr name); ("in", VStr location)]
        ++ match required with
           | Some b => [("required", VBool b)]
           | None => []
           end).

Definition users_spec (entries : list (string * value)) : value :=
  VObj [("paths", VObj [("/v1/users", VObj entries)])].

Definition get_with (ps : list value) : list (string * value) :=
  [("get", VObj [("parameters", VArr ps)])].

(** The documents below are YAML in flow style, which [JSON.parse] rejects
    and [yaml.load] reads as the value given next to each. *)
Definition doc_get : string := "paths: {/v1/users: {get: {}}}".
Definition doc_get_post : string := "paths: {/v1/users: {get: {}, post: {}}}".
Definition doc_path_fields : string :=
  "paths: {/v1/users: {get: {}, summary: List users, parameters: [{name: expand, in: query}]}}".
Definition doc_required : string :=
  "paths: {/v1/users: {get: {parameters: [{name: expand, in: query, required: true}]}}}".
Definition doc_absent : string :=
  "paths: {/v1/users: {get: {parameters: [{name: expand, in: query}]}}}".
Definition doc_false : string :=
  "paths: {/v1/users: {get: {parameters: [{name: expand, in: query, required: false}]}}}".
Definition doc_duplicate : string :=
  "paths: {/v1/users: {get: {parameters: [{name: expand, in: query, required: true}, {name: expand, in: query, required: false}]}}}".
Definition doc_empty_description : string :=
  "paths: {/v1/users: {description: '', get: {responses: {'200': {description: ok}}}}}".
Definition doc_constructor : string :=
  "paths: {/v1/users: {get: {}, constructor: {}}}".
Definition doc_constructor_parameters : string :=
  "paths: {/v1/users: {get: {}, constructor: {parameters: [{name: id, in: query}]}}}".
Definition doc_broken : string := "paths: [".
Definition doc_null : string := "null".

Definition yaml_documents : list (string * value) :=
  [ (doc_get, users_spec [("get", VObj [])]);
    (doc_get_post, users_spec [("get", VObj []); ("post", VObj [])]);
    (doc_path_fields,
       users_spec [("get", VObj []); ("summary", VStr "List users");
                   ("parameters", VArr [parameter "expand" "query" None])]);
    (doc_required, users_spec (get_with [parameter "expand" "query" (Some true)]));
    (doc_absent, users_spec (get_with [parameter "expand" "query" None]));
    (doc_false, users_spec (get_with [parameter "expand" "query" (Some false)]));
    (doc_duplicate,
       users_spec (get_with [parameter "expand" "query" (Some true);
                             parameter "expand" "query" (Some false)]));
    (doc_constructor,
       users_spec [("get", VObj []); ("constructor", VObj [])]);
    (doc_constructor_parameters,
       users_spec [("get", VObj []);
                   ("constructor",
                      VObj [("parameters", VArr [parameter "id" "query" None])])]);
    (doc_empty_description,
       users_spec
         [("description", VStr "");
          ("get", VObj [("responses",
             VObj [("200", VObj [("description", VStr "ok")])])])]) ].

Definition sample_parsers : SpecParsers := {|
  JSON_parse := table_parser SyntaxError [(doc_null, VNull)];
  yaml_load := table_parser YAMLException yaml_documents
|}.

(** A file system holding the listed files, each with its content; the size
    of a file is the length of its content, and a path is made relative by
    dropping the repository prefix. *)
Fixpoint file_content (t : list (string * string)) (f : string)
  : option string :=
  match t with
  | [] => None
  | (f', c) :: r => if String.eqb f' f then Some c else file_content r f
  end.

Definition files_on_disk (t : list (string * string)) : FileSystem := {|
  readFileSync := fun f =>
    match file_content t f with
    | Some c => Normal c
    | None => Throw SystemError
    end;
  statSync_size := fun f =>
    match file_content t f with
    | Some c => Normal (Z.of_nat (String.length c))
    | None => Throw SystemError
    end;
  path_relative := fun from to => JS.strip_prefix (from ++ "/") to
|}.

Fixpoint replicate (n : nat) (c : ascii) : string :=
  match n with
  | O => EmptyString
  | S k => String c (replicate k c)
  end.

(** A corpus of 5001 test files. *)
Definition large_corpus : list string :=
  map (fun i => ("tests/t" ++ JS.string_of_nat i ++ ".test.js")%string)
      (seq 0 (Z.to_nat 5001)).

Definition empty_disk : FileSystem := files_on_disk [].

(** Three tests that mention no endpoint and whose names carry no generic
    marker. *)
Definition plain_tests : list (string * string) :=
  [ ("tests/login.test.js", "expect(login()).toBe(true)");
    ("tests/cart.test.js", "expect(cart.total()).toBe(0)");
    ("tests/search.test.js", "expect(search('a')).toEqual([])") ].

Definition plain_corpus : list string := map fst plain_tests.

(** The corpus of scenario 3: one test mentions the endpoint. *)
Definition users_tests : list (string * string) :=
  [ ("tests/login.test.js", "expect(login()).toBe(true)");
    ("tests/users.test.js", "await request.get('/v1/users')");
    ("tests/cart.test.js", "expect(cart.total()).toBe(0)") ].

(** A minified test bundle: one line of 28100 characters. *)
Definition bundle : string := replicate (Z.to_nat 28100) "x".

Definition bundle_disk : FileSystem :=
  files_on_disk [("tests/bundle.test.js", bundle)].

(** A test file whose first declaration is longer than the per-file
    budget, followed by three lines of code. *)
Definition long_declaration : string :=
  ("const fixture = '" ++ replicate 1000 "y" ++ "';")%string.

Definition long_declaration_file : string :=
  (long_declaration ++ JS.newline ++ "describe('users', () => {"
   ++ JS.newline ++ "  it('lists users', () => {});"
   ++ JS.newline ++ "});")%string.

Definition size_of (fs : FileSystem) (f : string) : Z :=
  match statSync_size fs f with
  | Normal n => n
  | Throw _ => 0
  end.

(** The block pushed for a file, and the estimate added for it: none for a
    file that cannot be read. *)
Definition block_of (fs : FileSystem) (testRepoPath filePath : string)
  : list string :=
  match readFileSync fs filePath with
  | Normal content => [render fs testRepoPath filePath content]
  | Throw _ => []
  end.

Definition estimate_of (fs : FileSystem) (filePath : string) : Z :=
  match readFileSync fs filePath with
  | Normal content => estimateTokens (truncate content)
  | Throw _ => 0
  end.

(** The estimate accumulated over [files]. *)
Definition accumulated (fs : FileSystem) (files : list string) : Z :=
  fold_right Z.add 0%Z (map (estimate_of fs) files).

(* ===================================================================== *)
(** * Kinds of change record *)
(* ===================================================================== *)

Definition is_removal (c : Change) : bool :=
  match c with
  | removed_endpoint _ | removed_method _ _ => true
  | _ => false
  end.

(** What a record of a change list says of the reads of the two documents.
    [reads R spec path] and [reads_in R spec path method] are what
    [spec.paths[path]] and [spec.paths[path][method]] yield, own or
    inherited; a path is present when [spec.paths] and [spec.paths[path]]
    are both truthy. *)
Definition reads (R : Realm) (spec : value) (path : string) : value :=
  read R (read R spec "paths") path.

Definition reads_in (R : Realm) (spec : value) (path method : string) : value :=
  read R (reads R spec path) method.

Definition present (R : Realm) (spec : value) (path : string) : bool :=
  truthy (read R spec "paths") && truthy (reads R spec path).

Definition justified (R : Realm) (oldSpec newSpec : value) (c : Change) : Prop :=
  match c with
  | new_endpoint p =>
      In p (keys (read R newSpec "paths")) /\ present R oldSpec p = false
  | new_method p m =>
      In p (keys (read R newSpec "paths")) /\ present R oldSpec p = true /\
      In m (keys (reads R newSpec p)) /\ truthy (reads_in R oldSpec p m) = false
  | parameter_changes p m ds =>
      In p (keys (read R newSpec "paths")) /\ present R oldSpec p = true /\
      In m (keys (reads R newSpec p)) /\ truthy (reads_in R oldSpec p m) = true /\
      ds <> [] /\
      compareParameters R
        (or_value (read R (reads_in R oldSpec p m) "parameters") (VArr []))
        (or_value (read R (reads_in R newSpec p m) "parameters") (VArr []))
      = Normal ds
  | response_changes p m ds =>
      In p (keys (read R newSpec "paths")) /\ present R oldSpec p = true /\
      In m (keys (reads R newSpec p)) /\ truthy (reads_in R oldSpec p m) = true /\
      ds <> [] /\
      compareResponses R
        (or_value (read R (reads_in R oldSpec p m) "responses") (VObj []))
        (or_value (read R (reads_in R newSpec p m) "responses") (VObj []))
      = Normal ds
  | removed_endpoint p =>
      In p (keys (read R oldSpec "paths")) /\ present R newSpec p = false
  | removed_method p m =>
      In p (keys (read R oldSpec "paths")) /\ present R newSpec p = true /\
      In m (keys (reads R oldSpec p)) /\ truthy (reads_in R newSpec p m) = false
  end.

Definition doc_get_post_absent : string :=
  "paths: {/v1/users: {get: {parameters: [{name: expand, in: query}]}, post: {}}}".

Definition doc_no_paths : string := "openapi: 3.0.0".
Definition doc_empty_paths : string := "paths: {}".
Definition doc_constructor_path : string :=
  "paths: {constructor: {caller: {}}}".

(** [sample_parsers] extended with further documents. *)
Definition more_documents : list (string * value) :=
  [ (doc_no_paths, VObj [("openapi", VStr "3.0.0")]);
    (doc_empty_paths, VObj [("paths", VObj [])]);
    (doc_constructor_path,
       VObj [("paths", VObj [("constructor", VObj [("caller", VObj [])])])]);
    (doc_get_post_absent,
       users_spec [("get", VObj [("parameters",
                      VArr [parameter "expand" "query" None])]);
                   ("post", VObj [])]) ].

Definition more_parsers : SpecParsers := {|
  JSON_parse := table_parser SyntaxError [(doc_null, VNull)];
  yaml_load := table_parser YAMLException (more_documents ++ yaml_documents)
|}.

(* ===================================================================== *)
(** * Shapes of identifiers *)
(* ===================================================================== *)

Definition slashed (x : string) : Prop := JS.startsWith x "/" = true.

(** The path of a change record without the [/paths] prefix and the HTTP
    method suffix. *)
Definition clean_path (path : string) : string :=
  Regex.strip_method_suffix (JS.strip_prefix "/paths" path).

(* ===================================================================== *)
(** * Scores of the ranking *)
(* ===================================================================== *)

(** The array [matches] of a file: empty when the file cannot be read. *)
Definition matches_of (fs : FileSystem) (changedEndpoints : list string)
  (file : string) : list string :=
  match readFileSync fs file with
  | Normal raw => file_matches changedEndpoints (JS.toLowerCase raw)
  | Throw _ => []
  end.

Definition has_match (fs : FileSystem) (changedEndpoints : list string)
  (file : string) : bool :=
  (0 <? List.length (matches_of fs changedEndpoints file))%nat.

(** The identifiers found in a file, each counted once. *)
Definition matched_identifiers (fs : FileSystem)
  (changedEndpoints : list string) (file : string) : list string :=
  JS.set_add_all [] (matches_of fs changedEndpoints file).

(* ===================================================================== *)
(** * src/utils/git.js *)
(* ===================================================================== *)

(** The git commands run through [execSync], and the library calls
    [glob.sync(pattern, {cwd, ignore})], [path.join(a, b)] and
    [micromatch.isMatch(file, patterns)]. *)
Record Git : Type := {
  git_diff_names : Completion string;
  git_show : string -> string -> Completion string;
  git_rev_parse : Completion unit
}.

Record Globbing : Type := {
  glob_sync : string -> string -> Completion (list string);
  path_join : string -> string -> string;
  isMatch : string -> list string -> bool
}.

Definition getChangedFiles (g : Git) : list string :=
  match git_diff_names g with
  | Normal output =>
      filter (fun line => negb (String.eqb (JS.trim line) ""))
        (JS.split JS.LF output)
  | Throw _ => []
  end.

(** [getFileAtRevision(filePath, revision)]: the output of
    [git show revision:filePath], or the empty string. *)
Definition getFileAtRevision (g : Git) (filePath revision : string) : string :=
  match git_show g revision filePath with
  | Normal content => content
  | Throw _ => ""
  end.

Definition getCurrentFileContent (fs : FileSystem) (filePath : string)
  : string :=
  match readFileSync fs filePath with
  | Normal content => content
  | Throw _ => ""
  end.

Definition isGitRepository (g : Git) : bool :=
  match git_rev_parse g with
  | Normal _ => true
  | Throw _ => false
  end.

(** One iteration of [for (const pattern of testCodePaths)]: a pattern
    whose search throws adds nothing. *)
Definition add_pattern_files (G : Globbing) (testRepoPath : string)
  (allFiles : list string) (pattern : string) : list string :=
  match glob_sync G pattern testRepoPath with
  | Normal files => allFiles ++ map (path_join G testRepoPath) files
  | Throw _ => allFiles
  end.

Definition getTestFilesFromRepo (G : Globbing) (testRepoPath : string)
  (testCodePaths : list string) : list string :=
  JS.set_add_all []
    (fold_left (add_pattern_files G testRepoPath) testCodePaths []).

(* ===================================================================== *)
(** * src/scripts/detect-changes.js and the api detector *)
(* ===================================================================== *)

Definition detectChanges (g : Git) (G : Globbing)
  (api_spec_paths : list string) : list string :=
  if negb (isGitRepository g) then []
  else
    let changedFiles := getChangedFiles g in
    if (List.length changedFiles =? 0)%nat then []
    else filter (fun file => isMatch G file api_spec_paths) changedFiles.

Record SpecDiff : Type := {
  diff_file : string;
  diff_changes : list Change
}.

(** The body of the [try] of one iteration of [run]: the records it
    pushes, none when the iteration [continue]s or finds no change. *)
Definition process_file (R : Realm) (g : Git) (fs : FileSystem)
  (P : SpecParsers) (file : string) : Completion (list SpecDiff) :=
  let oldSpec := getFileAtRevision g file "HEAD~1" in
  let newSpec := getCurrentFileContent fs file in
  if JS.is_empty oldSpec || JS.is_empty newSpec then Normal []
  else
    apiChanges <- diffOpenAPISpecs R P oldSpec newSpec ;;
    if (0 <? List.length apiChanges)%nat
    then Normal [{| diff_file := file; diff_changes := apiChanges |}]
    else Normal [].

(** [run(changedFiles)]: an iteration that throws is caught and adds
    nothing. *)
Definition run (R : Realm) (g : Git) (fs : FileSystem) (P : SpecParsers)
  (changedFiles : list string) : list SpecDiff :=
  flat_map (fun file =>
    match try_catch (process_file R g fs P file) (fun error => Normal []) with
    | Normal pushed => pushed
    | Throw _ => []
    end) changedFiles.

(** A repository whose last commit touched a spec and a README, and a test
    repository searched through three patterns, one of which fails. *)
Definition sample_git : Git := {|
  git_diff_names :=
    Normal ("api/openapi.yaml" ++ JS.newline ++ "README.md" ++ JS.newline)%string;
  git_show := fun revision filePath =>
    if String.eqb revision "HEAD~1" && String.eqb filePath "api/openapi.yaml"
    then Normal doc_get else Throw SystemError;
  git_rev_parse := Normal tt
|}.

Definition sample_workspace : FileSystem :=
  files_on_disk [("api/openapi.yaml", doc_get_post); ("README.md", "# API")].

Definition sample_globbing : Globbing := {|
  glob_sync := fun pattern cwd =>
    if String.eqb pattern "tests/**/*.js"
    then Normal ["tests/a.test.js"; "tests/b.test.js"]
    else if String.eqb pattern "tests/**/a.*"
    then Normal ["tests/a.test.js"]
    else Throw SystemError;
  path_join := fun a b => (a ++ "/" ++ b)%string;
  isMatch := fun file patterns => existsb (String.eqb file) patterns
|}.

(** The changes between the version of [file] at [HEAD~1] and its current
    version; none when the comparison throws. *)
Definition changes_of (R : Realm) (g : Git) (fs : FileSystem)
  (P : SpecParsers) (file : string) : list Change :=
  match diffOpenAPISpecs R P (getFileAtRevision g file "HEAD~1")
          (getCurrentFileContent fs file) with
  | Normal apiChanges => apiChanges
  | Throw _ => []
  end.

(** A file of which both versions were retrieved and are not empty, and
    whose versions differ. *)
Definition has_changes (R : Realm) (g : Git) (fs : FileSystem)
  (P : SpecParsers) (file : string) : bool :=
  negb (JS.is_empty (getFileAtRevision g file "HEAD~1")) &&
  negb (JS.is_empty (getCurrentFileContent fs file)) &&
  (0 <? List.length (changes_of R g fs P file))%nat.

(* ===================================================================== *)
(** * src/scripts/create-draft-pr.js *)
(* ===================================================================== *)

Definition is_alnum (c : ascii) : bool :=
  JS.is_lower c || JS.is_upper c || JS.is_digit c.

(** [s.replace(/[^a-zA-Z0-9]/g, '-')]. *)
Fixpoint dash_non_alnum (s : string) : string :=
  match s with
  | EmptyString => EmptyString
  | String c r => String (if is_alnum c then c else "-"%char) (dash_non_alnum r)
  end.

(** The part of the branch name drawn from the spec files of the
    suggestions; [stem f] is [path.basename(f, path.extname(f))]. *)
Definition apiFilesPart (stem : string -> string) (files : list string)
  : string :=
  let apiFiles :=
    JS.slice (map (fun f => JS.toLowerCase (dash_non_alnum (stem f))) files)
      0 2 in
  if (0 <? List.length apiFiles)%nat
  then ("-" ++ JS.join "-" apiFiles)%string else "".

(** [date] is [new Date().toISOString().slice(0, 10)] and [timestamp] is
    [Date.now().toString().slice(-6)]. *)
Definition branchName (stem : string -> string) (date timestamp : string)
  (files : list string) : string :=
  ("ai-test-updates/" ++ date ++ apiFilesPart stem files ++ "-" ++ timestamp)%string.

Definition branch_safe (c : ascii) : bool :=
  JS.is_lower c || JS.is_digit c || Ascii.eqb c "-".

Fixpoint all_chars (f : ascii -> bool) (s : string) : bool :=
  match s with
  | EmptyString => true
  | String c r => f c && all_chars f r
  end.

(** The lazy group of the URL pattern followed by the optional [.git]: the
    shortest non-empty prefix of the last segment that leaves nothing or
    [.git]. *)
Definition strip_git_suffix (last : string) : string :=
  match JS.strip_suffix ".git" last with
  | Some r => if JS.is_empty r then last else r
  | None => last
  end.

(** [url.match(pattern)] of [createGitHubPR], where the pattern is a slash,
    a non-empty run without slash (the owner), a slash, a non-empty run
    without slash taken lazily (the repository), an optional [.git] and the
    end of the string: the groups of the match, [None] when there is none
    and the function throws. *)
Definition parse_repo_url (url : string) : option (string * string) :=
  match rev (JS.split "/" url) with
  | last :: owner :: _ :: _ =>
      if JS.is_empty last || JS.is_empty owner then None
      else Some (owner, strip_git_suffix last)
  | _ => None
  end.

(** The owner and the repository that [createGitHubPR] takes from the URL,
    or the message of the [Error] it throws when the pattern has no
    match. *)
Definition repo_of_url (url : string) : string + string * string :=
  match parse_repo_url url with
  | Some groups => inr groups
  | None => inl ("Cannot parse owner/repo from URL: " ++ url)%string
  end.

Definition no_slash (s : string) : bool := negb (JS.has_char "/" s).

(** A generated test file, as built by [parseAIResponse]. *)
Record TestBlock : Type := {
  filePath : string;
  action : string;
  description : string;
  code : string;
  absolutePath : string
}.

(** The calls of [applyTestChanges] into [fs] and [path], on a state [S] of
    the disk: [fs.existsSync], [fs.mkdirSync(dir, {recursive: true})],
    [fs.writeFileSync], [fs.readFileSync(p, 'utf8')] and [path.dirname]. *)
Record DiskOps (S : Type) : Type := {
  disk_exists : S -> string -> bool;
  disk_mkdir : S -> string -> Completion S;
  disk_write : S -> string -> string -> Completion S;
  disk_read : S -> string -> Completion string;
  disk_dirname : string -> string
}.

Arguments disk_exists {S} _ _ _.
Arguments disk_mkdir {S} _ _ _.
Arguments disk_write {S} _ _ _ _.
Arguments disk_read {S} _ _ _.
Arguments disk_dirname {S} _ _.

(** What is assumed of a disk: a file reads back as written, writing a file
    and creating a directory leave the content of the other files as it
    was, and a file that can be read exists. *)
Record DiskLaws {S : Type} (D : DiskOps S) : Prop := {
  read_written : forall s p c s',
    disk_write D s p c = Normal s' -> disk_read D s' p = Normal c;
  write_frame : forall s p c s' q,
    disk_write D s p c = Normal s' -> q <> p ->
    disk_read D s' q = disk_read D s q;
  mkdir_frame : forall s d s' q,
    disk_mkdir D s d = Normal s' -> disk_read D s' q = disk_read D s q;
  readable_exists : forall s p c,
    disk_read D s p = Normal c -> disk_exists D s p = true
}.

(** The text appended to an existing test file. *)
Definition appended (existingContent description code : string) : string :=
  (existingContent ++ JS.newline ++ JS.newline
   ++ "// === AI-Generated Test Updates ===" ++ JS.newline
   ++ "// " ++ description ++ JS.newline ++ JS.newline ++ code)%string.

Definition applyTestChanges {S : Type} (D : DiskOps S) (s : S) (t : TestBlock)
  : Completion S :=
  let dir := disk_dirname D (absolutePath t) in
  s <- (if negb (disk_exists D s dir) then disk_mkdir D s dir else Normal s) ;;
  if String.eqb (action t) "create" then
    disk_write D s (absolutePath t) (code t)
  else if String.eqb (action t) "update" || String.eqb (action t) "modify" then
    if disk_exists D s (absolutePath t) then
      existingContent <- disk_read D s (absolutePath t) ;;
      disk_write D s (absolutePath t)
        (appended existingContent (description t) (code t))
    else
      disk_write D s (absolutePath t) (code t)
  else Normal s.

(** A disk that holds files only: creating a directory changes nothing. *)
Fixpoint table_write (t : list (string * string)) (p c : string)
  : list (string * string) :=
  match t with
  | [] => [(p, c)]
  | (p', c') :: r =>
      if String.eqb p' p then (p, c) :: r else (p', c') :: table_write r p c
  end.

Definition table_disk : DiskOps (list (string * string)) := {|
  disk_exists := fun t p =>
    match file_content t p with Some _ => true | None => false end;
  disk_mkdir := fun t d => Normal t;
  disk_write := fun t p c => Normal (table_write t p c);
  disk_read := fun t p =>
    match file_content t p with
    | Some c => Normal c
    | None => Throw SystemError
    end;
  disk_dirname := fun p => "tests"
|}.

Definition update_block : TestBlock := {|
  filePath := "tests/users.test.js";
  action := "update";
  description := "covers POST /v1/users";
  code := "it('creates a user', () => {});";
  absolutePath := "tests/users.test.js"
|}.

(* ===================================================================== *)
(** * Loops and property reads *)
(* ===================================================================== *)

Lemma forM_pure {A B} (l : list A) (f : A -> Completion (list B))
  (g : A -> list B) :
  (forall x, In x l -> f x = Normal (g x)) ->
  forM l f = Normal (flat_map g l).
Proof.
  induction l as [|x r IH]; intros H; simpl.
  - reflexivity.
  - rewrite (H x (or_introl eq_refl)). simpl.
    rewrite IH by (intros y Hy; apply H; right; exact Hy).
    reflexivity.
Qed.

Lemma forM_step {A B} (l : list A) (f : A -> Completion (list B)) r x :
  forM l f = Normal r -> In x l ->
  exists c, f x = Normal c /\ incl c r.
Proof.
  revert r. induction l as [|y l IH]; intros r H Hin; [destruct Hin|].
  simpl in H. destruct (f y) as [c|e] eqn:Hy; simpl in H; [|discriminate].
  destruct (forM l f) as [cs|e] eqn:Hl; simpl in H; [|discriminate].
  injection H as <-. destruct Hin as [->|Hin].
  - exists c. split; [exact Hy|]. apply incl_appl, incl_refl.
  - destruct (IH cs eq_refl Hin) as (c' & Hc' & Hincl).
    exists c'. split; [exact Hc'|]. apply incl_appr. exact Hincl.
Qed.

Lemma flat_map_nil {A B} (g : A -> list B) (l : list A) :
  (forall x, In x l -> g x = []) -> flat_map g l = [].
Proof.
  induction l as [|x r IH]; intros H; simpl; [reflexivity|].
  rewrite (H x (or_introl eq_refl)), IH; [reflexivity|].
  intros y Hy. apply H. right. exact Hy.
Qed.


(** ** Own properties and inherited members *)

Lemma index_lookup_absent k l i :
  is_index k i (List.length l) = false -> index_lookup k i l = VUndefined.
Proof.
  revert i. induction l as [|x l IH]; intros i; cbn; [reflexivity|].
  destruct (String.eqb (JS.string_of_nat i) k); cbn; [discriminate|].
  apply IH.
Qed.

Lemma length_chars s : List.length (chars s) = String.length s.
Proof.
  unfold chars. rewrite length_map.
  induction s as [|c s IH]; cbn; [reflexivity|]. rewrite IH. reflexivity.
Qed.

(** A property that a value does not hold itself reads as [undefined]
    among its own properties. *)
Lemma has_own_prop v k : has_own v k = false -> prop v k = VUndefined.
Proof.
  destruct v; cbn [has_own prop]; intros H; try reflexivity.
  - apply orb_false_iff in H. destruct H as [-> H].
    apply index_lookup_absent. rewrite length_chars. exact H.
  - apply orb_false_iff in H. destruct H as [-> H].
    apply index_lookup_absent. exact H.
  - destruct (lookup k props); [discriminate|reflexivity].
Qed.

Lemma is_index_In k i n :
  In k (map JS.string_of_nat (seq i n)) -> is_index k i n = true.
Proof.
  revert i. induction n as [|n IH]; intros i; cbn; [intros []|].
  intros [<-|H].
  - rewrite String.eqb_refl. reflexivity.
  - rewrite (IH _ H). apply orb_true_r.
Qed.

(** The keys that [for .. in] visits are own properties. *)
Lemma In_keys_has_own v k : In k (keys v) -> has_own v k = true.
Proof.
  destruct v; cbn [keys has_own]; try (intros []; fail).
  - intros H. rewrite (is_index_In _ _ _ H). apply orb_true_r.
  - intros H. rewrite (is_index_In _ _ _ H). apply orb_true_r.
  - intros H. induction props as [|[k' x] r IH]; [destruct H|].
    cbn [lookup]. destruct (String.eqb k' k) eqn:E; [reflexivity|].
    apply IH. destruct H as [H|H]; [|exact H].
    cbn in H. subst. rewrite String.eqb_refl in E. discriminate.
Qed.

(** A read of an own property. *)
Lemma get_own {R : Realm} v k :
  nullish v = false -> has_own v k = true -> get R v k = Normal (prop v k).
Proof.
  intros Hn Ho. destruct v; try discriminate; cbn [get]; rewrite Ho;
    reflexivity.
Qed.

(** A read of a field of a document: the own property, or [undefined]. *)
Lemma get_field {R : Realm} (HR : RealmLaws R) v k :
  nullish v = false -> field_of_document v k = true ->
  get R v k = Normal (prop v k).
Proof.
  intros Hn Hf. destruct (has_own v k) eqn:Ho; [apply get_own; assumption|].
  rewrite (has_own_prop _ _ Ho).
  destruct v; try discriminate; cbn [get]; rewrite Ho;
    apply (field_not_inherited R HR); exact Hf.
Qed.

(** A read in an object of a key that is an own key or names no inherited
    member. *)
Lemma get_settled {R : Realm} (HR : RealmLaws R) o k :
  is_object o = true -> own_or_absent o k = true ->
  get R o k = Normal (prop o k).
Proof.
  intros Ho Hk. destruct (has_own o k) eqn:E.
  - apply get_own; [|exact E]. destruct o; try discriminate. reflexivity.
  - rewrite (has_own_prop _ _ E). unfold own_or_absent in Hk.
    rewrite E in Hk. cbn [orb] in Hk. apply negb_true_iff in Hk.
    destruct o; try discriminate. cbn [get]. rewrite E.
    apply (object_inherits_nothing_else R HR). exact Hk.
Qed.

Lemma get_key {R : Realm} v k :
  In k (keys v) -> get R v k = Normal (prop v k).
Proof.
  intros H. apply get_own; [|apply In_keys_has_own; exact H].
  destruct v; try reflexivity; destruct H.
Qed.

Lemma truthy_not_nullish v : truthy v = true -> nullish v = false.
Proof. destruct v; simpl; intros H; try discriminate; reflexivity. Qed.

Lemma object_not_nullish v : is_object v = true -> nullish v = false.
Proof. destruct v; simpl; intros H; try discriminate; reflexivity. Qed.

Lemma object_truthy v : is_object v = true -> truthy v = true.
Proof. destruct v; simpl; intros H; try discriminate; reflexivity. Qed.

Lemma lookup_In k ps v : lookup k ps = Some v -> In (k, v) ps.
Proof.
  induction ps as [|[k' v'] r IH]; simpl; [discriminate|].
  destruct (String.eqb k' k) eqn:E.
  - intros [= ->]. apply String.eqb_eq in E. subst. left. reflexivity.
  - intros H. right. apply IH. exact H.
Qed.

Lemma In_keys_lookup k ps :
  In k (map fst ps) -> exists v, lookup k ps = Some v /\ In (k, v) ps.
Proof.
  induction ps as [|[k' v'] r IH]; simpl; [intros []|].
  destruct (String.eqb k' k) eqn:E.
  - intros _. apply String.eqb_eq in E. subst. exists v'. split; auto.
  - intros [H|H]; [subst; rewrite String.eqb_refl in E; discriminate|].
    destruct (IH H) as (v & Hv & Hin). exists v. split; auto.
Qed.

Lemma lookup_keys k ps v : lookup k ps = Some v -> In k (map fst ps).
Proof.
  intros H. apply lookup_In in H. apply (in_map fst) in H. exact H.
Qed.

Lemma prop_object_keys ps k :
  truthy (prop (VObj ps) k) = true -> In k (keys (VObj ps)).
Proof.
  unfold prop; simpl. destruct (lookup k ps) eqn:E; simpl; [|discriminate].
  intros _. eapply lookup_keys. exact E.
Qed.

(** An entry listed in an object is what a read of its key finds, up to the
    first entry with that key. *)
Lemma prop_of_key (Q : value -> bool) ps k :
  forallb (fun kv => Q (snd kv)) ps = true ->
  In k (keys (VObj ps)) -> Q (prop (VObj ps) k) = true.
Proof.
  intros Hall Hin. destruct (In_keys_lookup k ps Hin) as (v & Hv & Hmem).
  unfold prop; simpl. rewrite Hv.
  rewrite forallb_forall in Hall. exact (Hall (k, v) Hmem).
Qed.

Lemma strict_eq_sym a b : strict_eq a b = strict_eq b a.
Proof.
  destruct a, b; simpl; try reflexivity.
  - destruct b, b0; reflexivity.
  - apply Z.eqb_sym.
  - apply String.eqb_sym.
  - apply String.eqb_sym.
Qed.

Lemma strict_eq_eq a b : strict_eq a b = true -> a = b.
Proof.
  destruct a, b; simpl; intros H; try discriminate; try reflexivity.
  - apply Bool.eqb_prop in H. subst. reflexivity.
  - apply Z.eqb_eq in H. subst. reflexivity.
  - apply String.eqb_eq in H. subst. reflexivity.
  - apply String.eqb_eq in H. subst. reflexivity.
Qed.

Lemma strict_eq_refl_string v : is_string v = true -> strict_eq v v = true.
Proof. destruct v; simpl; try discriminate. intros _. apply String.eqb_refl. Qed.

Lemma strict_eq_refl_flag v : is_flag v = true -> strict_eq v v = true.
Proof.
  destruct v; simpl; try discriminate; intros _; [reflexivity|].
  destruct b; reflexivity.
Qed.

(** Array and string indices are decimal numerals, so a field name that
    starts with a letter is never one of them. *)
Lemma string_of_nat_head i c r :
  JS.string_of_nat i = String c r -> JS.is_digit c = true.
Proof.
  unfold JS.string_of_nat. destruct (Nat.to_uint i); simpl;
    intros H; try discriminate; injection H as <- _; reflexivity.
Qed.

Lemma index_lookup_name c r i l :
  JS.is_digit c = false -> index_lookup (String c r) i l = VUndefined.
Proof.
  intros Hc. revert i. induction l as [|x l IH]; intros i; simpl; [reflexivity|].
  destruct (String.eqb (JS.string_of_nat i) (String c r)) eqn:E.
  - apply String.eqb_eq in E. apply string_of_nat_head in E. congruence.
  - apply IH.
Qed.

(* ===================================================================== *)
(** * The comparison on well-formed input *)
(* ===================================================================== *)

Lemma wf_parameter_object p : wf_parameter p = true -> is_object p = true.
Proof.
  unfold wf_parameter. intros H.
  repeat (apply andb_prop in H; destruct H as [H ?]). exact H.
Qed.

Lemma wf_parameter_name p :
  wf_parameter p = true -> is_string (prop p "name") = true.
Proof.
  unfold wf_parameter. intros H.
  repeat (apply andb_prop in H; destruct H as [H ?]). assumption.
Qed.

Lemma wf_parameter_in p :
  wf_parameter p = true -> is_string (prop p "in") = true.
Proof.
  unfold wf_parameter. intros H.
  repeat (apply andb_prop in H; destruct H as [H ?]). assumption.
Qed.

Lemma wf_parameter_required p :
  wf_parameter p = true -> is_flag (prop p "required") = true.
Proof.
  unfold wf_parameter. intros H.
  repeat (apply andb_prop in H; destruct H as [H ?]). assumption.
Qed.

Lemma object_field v k :
  is_object v = true -> existsb (String.eqb k) document_fields = true ->
  field_of_document v k = true.
Proof.
  intros Hv Hk. unfold field_of_document. rewrite Hk.
  destruct v; try discriminate. cbn. apply orb_true_r.
Qed.

(** A read of a field of an object. *)
Lemma get_object_field {R : Realm} (HR : RealmLaws R) v k :
  is_object v = true -> existsb (String.eqb k) document_fields = true ->
  get R v k = Normal (prop v k).
Proof.
  intros Hv Hk. apply (get_field HR).
  - apply object_not_nullish. exact Hv.
  - apply object_field; assumption.
Qed.

Lemma find_param_wf {R : Realm} (HR : RealmLaws R) ps q :
  forallb wf_parameter ps = true -> is_object q = true ->
  find_param R ps q =
  Normal (match found ps q with Some p => p | None => VUndefined end).
Proof.
  intros Hps Hq. induction ps as [|p r IH]; [reflexivity|].
  simpl in Hps. apply andb_prop in Hps. destruct Hps as [Hp Hr].
  pose proof (wf_parameter_object _ Hp) as Hn.
  cbn [find_param].
  rewrite !(get_object_field HR p), !(get_object_field HR q)
    by (assumption || reflexivity).
  cbn [bind]. unfold found. cbn [find]. unfold same_parameter.
  destruct (strict_eq (prop p "name") (prop q "name")); cbn [andb bind].
  - destruct (strict_eq (prop p "in") (prop q "in")); [reflexivity|].
    apply IH. exact Hr.
  - apply IH. exact Hr.
Qed.

Lemma found_In ps q p : found ps q = Some p -> In p ps.
Proof. unfold found. intros H. apply find_some in H. tauto. Qed.

Lemma found_same ps q p : found ps q = Some p -> same_parameter p q = true.
Proof. unfold found. intros H. apply find_some in H. tauto. Qed.

Lemma forallb_In {A} (f : A -> bool) l x :
  forallb f l = true -> In x l -> f x = true.
Proof. intros H Hin. rewrite forallb_forall in H. auto. Qed.

Lemma compareParameters_wf {R : Realm} (HR : RealmLaws R) olds news :
  forallb wf_parameter olds = true -> forallb wf_parameter news = true ->
  compareParameters R (VArr olds) (VArr news) =
  Normal (parameter_deltas olds news).
Proof.
  intros Ho Hn. unfold compareParameters. cbn [as_array bind].
  rewrite (forM_pure news _ (added_parameter olds)).
  - cbn [bind]. rewrite (forM_pure olds _ (dropped_parameter news)).
    + reflexivity.
    + intros p Hp. cbn [bind].
      pose proof (wf_parameter_object _ (forallb_In _ _ _ Ho Hp)) as Hnp.
      rewrite (find_param_wf HR) by assumption. cbn [bind].
      unfold dropped_parameter. destruct (found news p) as [q|] eqn:E.
      * pose proof (object_truthy _
          (wf_parameter_object _ (forallb_In _ _ _ Hn (found_In _ _ _ E)))) as Hq.
        rewrite Hq. reflexivity.
      * cbn [truthy negb].
        rewrite !(get_object_field HR p) by (assumption || reflexivity).
        reflexivity.
  - intros p Hp. cbn [bind].
    pose proof (wf_parameter_object _ (forallb_In _ _ _ Hn Hp)) as Hnp.
    rewrite (find_param_wf HR) by assumption. cbn [bind].
    unfold added_parameter. destruct (found olds p) as [q|] eqn:E.
    + pose proof (wf_parameter_object _
        (forallb_In _ _ _ Ho (found_In _ _ _ E))) as Hq.
      rewrite (object_truthy _ Hq). cbn [negb].
      rewrite (get_object_field HR q) by (assumption || reflexivity).
      rewrite !(get_object_field HR p) by (assumption || reflexivity).
      cbn [bind].
      destruct (strict_eq (prop q "required") (prop p "required"));
        reflexivity.
    + cbn [truthy negb].
      rewrite !(get_object_field HR p) by (assumption || reflexivity).
      reflexivity.
Qed.

Lemma compareResponses_settled {R : Realm} (HR : RealmLaws R) olds news :
  is_object olds = true -> is_object news = true ->
  (forall c, In c (keys news) -> own_or_absent olds c = true) ->
  (forall c, In c (keys olds) -> own_or_absent news c = true) ->
  compareResponses R olds news = Normal (response_deltas olds news).
Proof.
  intros Ho Hn Hon Hno. unfold compareResponses.
  rewrite (forM_pure (keys news) _ (added_code olds)).
  - cbn [bind]. rewrite (forM_pure (keys olds) _ (dropped_code news)).
    + reflexivity.
    + intros c Hc. rewrite (get_settled HR) by auto. cbn [bind].
      unfold dropped_code. destruct (truthy (prop news c)); reflexivity.
  - intros c Hc. rewrite (get_settled HR) by auto. cbn [bind].
    unfold added_code. destruct (truthy (prop olds c)); reflexivity.
Qed.

Lemma wf_entry_truthy e : wf_entry e = true -> truthy e = true.
Proof. unfold wf_entry. intros H. apply andb_prop in H. tauto. Qed.

Lemma prop_named_field_array l c r :
  JS.is_digit c = false -> String.eqb (String c r) "length" = false ->
  prop (VArr l) (String c r) = VUndefined.
Proof.
  intros Hc Hl. cbn [prop]. rewrite Hl.
  apply index_lookup_name. exact Hc.
Qed.

Lemma prop_named_field_string s c r :
  JS.is_digit c = false -> String.eqb (String c r) "length" = false ->
  prop (VStr s) (String c r) = VUndefined.
Proof.
  intros Hc Hl. cbn [prop]. rewrite Hl.
  apply index_lookup_name. exact Hc.
Qed.

Lemma wf_entry_parameters e :
  wf_entry e = true ->
  exists ps, parameters_of e = VArr ps /\
             forallb wf_parameter ps = true /\ distinct_parameters ps = true.
Proof.
  unfold wf_entry, parameters_of. intros H. apply andb_prop in H.
  destruct H as [Ht H]. destruct e; try discriminate.
  - exists []. repeat split.
  - exists []. repeat split.
  - exists []. rewrite prop_named_field_string by reflexivity. repeat split.
  - exists []. rewrite prop_named_field_array by reflexivity. repeat split.
  - apply andb_prop in H. destruct H as [H _].
    destruct (prop (VObj props) "parameters") as [| | | | |ps| |];
      try discriminate.
    + exists []. repeat split.
    + exists ps. cbn in H. apply andb_prop in H. destruct H. repeat split; assumption.
  - exists []. repeat split.
Qed.

Lemma wf_entry_responses e :
  wf_entry e = true ->
  exists rs, responses_of e = VObj rs /\
             forallb (fun kv => truthy (snd kv)) rs = true.
Proof.
  unfold wf_entry, responses_of. intros H. apply andb_prop in H.
  destruct H as [Ht H]. destruct e; try discriminate.
  - exists []. repeat split.
  - exists []. repeat split.
  - exists []. rewrite prop_named_field_string by reflexivity. repeat split.
  - exists []. rewrite prop_named_field_array by reflexivity. repeat split.
  - apply andb_prop in H. destruct H as [_ H].
    destruct (prop (VObj props) "responses") as [| | | | | |rs|];
      try discriminate.
    + exists []. repeat split.
    + exists rs. split; [reflexivity|exact H].
  - exists []. repeat split.
Qed.

Lemma wf_spec_not_nullish s : wf_spec s = true -> nullish s = false.
Proof.
  unfold wf_spec. intros H. apply andb_prop in H. destruct H as [H _].
  apply object_not_nullish. exact H.
Qed.

Lemma wf_spec_paths s :
  wf_spec s = true ->
  prop s "paths" = VUndefined \/
  exists items, prop s "paths" = VObj items /\
                forallb (fun kv => wf_path_item (snd kv)) items = true.
Proof.
  unfold wf_spec. intros H. apply andb_prop in H. destruct H as [_ H].
  destruct (prop s "paths") as [| | | | | |items|]; try discriminate.
  - left. reflexivity.
  - right. exists items. split; [reflexivity|exact H].
Qed.

Lemma wf_item_of_key s path :
  wf_spec s = true -> In path (keys (prop s "paths")) ->
  wf_path_item (item s path) = true.
Proof.
  intros Hs Hin. unfold item.
  destruct (wf_spec_paths s Hs) as [E|(items & E & Hall)]; rewrite E in *.
  - destruct Hin.
  - apply (prop_of_key wf_path_item); assumption.
Qed.

Lemma wf_item_of_truthy s path :
  wf_spec s = true -> truthy (item s path) = true ->
  In path (keys (prop s "paths")).
Proof.
  intros Hs Ht. unfold item in Ht.
  destruct (wf_spec_paths s Hs) as [E|(items & E & Hall)]; rewrite E in *.
  - discriminate.
  - apply prop_object_keys. exact Ht.
Qed.

Lemma wf_path_item_object i : wf_path_item i = true -> is_object i = true.
Proof. destruct i; simpl; intros H; try discriminate; reflexivity. Qed.

Lemma wf_entry_of_key i m :
  wf_path_item i = true -> In m (keys i) -> wf_entry (prop i m) = true.
Proof.
  intros Hi Hin. destruct i; try discriminate.
  apply (prop_of_key wf_entry); assumption.
Qed.

Lemma wf_entry_of_truthy i m :
  wf_path_item i = true -> truthy (prop i m) = true -> In m (keys i).
Proof.
  intros Hi Ht. destruct i; try discriminate.
  apply prop_object_keys. exact Ht.
Qed.

Lemma keys_or_empty v :
  v = VUndefined \/ is_object v = true ->
  keys (or_value v (VObj [])) = keys v.
Proof.
  intros [->|H]; [reflexivity|]. destruct v; try discriminate. reflexivity.
Qed.

Lemma wf_spec_paths_shape s :
  wf_spec s = true ->
  prop s "paths" = VUndefined \/ is_object (prop s "paths") = true.
Proof.
  intros H. destruct (wf_spec_paths s H) as [E|(items & E & _)];
    rewrite E; [left|right]; reflexivity.
Qed.

(** The read of [spec.paths]: [paths] is no member of a prototype. *)
Lemma get_paths {R : Realm} (HR : RealmLaws R) s :
  nullish s = false -> get R s "paths" = Normal (prop s "paths").
Proof. intros H. apply (get_field HR); [exact H|reflexivity]. Qed.

Lemma path_missing_wf {R : Realm} (HR : RealmLaws R) s path :
  wf_spec s = true -> own_or_absent (prop s "paths") path = true ->
  path_missing R s path = Normal (negb (truthy (item s path))).
Proof.
  intros Hs Hk. unfold path_missing, item.
  rewrite (get_paths HR) by (apply wf_spec_not_nullish; exact Hs). cbn [bind].
  destruct (wf_spec_paths_shape s Hs) as [E|E].
  - rewrite E. reflexivity.
  - rewrite (object_truthy _ E). cbn [negb].
    rewrite (get_settled HR) by assumption. reflexivity.
Qed.

Lemma path_item_total {R : Realm} (HR : RealmLaws R) s path :
  nullish s = false ->
  get R (prop s "paths") path = Normal (item s path) ->
  path_item R s path = Normal (item s path).
Proof.
  intros Hs Hp. unfold path_item.
  rewrite (get_paths HR) by assumption. cbn [bind]. exact Hp.
Qed.

Lemma operation_total {R : Realm} (HR : RealmLaws R) s path method :
  nullish s = false ->
  get R (prop s "paths") path = Normal (item s path) ->
  get R (item s path) method = Normal (entry s path method) ->
  operation R s path method = Normal (entry s path method).
Proof.
  intros Hs Hp Hi. unfold operation.
  rewrite (path_item_total HR) by assumption. cbn [bind]. exact Hi.
Qed.

Lemma field_or_total {R : Realm} (HR : RealmLaws R) s path method field dflt :
  nullish s = false ->
  get R (prop s "paths") path = Normal (item s path) ->
  get R (item s path) method = Normal (entry s path method) ->
  nullish (entry s path method) = false ->
  field_of_document (entry s path method) field = true ->
  field_or R s path method field dflt =
  Normal (or_value (prop (entry s path method) field) dflt).
Proof.
  intros Hs Hp Hi He Hf. unfold field_or.
  rewrite (operation_total HR) by assumption. cbn [bind].
  rewrite (get_field HR) by assumption. reflexivity.
Qed.

(** A truthy path item shows that the document and its [paths] can be
    read. *)
Lemma item_truthy_reads s path :
  truthy (item s path) = true ->
  nullish s = false /\ nullish (prop s "paths") = false /\
  nullish (item s path) = false.
Proof.
  intros H. repeat split.
  - destruct s; try reflexivity; discriminate H.
  - unfold item in H. destruct (prop s "paths"); try reflexivity; discriminate H.
  - apply truthy_not_nullish. exact H.
Qed.

Lemma wrap_parameters_eq path method ds :
  (if (0 <? List.length ds)%nat then [parameter_changes path method ds] else [])
  = wrap_parameters path method ds.
Proof. reflexivity. Qed.

(** On well-formed documents whose looked-up keys are own keys or name no
    inherited member, the comparison computes the forward changes followed
    by the backward changes. *)
Lemma diffSpecs_wf {R : Realm} (HR : RealmLaws R) a b :
  wf_spec a = true -> wf_spec b = true ->
  reads_settled a b -> reads_settled b a ->
  diffSpecs R a b = Normal (forward_changes a b ++ backward_changes a b).
Proof.
  intros Ha Hb Sab Sba.
  pose proof (wf_spec_not_nullish _ Ha) as Hna.
  pose proof (wf_spec_not_nullish _ Hb) as Hnb.
  unfold diffSpecs.
  rewrite (get_paths HR b) by assumption. cbn [bind].
  rewrite (keys_or_empty _ (wf_spec_paths_shape _ Hb)).
  rewrite (forM_pure _ _ (path_forward a b)).
  - cbn [bind]. rewrite (get_paths HR a) by assumption. cbn [bind].
    rewrite (keys_or_empty _ (wf_spec_paths_shape _ Ha)).
    rewrite (forM_pure _ _ (path_backward a b)); [reflexivity|].
    intros path Hpath. destruct (Sba path Hpath) as [Sp Sm].
    rewrite (path_missing_wf HR) by assumption. cbn [bind].
    unfold path_backward.
    destruct (truthy (item b path)) eqn:Hib; cbn [negb]; [|reflexivity].
    pose proof (wf_item_of_key _ _ Ha Hpath) as Hwia.
    pose proof (wf_item_of_key _ _ Hb (wf_item_of_truthy _ _ Hb Hib)) as Hwib.
    assert (Hga : get R (prop a "paths") path = Normal (item a path))
      by (apply get_key; exact Hpath).
    assert (Hgb : get R (prop b "paths") path = Normal (item b path))
      by (apply get_key, (wf_item_of_truthy _ _ Hb Hib)).
    rewrite (path_item_total HR) by assumption. cbn [bind].
    apply forM_pure. intros method Hm. destruct (Sm method Hm) as [Se _].
    rewrite (operation_total HR); try assumption.
    + cbn [bind]. unfold method_backward.
      destruct (truthy (entry b path method)); reflexivity.
    + apply (get_settled HR); [|exact Se].
      apply wf_path_item_object. exact Hwib.
  - intros path Hpath. destruct (Sab path Hpath) as [Sp Sm].
    rewrite (path_missing_wf HR) by assumption. cbn [bind].
    unfold path_forward.
    destruct (truthy (item a path)) eqn:Hia; cbn [negb]; [|reflexivity].
    pose proof (wf_item_of_truthy _ _ Ha Hia) as Hpath_a.
    pose proof (wf_item_of_key _ _ Hb Hpath) as Hwib.
    pose proof (wf_item_of_key _ _ Ha Hpath_a) as Hwia.
    assert (Hga : get R (prop a "paths") path = Normal (item a path))
      by (apply get_key; exact Hpath_a).
    assert (Hgb : get R (prop b "paths") path = Normal (item b path))
      by (apply get_key; exact Hpath).
    rewrite (path_item_total HR) by assumption. cbn [bind].
    apply forM_pure. intros method Hm. destruct (Sm method Hm) as [Se Sc].
    assert (Hea' : get R (item a path) method = Normal (entry a path method)).
    { apply (get_settled HR); [|exact Se].
      apply wf_path_item_object. exact Hwia. }
    assert (Heb' : get R (item b path) method = Normal (entry b path method))
      by (apply get_key; exact Hm).
    rewrite (operation_total HR) by assumption. cbn [bind].
    unfold method_changes.
    destruct (truthy (entry a path method)) eqn:Hea; cbn [negb]; [|reflexivity].
    pose proof (truthy_not_nullish _ Hea) as Hnea.
    pose proof (wf_entry_of_truthy _ _ Hwia Hea) as Hm_a.
    pose proof (wf_entry_of_key _ _ Hwia Hm_a) as Hwea.
    pose proof (wf_entry_of_key _ _ Hwib Hm) as Hweb.
    pose proof (truthy_not_nullish _ (wf_entry_truthy _ Hweb)) as Hneb.
    rewrite !(field_or_total HR) by (assumption || reflexivity). cbn [bind].
    destruct (Sba path Hpath_a) as [_ Sm'].
    destruct (Sm' method Hm_a) as [_ Sc'].
    destruct (wf_entry_parameters _ Hwea) as (pa & Epa & Hpa1 & _).
    destruct (wf_entry_parameters _ Hweb) as (pb & Epb & Hpb1 & _).
    destruct (wf_entry_responses _ Hwea) as (ra & Era & _).
    destruct (wf_entry_responses _ Hweb) as (rb & Erb & _).
    unfold entry, parameters_of, responses_of in *.
    rewrite Epa, Epb. rewrite Era in *. rewrite Erb in *.
    rewrite (compareParameters_wf HR) by assumption. cbn [bind].
    rewrite (compareResponses_settled HR) by (reflexivity || assumption).
    cbn [bind]. reflexivity.
Qed.

(** The keys of a document are own keys of that document. *)
Lemma reads_settled_same x : reads_settled x x.
Proof.
  intros path Hpath. split.
  - unfold own_or_absent. rewrite (In_keys_has_own _ _ Hpath). reflexivity.
  - intros method Hm. split.
    + unfold own_or_absent. rewrite (In_keys_has_own _ _ Hm). reflexivity.
    + intros code Hc. unfold own_or_absent.
      rewrite (In_keys_has_own _ _ Hc). reflexivity.
Qed.

Lemma plain_keys_absent v o k :
  plain_keys v = true -> In k (keys v) -> own_or_absent o k = true.
Proof.
  unfold plain_keys, own_or_absent. intros H Hk.
  rewrite forallb_forall in H. rewrite (H k Hk). apply orb_true_r.
Qed.


(* ===================================================================== *)
(** * Mirror images *)
(* ===================================================================== *)








Lemma same_parameter_sym p q : same_parameter p q = same_parameter q p.
Proof.
  unfold same_parameter.
  rewrite (strict_eq_sym (prop p "name")), (strict_eq_sym (prop p "in")).
  reflexivity.
Qed.

Lemma same_parameter_fields p q :
  same_parameter p q = true ->
  prop p "name" = prop q "name" /\ prop p "in" = prop q "in".
Proof.
  unfold same_parameter. intros H. apply andb_prop in H. destruct H as [H1 H2].
  split; apply strict_eq_eq; assumption.
Qed.

Lemma same_parameter_trans p q r :
  wf_parameter r = true ->
  same_parameter p q = true -> same_parameter q r = true ->
  same_parameter p r = true.
Proof.
  intros Hr Hpq Hqr.
  destruct (same_parameter_fields _ _ Hpq) as [E1 E2].
  destruct (same_parameter_fields _ _ Hqr) as [E3 E4].
  unfold same_parameter. rewrite E1, E2, E3, E4.
  rewrite (strict_eq_refl_string _ (wf_parameter_name _ Hr)).
  rewrite (strict_eq_refl_string _ (wf_parameter_in _ Hr)).
  reflexivity.
Qed.

Lemma same_parameter_refl p : wf_parameter p = true -> same_parameter p p = true.
Proof.
  intros Hp. unfold same_parameter.
  rewrite (strict_eq_refl_string _ (wf_parameter_name _ Hp)).
  rewrite (strict_eq_refl_string _ (wf_parameter_in _ Hp)).
  reflexivity.
Qed.

Lemma distinct_parameters_unique ps p q :
  distinct_parameters ps = true -> In p ps -> In q ps ->
  same_parameter p q = true -> p = q.
Proof.
  induction ps as [|x r IH]; [intros _ []|].
  cbn [distinct_parameters]. intros H Hp Hq Hs.
  apply andb_prop in H. destruct H as [Hx Hr].
  apply negb_true_iff in Hx.
  assert (Hnone : forall y, In y r -> same_parameter y x = false).
  { intros y Hy. destruct (same_parameter y x) eqn:E; [|reflexivity].
    rewrite <- Hx. symmetry. apply existsb_exists. exists y. auto. }
  destruct Hp as [<-|Hp], Hq as [<-|Hq].
  - reflexivity.
  - rewrite same_parameter_sym, (Hnone q Hq) in Hs. discriminate.
  - rewrite (Hnone p Hp) in Hs. discriminate.
  - apply IH; assumption.
Qed.

Lemma found_first ps q p :
  In p ps -> same_parameter p q = true -> exists p', found ps q = Some p'.
Proof.
  intros Hin Hs. unfold found.
  destruct (find (fun p0 => same_parameter p0 q) ps) as [p'|] eqn:E.
  - exists p'. reflexivity.
  - pose proof (find_none _ _ E p Hin) as Hn. cbv beta in Hn. congruence.
Qed.

(** With no two parameters of the same name and location, the parameter of
    a list that matches [q] is the one [find] returns. *)
Lemma found_unique ps q p :
  forallb wf_parameter ps = true -> distinct_parameters ps = true ->
  In p ps -> same_parameter p q = true -> found ps q = Some p.
Proof.
  intros Hwf Hd Hin Hs.
  destruct (found_first ps q p Hin Hs) as (p' & E). rewrite E. f_equal.
  apply (distinct_parameters_unique ps); try assumption.
  - eapply found_In. exact E.
  - apply (same_parameter_trans p' q p).
    + eapply forallb_In; eassumption.
    + eapply found_same. exact E.
    + rewrite same_parameter_sym. exact Hs.
Qed.




Lemma wf_item_truthy s path :
  wf_spec s = true -> In path (keys (prop s "paths")) ->
  truthy (item s path) = true.
Proof.
  intros Hs Hin. apply object_truthy, wf_path_item_object.
  apply wf_item_of_key; assumption.
Qed.




Lemma parameter_deltas_same ps :
  forallb wf_parameter ps = true -> distinct_parameters ps = true ->
  parameter_deltas ps ps = [].
Proof.
  intros Hwf Hd. unfold parameter_deltas.
  assert (Hself : forall p, In p ps -> found ps p = Some p).
  { intros p Hp. apply found_unique; try assumption.
    apply same_parameter_refl. eapply forallb_In; eassumption. }
  rewrite !flat_map_nil; [reflexivity| |].
  - intros p Hp. unfold dropped_parameter. rewrite (Hself p Hp). reflexivity.
  - intros p Hp. unfold added_parameter. rewrite (Hself p Hp).
    rewrite (strict_eq_refl_flag _
      (wf_parameter_required _ (forallb_In _ _ _ Hwf Hp))).
    reflexivity.
Qed.

Lemma response_deltas_same rs :
  forallb (fun kv => truthy (snd kv)) rs = true ->
  response_deltas (VObj rs) (VObj rs) = [].
Proof.
  intros H. unfold response_deltas.
  rewrite !flat_map_nil; [reflexivity| |]; intros c Hc;
    unfold dropped_code, added_code;
    rewrite (prop_of_key truthy rs c H Hc); reflexivity.
Qed.

Lemma diffSpecs_same {R : Realm} (HR : RealmLaws R) x :
  wf_spec x = true -> diffSpecs R x x = Normal [].
Proof.
  intros Hx.
  rewrite (diffSpecs_wf HR) by (assumption || apply reads_settled_same).
  f_equal.
  unfold forward_changes, backward_changes.
  rewrite !flat_map_nil; [reflexivity| |].
  - intros path Hpath. unfold path_backward.
    rewrite (wf_item_truthy _ _ Hx Hpath). cbn [negb].
    apply flat_map_nil. intros method Hm. unfold method_backward.
    pose proof (wf_entry_of_key _ _ (wf_item_of_key _ _ Hx Hpath) Hm) as He.
    fold (entry x path method) in He. rewrite (wf_entry_truthy _ He).
    reflexivity.
  - intros path Hpath. unfold path_forward.
    rewrite (wf_item_truthy _ _ Hx Hpath). cbn [negb].
    apply flat_map_nil. intros method Hm. unfold method_changes.
    pose proof (wf_entry_of_key _ _ (wf_item_of_key _ _ Hx Hpath) Hm) as He.
    fold (entry x path method) in He. rewrite (wf_entry_truthy _ He).
    cbn [negb].
    destruct (wf_entry_parameters _ He) as (ps & -> & H1 & H2).
    destruct (wf_entry_responses _ He) as (rs & -> & H3).
    cbn [elements]. rewrite parameter_deltas_same by assumption.
    rewrite response_deltas_same by assumption. reflexivity.
Qed.

(* ===================================================================== *)
(** * diffOpenAPISpecs *)
(* ===================================================================== *)

Lemma parseSpec_throws P s e :
  parseSpec P s = Throw e <->
  (exists e1 e2, JSON_parse P s = Throw e1 /\ yaml_load P s = Throw e2) /\
  e = SpecParseError.
Proof.
  unfold parseSpec, try_catch.
  destruct (JSON_parse P s) as [v|e1]; [split; [discriminate|]|].
  - intros [(e1 & e2 & H & _) _]. discriminate.
  - destruct (yaml_load P s) as [v|e2]; split.
    + discriminate.
    + intros [(e1' & e2' & _ & H) _]. discriminate.
    + intros [= <-]. split; [eauto|reflexivity].
    + intros [_ ->]. reflexivity.
Qed.

Lemma diffOpenAPISpecs_parsed {R : Realm} P oldStr newStr a b :
  parseSpec P oldStr = Normal a -> parseSpec P newStr = Normal b ->
  diffOpenAPISpecs R P oldStr newStr =
  try_catch (diffSpecs R a b) (fun _ => Normal []).
Proof.
  intros Ha Hb. unfold diffOpenAPISpecs. rewrite Ha, Hb. reflexivity.
Qed.

(** The sample realm obeys the laws. *)
Lemma inherited_name_cases k :
  inherited_name k = true -> In k Object_prototype.
Proof.
  unfold inherited_name. intros H. apply existsb_exists in H.
  destruct H as (x & Hx & E). apply String.eqb_eq in E. subst. exact Hx.
Qed.

Lemma node_realm_laws : RealmLaws node_realm.
Proof.
  split.
  - intros v k H. cbn. unfold node_inherited. rewrite H. reflexivity.
  - intros props k H. apply inherited_name_cases in H. cbn in H.
    repeat (destruct H as [<-|H]; [eexists; reflexivity|]). destruct H.
  - intros props k H. cbn. unfold node_inherited, object_member.
    destruct (field_of_document (VObj props) k); [reflexivity|].
    destruct (String.eqb k "constructor") eqn:E1.
    { apply String.eqb_eq in E1. subst. discriminate H. }
    destruct (String.eqb k "__proto__") eqn:E2.
    { apply String.eqb_eq in E2. subst. discriminate H. }
    rewrite H. reflexivity.
Qed.

(** C6.  [diffOpenAPISpecs] always returns a change list: when either input
    fails to parse under both encodings, or the comparison of the parsed
    documents throws, the list it returns is empty. *)
Theorem diff_never_throws (R : Realm) (P : SpecParsers)
  (oldStr newStr : string) :
  (exists d, diffOpenAPISpecs R P oldStr newStr = Normal d) /\
  ((exists e1 e2, JSON_parse P oldStr = Throw e1 /\ yaml_load P oldStr = Throw e2) \/
   (exists e1 e2, JSON_parse P newStr = Throw e1 /\ yaml_load P newStr = Throw e2) \/
   (exists a b e, parseSpec P oldStr = Normal a /\ parseSpec P newStr = Normal b /\
                  diffSpecs R a b = Throw e) ->
   diffOpenAPISpecs R P oldStr newStr = Normal []).
Proof.
  split.
  - unfold diffOpenAPISpecs, try_catch.
    destruct (parseSpec P oldStr) as [a|e1]; cbn [bind]; [|eauto].
    destruct (parseSpec P newStr) as [b|e2]; cbn [bind]; [|eauto].
    destruct (diffSpecs R a b); eauto.
  - intros [H|[H|(a & b & e & Ha & Hb & H)]].
    + assert (E : parseSpec P oldStr = Throw SpecParseError)
        by (apply parseSpec_throws; auto).
      unfold diffOpenAPISpecs. rewrite E. reflexivity.
    + assert (E : parseSpec P newStr = Throw SpecParseError)
        by (apply parseSpec_throws; auto).
      unfold diffOpenAPISpecs. rewrite E.
      destruct (parseSpec P oldStr); reflexivity.
    + rewrite (diffOpenAPISpecs_parsed _ _ _ _ _ Ha Hb), H. reflexivity.
Qed.

Lemma diff_never_throws_witness :
  diffOpenAPISpecs node_realm sample_parsers doc_broken doc_get = Normal [] /\
  diffOpenAPISpecs node_realm sample_parsers doc_null doc_get = Normal [].
Proof.
  split.
  - apply (proj2 (diff_never_throws node_realm sample_parsers
                    doc_broken doc_get)).
    left. exists SyntaxError, YAMLException. split; reflexivity.
  - apply (proj2 (diff_never_throws node_realm sample_parsers
                    doc_null doc_get)).
    right. right.
    exists VNull, (users_spec [("get", VObj [])]), TypeError.
    repeat split; reflexivity.
Defined.

(** C5 as stated fails: a document with a path-level [description] that is
    the empty string parses, and its diff with itself reports that key as
    both a new and a removed method. *)
Lemma self_diff_not_empty :
  (exists x, parseSpec sample_parsers doc_empty_description = Normal x) /\
  diffOpenAPISpecs node_realm sample_parsers
    doc_empty_description doc_empty_description
  = Normal [new_method "/v1/users" "description";
            removed_method "/v1/users" "description"] /\
  diffOpenAPISpecs node_realm sample_parsers
    doc_empty_description doc_empty_description
  <> Normal [].
Proof.
  split; [eexists; reflexivity|]. split; [reflexivity|].
  vm_compute. discriminate.
Qed.

(** C5, amended.  For every document that parses into a well-formed spec,
    the diff of the document with itself is the empty change list. *)
Theorem self_diff_empty (R : Realm) (P : SpecParsers) (specStr : string)
  (x : value) :
  RealmLaws R ->
  parseSpec P specStr = Normal x -> wf_spec x = true ->
  diffOpenAPISpecs R P specStr specStr = Normal [].
Proof.
  intros HR Hp Hx. rewrite (diffOpenAPISpecs_parsed _ _ _ _ _ Hp Hp).
  rewrite (diffSpecs_same HR) by assumption. reflexivity.
Qed.

Lemma self_diff_empty_witness :
  diffOpenAPISpecs node_realm sample_parsers doc_required doc_required
  = Normal [].
Proof.
  apply (self_diff_empty node_realm sample_parsers doc_required
           (users_spec (get_with [parameter "expand" "query" (Some true)]))
           node_realm_laws);
    reflexivity.
Defined.




(** The symmetry needs the restriction on the keys: a key of a path item
    that names a member of [Object.prototype] is found in the other
    document although it is not there, and the two directions then
    disagree. *)
Example inherited_key_breaks_symmetry :
  wf_spec (users_spec [("get", VObj [])]) = true /\
  wf_spec (users_spec
             [("get", VObj []);
              ("constructor",
                 VObj [("parameters", VArr [parameter "id" "query" None])])])
  = true /\
  diffOpenAPISpecs node_realm sample_parsers doc_get doc_constructor_parameters
  = Normal [parameter_changes "/v1/users" "constructor"
              [new_parameter (VStr "id") (VStr "query")]] /\
  diffOpenAPISpecs node_realm sample_parsers doc_constructor_parameters doc_get
  = Normal [].
Proof. repeat split. Qed.

(** C3: the code departs from the specification.  A parameter whose
    [required] flag is absent in the old document and [false] in the new one
    yields a requirement change from [false] to [false], where the
    specification has no delta. *)
Theorem absent_required_reported_as_change :
  diffOpenAPISpecs node_realm sample_parsers doc_absent doc_false
  = Normal [parameter_changes "/v1/users" "get"
              [parameter_requirement_changed (VStr "expand") (VStr "query")
                 (VBool false) (VBool false)]]
  /\ or_value VUndefined (VBool false) = or_value (VBool false) (VBool false).
Proof. split; reflexivity. Qed.

Lemma keys_truthy v k : In k (keys v) -> truthy v = true.
Proof.
  destruct v; simpl; intros H; try (destruct H; fail); try reflexivity.
  destruct s; [destruct H|reflexivity].
Qed.

Lemma or_value_truthy v d : truthy v = true -> or_value v d = v.
Proof. unfold or_value. intros ->. reflexivity. Qed.

Lemma keys_not_nullish v k : In k (keys v) -> nullish v = false.
Proof. intros H. apply truthy_not_nullish. eapply keys_truthy. exact H. Qed.

(** A document with a key in its [paths] holds [paths] itself. *)
Lemma get_paths_keys {R : Realm} s path :
  In path (keys (prop s "paths")) ->
  get R s "paths" = Normal (prop s "paths").
Proof.
  intros Hk. apply get_own.
  - destruct s; try reflexivity; destruct Hk.
  - destruct (has_own s "paths") eqn:E; [reflexivity|].
    rewrite (has_own_prop _ _ E) in Hk. destruct Hk.
Qed.

Lemma path_missing_present {R : Realm} s path :
  In path (keys (prop s "paths")) -> truthy (item s path) = true ->
  path_missing R s path = Normal false.
Proof.
  intros Hk Ht.
  unfold path_missing. rewrite (get_paths_keys s path Hk). cbn [bind].
  rewrite (keys_truthy _ _ Hk). cbn [negb].
  rewrite (get_key _ _ Hk). cbn [bind]. fold (item s path).
  rewrite Ht. reflexivity.
Qed.

Lemma path_item_present {R : Realm} s path :
  In path (keys (prop s "paths")) ->
  path_item R s path = Normal (item s path).
Proof.
  intros Hk. unfold path_item. rewrite (get_paths_keys s path Hk).
  cbn [bind]. apply get_key. exact Hk.
Qed.

Lemma bind_Normal {A B} (c : Completion A) (k : A -> Completion B) r :
  bind c k = Normal r -> exists a, c = Normal a /\ k a = Normal r.
Proof. destruct c; simpl; [eauto|discriminate]. Qed.

(** C10 as stated fails: a key of the new path item that names a member of
    [Object.prototype] is absent from the old path item and yet found
    there by the read, so that no record is emitted for it. *)
Lemma inherited_key_not_reported :
  parseSpec sample_parsers doc_get = Normal (users_spec [("get", VObj [])]) /\
  parseSpec sample_parsers doc_constructor
  = Normal (users_spec [("get", VObj []); ("constructor", VObj [])]) /\
  In "constructor"
     (keys (item (users_spec [("get", VObj []); ("constructor", VObj [])])
              "/v1/users")) /\
  has_own (item (users_spec [("get", VObj [])]) "/v1/users") "constructor"
  = false /\
  diffOpenAPISpecs node_realm sample_parsers doc_get doc_constructor
  = Normal [] /\
  ~ In (new_method "/v1/users" "constructor") [].
Proof.
  repeat split; try reflexivity.
  - right. left. reflexivity.
  - intros [].
Qed.

(** C10, amended.  When the comparison completes and a path is present in
    both documents with an object as its path item, every key of the new
    path item that the old path item lacks, or holds with a falsy value,
    and that names no member of [Object.prototype], is reported as a new
    method, and every such key of the old path item as a removed method,
    whatever the key is. *)
Theorem path_keys_reported_as_methods (R : Realm) (P : SpecParsers)
  (oldStr newStr : string) (oldSpec newSpec : value) (path key : string) :
  RealmLaws R ->
  parseSpec P oldStr = Normal oldSpec ->
  parseSpec P newStr = Normal newSpec ->
  (exists d, diffSpecs R oldSpec newSpec = Normal d) ->
  In path (keys (prop oldSpec "paths")) ->
  In path (keys (prop newSpec "paths")) ->
  is_object (item oldSpec path) = true ->
  is_object (item newSpec path) = true ->
  inherited_name key = false ->
  exists d,
    diffOpenAPISpecs R P oldStr newStr = Normal d /\
    (In key (keys (item newSpec path)) ->
     truthy (prop (item oldSpec path) key) = false ->
     In (new_method path key) d) /\
    (In key (keys (item oldSpec path)) ->
     truthy (prop (item newSpec path) key) = false ->
     In (removed_method path key) d).
Proof.
  intros HR Hpo Hpn (d & Hd) Hko Hkn Hoo Hon Hkey.
  exists d. split.
  { rewrite (diffOpenAPISpecs_parsed _ _ _ _ _ Hpo Hpn), Hd. reflexivity. }
  pose proof (object_truthy _ Hoo) as Hto.
  pose proof (object_truthy _ Hon) as Htn.
  assert (Hread : forall o, is_object o = true ->
            get R o key = Normal (prop o key)).
  { intros o Ho. apply (get_settled HR); [exact Ho|].
    unfold own_or_absent. rewrite Hkey. apply orb_true_r. }
  unfold diffSpecs in Hd.
  rewrite (get_paths_keys newSpec path Hkn) in Hd. cbn [bind] in Hd.
  rewrite (or_value_truthy _ _ (keys_truthy _ _ Hkn)) in Hd.
  apply bind_Normal in Hd. destruct Hd as (fw & Hfw & Hd).
  rewrite (get_paths_keys oldSpec path Hko) in Hd. cbn [bind] in Hd.
  rewrite (or_value_truthy _ _ (keys_truthy _ _ Hko)) in Hd.
  apply bind_Normal in Hd. destruct Hd as (bw & Hbw & Hd).
  injection Hd as <-. split.
  - intros Hin Habsent. apply in_or_app. left.
    destruct (forM_step _ _ _ _ Hfw Hkn) as (c & Hc & Hincl).
    apply Hincl. cbv beta in Hc.
    rewrite path_missing_present in Hc by assumption. cbn [bind] in Hc.
    rewrite path_item_present in Hc by assumption. cbn [bind] in Hc.
    destruct (forM_step _ _ _ _ Hc Hin) as (c' & Hc' & Hincl').
    apply Hincl'. cbv beta in Hc'. unfold operation in Hc'.
    rewrite path_item_present in Hc' by assumption. cbn [bind] in Hc'.
    rewrite (Hread _ Hoo) in Hc'. cbn [bind] in Hc'.
    rewrite Habsent in Hc'. cbn [negb] in Hc'.
    injection Hc' as <-. left. reflexivity.
  - intros Hin Habsent. apply in_or_app. right.
    destruct (forM_step _ _ _ _ Hbw Hko) as (c & Hc & Hincl).
    apply Hincl. cbv beta in Hc.
    rewrite path_missing_present in Hc by assumption. cbn [bind] in Hc.
    rewrite path_item_present in Hc by assumption. cbn [bind] in Hc.
    destruct (forM_step _ _ _ _ Hc Hin) as (c' & Hc' & Hincl').
    apply Hincl'. cbv beta in Hc'. unfold operation in Hc'.
    rewrite path_item_present in Hc' by assumption. cbn [bind] in Hc'.
    rewrite (Hread _ Hon) in Hc'. cbn [bind] in Hc'.
    rewrite Habsent in Hc'. cbn [negb] in Hc'.
    injection Hc' as <-. left. reflexivity.
Qed.

Lemma path_keys_reported_as_methods_witness :
  (exists d,
     diffOpenAPISpecs node_realm sample_parsers doc_get doc_path_fields
     = Normal d /\
     In (new_method "/v1/users" "summary") d) /\
  (exists d,
     diffOpenAPISpecs node_realm sample_parsers doc_path_fields doc_get
     = Normal d /\
     In (removed_method "/v1/users" "parameters") d).
Proof.
  split.
  - destruct (path_keys_reported_as_methods node_realm sample_parsers
                doc_get doc_path_fields
                (users_spec [("get", VObj [])])
                (users_spec [("get", VObj []); ("summary", VStr "List users");
                   ("parameters", VArr [parameter "expand" "query" None])])
                "/v1/users" "summary" node_realm_laws)
      as (d & Hd & Hnew & _);
      try reflexivity.
    + eexists. reflexivity.
    + left. reflexivity.
    + left. reflexivity.
    + exists d. split; [exact Hd|]. apply Hnew; [|reflexivity].
      right. left. reflexivity.
  - destruct (path_keys_reported_as_methods node_realm sample_parsers
                doc_path_fields doc_get
                (users_spec [("get", VObj []); ("summary", VStr "List users");
                   ("parameters", VArr [parameter "expand" "query" None])])
                (users_spec [("get", VObj [])])
                "/v1/users" "parameters" node_realm_laws)
      as (d & Hd & _ & Hremoved);
      try reflexivity.
    + eexists. reflexivity.
    + left. reflexivity.
    + left. reflexivity.
    + exists d. split; [exact Hd|]. apply Hremoved; [|reflexivity].
      right. right. left. reflexivity.
Defined.

(* ===================================================================== *)
(** * extractApiEndpoints *)
(* ===================================================================== *)

(** C7.  Every identifier returned by the extractor is longer than three
    characters, differs from [/api], [/v1] and [/v2], and is not a slash
    followed by a single lower-case letter. *)
Theorem extracted_endpoints_filtered (changes : list Change) (e : string) :
  In e (extractApiEndpoints changes) ->
  (3 < String.length e)%nat /\
  e <> "/api" /\ e <> "/v1" /\ e <> "/v2" /\
  Regex.single_letter_path e = false.
Proof.
  unfold extractApiEndpoints. intros H. apply filter_In in H.
  destruct H as [_ H]. unfold keep_endpoint in H.
  repeat (apply andb_prop in H; destruct H as [H ?]).
  repeat match goal with
         | X : negb _ = true |- _ => apply negb_true_iff in X
         end.
  apply Nat.ltb_lt in H.
  repeat split; try assumption; intros ->; discriminate.
Qed.

Lemma extracted_endpoints_filtered_witness :
  (3 < String.length "/users")%nat /\
  "/users" <> "/api" /\ "/users" <> "/v1" /\ "/users" <> "/v2" /\
  Regex.single_letter_path "/users" = false.
Proof.
  apply (extracted_endpoints_filtered
           [new_endpoint "/v1"; new_endpoint "/users"; new_endpoint "/a"]).
  vm_compute. left. reflexivity.
Defined.

(* ===================================================================== *)
(** * findRelevantTestFiles *)
(* ===================================================================== *)

Lemma slice_prefix {A} (l : list A) (k : Z) :
  (0 <= k)%Z -> JS.slice l 0 k = firstn (Z.to_nat k) l.
Proof.
  intros Hk. unfold JS.slice, JS.slice_bound.
  destruct (k <? 0)%Z eqn:E; [apply Z.ltb_lt in E; lia|].
  cbn [Z.ltb Z.compare Z.to_nat Nat.min skipn]. rewrite Nat.sub_0_r.
  destruct (Nat.le_ge_cases (Z.to_nat k) (List.length l)) as [H|H].
  - rewrite Nat.min_l by exact H. reflexivity.
  - rewrite Nat.min_r by exact H.
    rewrite !firstn_all2 by lia. reflexivity.
Qed.

Lemma slice_prefix_length {A} (l : list A) (k : Z) :
  (0 <= k)%Z -> (Z.of_nat (List.length (JS.slice l 0 k)) <= k)%Z.
Proof.
  intros Hk. rewrite slice_prefix by exact Hk.
  pose proof (firstn_le_length (Z.to_nat k) l). lia.
Qed.

Lemma maxFiles_budget n : (1 <= n)%nat -> maxFiles n = ranking_budget n.
Proof.
  intros Hn. unfold maxFiles, ranking_budget, clamp.
  replace (Z.max (Z.of_nat n) 1) with (Z.of_nat n) by lia. lia.
Qed.

Lemma ranking_budget_bounds n : (2 <= ranking_budget n <= 5)%Z.
Proof. unfold ranking_budget, clamp. lia. Qed.

Lemma ranking_budget_small_corpus n :
  (1 <= n <= 5000)%nat -> (3 <= ranking_budget n)%Z.
Proof.
  intros Hn. unfold ranking_budget, clamp.
  assert (3 <= 15000 / Z.of_nat n)%Z by (apply Z.div_le_lower_bound; lia).
  lia.
Qed.

(** C1 as stated fails: with no identifier and a corpus of 5001 documents
    the budget is 2 and three documents are returned. *)
Lemma ranking_exceeds_budget_without_identifiers :
  extractApiEndpoints [] = [] /\
  Z.of_nat (List.length large_corpus) = 5001%Z /\
  ranking_budget (List.length large_corpus) = 2%Z /\
  findRelevantTestFiles empty_disk large_corpus []
  = ["tests/t0.test.js"; "tests/t1.test.js"; "tests/t2.test.js"] /\
  ~ (Z.of_nat (List.length (findRelevantTestFiles empty_disk large_corpus []))
     <= ranking_budget (List.length large_corpus))%Z.
Proof.
  repeat split; try (vm_compute; reflexivity).
  vm_compute. intros H. apply H. reflexivity.
Qed.

(** C1, amended.  For a corpus of at least one document, the ranked result
    is no longer than the budget whenever the identifier set is not empty
    or the corpus has at most 5000 documents; with an empty identifier set
    the result has [min 3 N] documents. *)
Theorem ranking_within_budget (fs : FileSystem) (allTestFiles : list string)
  (changedEndpoints : list string) :
  (1 <= List.length allTestFiles)%nat ->
  (changedEndpoints <> [] \/ (List.length allTestFiles <= 5000)%nat ->
   (Z.of_nat (List.length (rankTestFiles fs allTestFiles changedEndpoints))
    <= ranking_budget (List.length allTestFiles))%Z) /\
  (changedEndpoints = [] ->
   List.length (rankTestFiles fs allTestFiles changedEndpoints)
   = Nat.min 3 (List.length allTestFiles)).
Proof.
  intros HN. split.
  - intros Hcase. unfold rankTestFiles.
    destruct changedEndpoints as [|e es]; cbn [List.length Nat.eqb].
    + destruct Hcase as [Hne|Hsmall]; [congruence|].
      pose proof (ranking_budget_small_corpus (List.length allTestFiles)
                    (conj HN Hsmall)).
      pose proof (slice_prefix_length allTestFiles
                    (Z.min 3 (Z.of_nat (List.length allTestFiles)))).
      lia.
    + pose proof (ranking_budget_bounds (List.length allTestFiles)).
      match goal with
      | |- context [if ?c then _ else _] => destruct c
      end.
      * unfold JS.or_array, JS.truthy_array.
        match goal with
        | |- context [JS.slice ?l 0 ?k] =>
            pose proof (slice_prefix_length l k)
        end.
        lia.
      * rewrite <- maxFiles_budget by exact HN.
        apply slice_prefix_length. unfold maxFiles. lia.
  - intros ->. unfold rankTestFiles. cbn [List.length Nat.eqb].
    rewrite slice_prefix by lia. rewrite length_firstn. lia.
Qed.

Lemma ranking_within_budget_witness :
  (Z.of_nat (List.length
     (rankTestFiles (files_on_disk users_tests) (map fst users_tests)
        ["/v1/users"]))
   <= ranking_budget 3)%Z /\
  List.length (rankTestFiles (files_on_disk users_tests) (map fst users_tests) [])
  = 3%nat.
Proof.
  split.
  - apply (proj1 (ranking_within_budget (files_on_disk users_tests)
                    (map fst users_tests) ["/v1/users"]
                    ltac:(vm_compute; lia))).
    left. discriminate.
  - apply (proj2 (ranking_within_budget (files_on_disk users_tests)
                    (map fst users_tests) []
                    ltac:(vm_compute; lia))).
    reflexivity.
Defined.

(** What the fallback does return when no file matched: the first two
    files whose name carries a generic marker. *)
Lemma marker_fallback (fs : FileSystem) (allTestFiles : list string)
  (changedEndpoints : list string) :
  changedEndpoints <> [] ->
  relevantFiles (scan_files fs changedEndpoints allTestFiles) = [] ->
  rankTestFiles fs allTestFiles changedEndpoints
  = firstn 2 (filter is_api_test_file allTestFiles).
Proof.
  intros Hne Hnone. unfold rankTestFiles.
  destruct changedEndpoints as [|e es]; [congruence|].
  cbn [List.length Nat.eqb]. rewrite Hnone. cbn [JS.sort List.length Nat.eqb].
  unfold JS.or_array, JS.truthy_array. rewrite slice_prefix by lia.
  set (l := filter is_api_test_file allTestFiles).
  destruct (Nat.le_ge_cases 2 (List.length l)) as [H|H].
  - replace (Z.to_nat (Z.min 2 (Z.of_nat (List.length l)))) with 2%nat by lia.
    reflexivity.
  - replace (Z.to_nat (Z.min 2 (Z.of_nat (List.length l))))
      with (List.length l) by lia.
    rewrite !firstn_all2 by lia. reflexivity.
Qed.

(** C2: the code departs from the specification.  With one identifier,
    three readable documents that match nothing and no generic marker in
    any name, the result is empty, where the specification has the first
    two documents of the corpus. *)
Theorem fallback_without_markers_is_empty :
  extractApiEndpoints [new_endpoint "/pets/list"] = ["/pets/list"] /\
  forallb (fun f =>
    match readFileSync (files_on_disk plain_tests) f with
    | Normal content =>
        (List.length (file_matches ["/pets/list"] (JS.toLowerCase content))
         =? 0)%nat
    | Throw _ => false
    end) plain_corpus = true /\
  filter is_api_test_file plain_corpus = [] /\
  findRelevantTestFiles (files_on_disk plain_tests) plain_corpus
    [new_endpoint "/pets/list"] = [] /\
  JS.slice plain_corpus 0 2 = ["tests/login.test.js"; "tests/cart.test.js"].
Proof. repeat split; vm_compute; reflexivity. Qed.

(* ===================================================================== *)
(** * readTestFiles *)
(* ===================================================================== *)

Lemma sort_insert_perm {A} (cmp : A -> A -> Z) x l :
  Permutation (x :: l) (JS.sort_insert cmp x l).
Proof.
  induction l as [|y r IH]; cbn [JS.sort_insert].
  - apply Permutation_refl.
  - destruct (cmp x y <=? 0)%Z.
    + apply Permutation_refl.
    + eapply perm_trans; [apply perm_swap|]. apply perm_skip. exact IH.
Qed.

Lemma sort_perm {A} (cmp : A -> A -> Z) l : Permutation l (JS.sort cmp l).
Proof.
  induction l as [|x r IH]; cbn [JS.sort].
  - apply perm_nil.
  - eapply perm_trans; [apply perm_skip; exact IH|]. apply sort_insert_perm.
Qed.

Section SortedByKey.

Context {A : Type} (cmp : A -> A -> Z) (key : A -> Z).

Lemma sort_insert_sorted x l :
  (forall y, In y l -> (cmp x y <= 0 <-> key x <= key y)%Z) ->
  StronglySorted (fun a b => (key a <= key b)%Z) l ->
  StronglySorted (fun a b => (key a <= key b)%Z) (JS.sort_insert cmp x l).
Proof.
  induction l as [|y r IH]; intros Hcmp Hs; cbn [JS.sort_insert].
  - repeat constructor.
  - inversion Hs as [|? ? Hr Hy]; subst.
    destruct (cmp x y <=? 0)%Z eqn:E.
    + apply Z.leb_le in E. apply Hcmp in E; [|left; reflexivity].
      constructor; [exact Hs|]. constructor; [exact E|].
      rewrite Forall_forall in *. intros z Hz.
      specialize (Hy z Hz). cbv beta in *. lia.
    + apply Z.leb_gt in E.
      assert (Hyx : (key y < key x)%Z).
      { destruct (Z.le_gt_cases (key x) (key y)) as [H|H]; [|lia].
        apply Hcmp in H; [lia|left; reflexivity]. }
      constructor.
      * apply IH; [|exact Hr]. intros z Hz. apply Hcmp. right. exact Hz.
      * rewrite Forall_forall in *. intros z Hz.
        apply (Permutation_in _ (Permutation_sym (sort_insert_perm cmp x r)))
          in Hz.
        destruct Hz as [<-|Hz]; [cbv beta; lia|apply Hy; exact Hz].
Qed.

Lemma sort_sorted l :
  (forall x y, In x l -> In y l -> (cmp x y <= 0 <-> key x <= key y)%Z) ->
  StronglySorted (fun a b => (key a <= key b)%Z) (JS.sort cmp l).
Proof.
  induction l as [|x r IH]; intros Hcmp; cbn [JS.sort].
  - constructor.
  - apply sort_insert_sorted.
    + intros y Hy. apply Hcmp; [left; reflexivity|right].
      apply (Permutation_in _ (Permutation_sym (sort_perm cmp r))). exact Hy.
    + apply IH. intros a b Ha Hb. apply Hcmp; right; assumption.
Qed.

End SortedByKey.

Lemma compare_size_known fs a b :
  (exists n, statSync_size fs a = Normal n) ->
  (exists n, statSync_size fs b = Normal n) ->
  compare_size fs a b = (size_of fs a - size_of fs b)%Z.
Proof.
  intros (n & Ha) (m & Hb). unfold compare_size, size_of.
  rewrite Ha, Hb. reflexivity.
Qed.

Lemma budget_loop_prefix fs repo files st :
  exists k, (k <= List.length files)%nat /\
    budget_loop fs repo files st
    = fold_left (include_file fs repo) (firstn k files) st /\
    (forall j, (j < k)%nat ->
       (totalTokens (fold_left (include_file fs repo) (firstn j files) st)
        < maxTotalTokens)%Z) /\
    ((k < List.length files)%nat ->
     (maxTotalTokens <= totalTokens (budget_loop fs repo files st))%Z).
Proof.
  revert st. induction files as [|f rest IH]; intros st.
  - exists 0%nat. cbn. repeat split; try lia.
  - cbn [budget_loop].
    destruct (maxTotalTokens <=? totalTokens st)%Z eqn:E.
    + apply Z.leb_le in E. exists 0%nat. cbn. repeat split; try lia.
    + apply Z.leb_gt in E.
      destruct (IH (include_file fs repo st f)) as (k & Hk & Heq & Hlt & Hge).
      exists (S k). cbn [List.length firstn fold_left]. repeat split.
      * lia.
      * exact Heq.
      * intros [|j] Hj; cbn [firstn fold_left]; [exact E|].
        apply Hlt. lia.
      * intros H. apply Hge. lia.
Qed.

Lemma stable_sort_laws : ArraySortLaws stable_sort.
Proof.
  split.
  - intros cmp l. apply sort_perm.
  - intros cmp key l _. reflexivity.
Qed.

(** What the loop accumulates over the files it includes. *)
Lemma include_files_state fs repo files st :
  fileContents (fold_left (include_file fs repo) files st)
  = fileContents st ++ flat_map (block_of fs repo) files /\
  totalTokens (fold_left (include_file fs repo) files st)
  = (totalTokens st + accumulated fs files)%Z.
Proof.
  revert st. induction files as [|f rest IH]; intros st; cbn [fold_left].
  - unfold accumulated. cbn. rewrite app_nil_r. split; [reflexivity|lia].
  - destruct (IH (include_file fs repo st f)) as [-> ->].
    unfold accumulated, include_file, block_of, estimate_of.
    cbn [map fold_right flat_map].
    destruct (readFileSync fs f) as [content|e];
      cbn [fileContents totalTokens].
    + rewrite <- app_assoc. split; [reflexivity|lia].
    + split; [reflexivity|lia].
Qed.

Lemma estimateTokens_ceiling text :
  (7 * estimateTokens text < 2 * Z.of_nat (String.length text) + 7)%Z /\
  (2 * Z.of_nat (String.length text) <= 7 * estimateTokens text)%Z.
Proof.
  unfold estimateTokens.
  pose proof (Z.div_mod (2 * Z.of_nat (String.length text) + 6) 7 ltac:(lia)).
  pose proof (Z.mod_pos_bound (2 * Z.of_nat (String.length text) + 6) 7
                ltac:(lia)).
  lia.
Qed.

Lemma bundle_budget_state :
  (totalTokens
     (readTestFiles_state stable_sort bundle_disk ["tests/bundle.test.js"]
        "tests"),
   List.length
     (fileContents
        (readTestFiles_state stable_sort bundle_disk ["tests/bundle.test.js"]
           "tests")))
  = (8035%Z, 1%nat).
Proof. vm_compute. reflexivity. Qed.

(** C8 as stated fails: one test file made of a single line of 28100
    characters is included whole, and its estimate alone is above the
    total budget. *)
Lemma budget_exceeded_by_long_line :
  totalTokens
    (readTestFiles_state stable_sort bundle_disk ["tests/bundle.test.js"]
       "tests")
  = 8035%Z /\
  List.length
    (fileContents
       (readTestFiles_state stable_sort bundle_disk ["tests/bundle.test.js"]
          "tests"))
  = 1%nat /\
  ~ (totalTokens
       (readTestFiles_state stable_sort bundle_disk ["tests/bundle.test.js"]
          "tests")
     <= maxTotalTokens)%Z.
Proof.
  pose proof bundle_budget_state as E. apply pair_equal_spec in E.
  destruct E as [E1 E2]. split; [exact E1|]. split; [exact E2|].
  rewrite E1. unfold maxTotalTokens. lia.
Qed.

(** C8, amended.  When the size of every file can be read, the files are
    processed in ascending order of size.  The loop processes the first [k]
    files of that order: the blocks it returns are those of the readable
    files among them, in that order, and the estimate it accumulates is the
    sum, over the same files, of the ceiling of the length of their
    (truncated) text divided by 3.5.  Each of the [k] files is reached with
    an accumulated estimate below the total budget, and when files are left
    over the accumulated estimate has reached the budget. *)
Theorem budget_checked_before_each_file (S : ArraySort) (fs : FileSystem)
  (testFiles : list string) (testRepoPath : string) :
  ArraySortLaws S ->
  (forall f, In f testFiles -> exists n, statSync_size fs f = Normal n) ->
  Permutation testFiles (sortedBySize S fs testFiles) /\
  StronglySorted (fun a b => (size_of fs a <= size_of fs b)%Z)
    (sortedBySize S fs testFiles) /\
  (forall text,
     (2 * Z.of_nat (String.length text) <= 7 * estimateTokens text
      < 2 * Z.of_nat (String.length text) + 7)%Z) /\
  exists k,
    (k <= List.length testFiles)%nat /\
    fileContents (readTestFiles_state S fs testFiles testRepoPath)
    = flat_map (block_of fs testRepoPath)
        (firstn k (sortedBySize S fs testFiles)) /\
    totalTokens (readTestFiles_state S fs testFiles testRepoPath)
    = accumulated fs (firstn k (sortedBySize S fs testFiles)) /\
    (forall j, (j < k)%nat ->
       (accumulated fs (firstn j (sortedBySize S fs testFiles))
        < maxTotalTokens)%Z) /\
    ((k < List.length testFiles)%nat ->
     (maxTotalTokens
      <= accumulated fs (firstn k (sortedBySize S fs testFiles)))%Z).
Proof.
  intros HS Hstat.
  assert (Hsort : sortedBySize S fs testFiles
                  = JS.sort (compare_size fs) testFiles).
  { unfold sortedBySize. apply (array_sort_by_key S HS _ (size_of fs)).
    intros a b Ha Hb. apply compare_size_known; apply Hstat; assumption. }
  split; [apply (array_sort_permutation S HS)|]. split.
  { rewrite Hsort. apply (sort_sorted _ (size_of fs)).
    intros x y Hx Hy. rewrite compare_size_known by (apply Hstat; assumption).
    lia. }
  split.
  { intros text. pose proof (estimateTokens_ceiling text). lia. }
  unfold readTestFiles_state.
  destruct (budget_loop_prefix fs testRepoPath (sortedBySize S fs testFiles)
              {| fileContents := []; totalTokens := 0 |})
    as (k & Hk & Heq & Hlt & Hge).
  assert (Hlen : List.length (sortedBySize S fs testFiles)
                 = List.length testFiles).
  { symmetry. apply Permutation_length. apply (array_sort_permutation S HS). }
  rewrite Hlen in *. exists k.
  assert (Hstate : forall j,
            totalTokens
              (fold_left (include_file fs testRepoPath)
                 (firstn j (sortedBySize S fs testFiles))
                 {| fileContents := []; totalTokens := 0 |})
            = accumulated fs (firstn j (sortedBySize S fs testFiles))).
  { intros j. rewrite (proj2 (include_files_state _ _ _ _)). cbn. lia. }
  rewrite Heq in *. repeat split.
  - exact Hk.
  - rewrite (proj1 (include_files_state _ _ _ _)). reflexivity.
  - apply Hstate.
  - intros j Hj. rewrite <- Hstate. apply Hlt. exact Hj.
  - intros H. rewrite <- Hstate. apply Hge. exact H.
Qed.

Lemma budget_checked_before_each_file_witness :
  Permutation (map fst users_tests)
    (sortedBySize stable_sort (files_on_disk users_tests)
       (map fst users_tests)) /\
  StronglySorted
    (fun a b => (size_of (files_on_disk users_tests) a
                 <= size_of (files_on_disk users_tests) b)%Z)
    (sortedBySize stable_sort (files_on_disk users_tests)
       (map fst users_tests)) /\
  (forall text,
     (2 * Z.of_nat (String.length text) <= 7 * estimateTokens text
      < 2 * Z.of_nat (String.length text) + 7)%Z) /\
  exists k,
    (k <= List.length (map fst users_tests))%nat /\
    fileContents
      (readTestFiles_state stable_sort (files_on_disk users_tests)
         (map fst users_tests) "tests")
    = flat_map (block_of (files_on_disk users_tests) "tests")
        (firstn k (sortedBySize stable_sort (files_on_disk users_tests)
                     (map fst users_tests))) /\
    totalTokens
      (readTestFiles_state stable_sort (files_on_disk users_tests)
         (map fst users_tests) "tests")
    = accumulated (files_on_disk users_tests)
        (firstn k (sortedBySize stable_sort (files_on_disk users_tests)
                     (map fst users_tests))) /\
    (forall j, (j < k)%nat ->
       (accumulated (files_on_disk users_tests)
          (firstn j (sortedBySize stable_sort (files_on_disk users_tests)
                       (map fst users_tests)))
        < maxTotalTokens)%Z) /\
    ((k < List.length (map fst users_tests))%nat ->
     (maxTotalTokens
      <= accumulated (files_on_disk users_tests)
           (firstn k (sortedBySize stable_sort (files_on_disk users_tests)
                        (map fst users_tests))))%Z).
Proof.
  apply (budget_checked_before_each_file stable_sort
           (files_on_disk users_tests) (map fst users_tests) "tests"
           stable_sort_laws).
  intros f [<-|[<-|[<-|[]]]]; eexists; reflexivity.
Defined.

(** With a budget of lines that is not negative, the code lines kept are
    the first ones, as many as the budget allows. *)
Lemma selectedCode_within_budget content :
  (0 <= maxCodeLines content)%Z ->
  selectedCode content
  = firstn (Z.to_nat (maxCodeLines content)) (codeLines content).
Proof. intros H. unfold selectedCode. apply slice_prefix. exact H. Qed.

(** C9: the code departs from the specification.  A first declaration of
    1019 characters makes the budget of code lines [-1], and the slice then
    keeps every code line but the last, where the specification has
    none. *)
Theorem negative_line_budget_keeps_code :
  (maxTokensPerFile < Z.of_nat (String.length long_declaration_file))%Z /\
  importLines long_declaration_file = [long_declaration] /\
  maxCodeLines long_declaration_file = (-1)%Z /\
  codeLines long_declaration_file
  = ["describe('users', () => {"; "  it('lists users', () => {});"; "});"] /\
  selectedCode long_declaration_file
  = ["describe('users', () => {"; "  it('lists users', () => {});"] /\
  truncate long_declaration_file
  = (long_declaration ++ JS.newline ++ JS.newline
     ++ "describe('users', () => {" ++ JS.newline
     ++ "  it('lists users', () => {});" ++ JS.newline ++ JS.newline
     ++ truncation_marker)%string.
Proof. repeat split; vm_compute; reflexivity. Qed.

(* ===================================================================== *)
(** * The scenarios of the specification *)
(* ===================================================================== *)

(** Scenario 1: a POST added to an existing path is one new method. *)
Example scenario_new_method :
  diffOpenAPISpecs node_realm sample_parsers doc_get doc_get_post
  = Normal [new_method "/v1/users" "post"].
Proof. reflexivity. Qed.

(** Scenario 2: a [required] flag that is dropped is a requirement change
    from [true] to [false]. *)
Example scenario_requirement_dropped :
  diffOpenAPISpecs node_realm sample_parsers doc_required doc_absent
  = Normal [parameter_changes "/v1/users" "get"
              [parameter_requirement_changed (VStr "expand") (VStr "query")
                 (VBool true) (VBool false)]].
Proof. reflexivity. Qed.

(** Scenario 3: of three documents, the one that mentions the endpoint is
    the ranked result. *)
Example scenario_single_match :
  rankTestFiles (files_on_disk users_tests) (map fst users_tests) ["/v1/users"]
  = ["tests/users.test.js"].
Proof. vm_compute. reflexivity. Qed.

(** Scenario 4: an empty corpus gives an empty result. *)
Example scenario_empty_corpus :
  rankTestFiles empty_disk [] ["/v1/users"] = [] /\
  rankTestFiles empty_disk [] [] = [].
Proof. split; reflexivity. Qed.

(** Scenario 5: without identifiers, the first three of five documents are
    returned. *)
Example scenario_no_identifiers :
  rankTestFiles empty_disk ["a.js"; "b.js"; "c.js"; "d.js"; "e.js"] []
  = ["a.js"; "b.js"; "c.js"].
Proof. reflexivity. Qed.

(** A parameter listed twice makes the diff of a document with itself
    report a requirement change. *)
Example duplicate_parameter_self_diff :
  diffOpenAPISpecs node_realm sample_parsers doc_duplicate doc_duplicate
  = Normal [parameter_changes "/v1/users" "get"
              [parameter_requirement_changed (VStr "expand") (VStr "query")
                 (VBool true) (VBool false)]].
Proof. reflexivity. Qed.

Example extract_path_variants :
  extractApiEndpoints [new_endpoint "/api/v1/users/{userId}/orders"]
  = ["/api/v1/users/{userId}/orders"; "/api/v1/users"; "/api/v1"].
Proof. vm_compute. reflexivity. Qed.

Example basename_drops_directories :
  JS.basename "/repo/tests/api.test.js" = "api.test.js".
Proof. reflexivity. Qed.

Example slice_negative_end : JS.slice [1; 2; 3]%nat 0 (-1) = [1; 2]%nat.
Proof. reflexivity. Qed.


(* ===================================================================== *)
(** * More on diffOpenAPISpecs *)
(* ===================================================================== *)

Lemma forM_In {A B} (l : list A) (f : A -> Completion (list B)) r b :
  forM l f = Normal r -> In b r ->
  exists x c, In x l /\ f x = Normal c /\ In b c.
Proof.
  revert r. induction l as [|y l IH]; intros r H Hb.
  - injection H as <-. destruct Hb.
  - cbn [forM] in H. destruct (f y) as [c|e] eqn:Hy; cbn [bind] in H; [|discriminate].
    destruct (forM l f) as [cs|e] eqn:Hl; cbn [bind] in H; [|discriminate].
    injection H as <-. apply in_app_or in Hb. destruct Hb as [Hb|Hb].
    + exists y, c. repeat split; auto. left. reflexivity.
    + destruct (IH cs eq_refl Hb) as (x & c' & Hx & Hc' & Hin).
      exists x, c'. repeat split; auto. right. exact Hx.
Qed.

Lemma forM_total {A B} (l : list A) (f : A -> Completion (list B)) :
  (forall x, In x l -> exists c, f x = Normal c) ->
  exists r, forM l f = Normal r.
Proof.
  induction l as [|y l IH]; intros H; cbn [forM]; [eauto|].
  destruct (H y (or_introl eq_refl)) as (c & ->). cbn [bind].
  destruct IH as (r & ->); [intros x Hx; apply H; right; exact Hx|].
  cbn [bind]. eauto.
Qed.

Lemma get_Normal_read {R : Realm} v k x : get R v k = Normal x -> x = read R v k.
Proof. unfold read. intros ->. reflexivity. Qed.

Lemma get_Normal_nullish {R : Realm} v k x :
  get R v k = Normal x -> nullish v = false.
Proof. destruct v; simpl; intros H; try discriminate; reflexivity. Qed.

Lemma keys_or_object v : keys (or_value v (VObj [])) = keys v.
Proof.
  unfold or_value. destruct (truthy v) eqn:E; [reflexivity|].
  destruct v; try reflexivity; try discriminate.
  destruct s; [reflexivity|discriminate].
Qed.

Lemma path_missing_Normal {R : Realm} s path b :
  path_missing R s path = Normal b -> b = negb (present R s path).
Proof.
  unfold path_missing, present, reads. intros H. apply bind_Normal in H.
  destruct H as (ps & Hps & H). rewrite <- (get_Normal_read _ _ _ Hps).
  destruct (truthy ps) eqn:E; cbn [negb andb] in *.
  - apply bind_Normal in H. destruct H as (i & Hi & H).
    rewrite <- (get_Normal_read _ _ _ Hi). injection H as <-. reflexivity.
  - injection H as <-. reflexivity.
Qed.

Lemma path_item_Normal {R : Realm} s path i :
  path_item R s path = Normal i -> i = reads R s path.
Proof.
  unfold path_item, reads. intros H. apply bind_Normal in H.
  destruct H as (ps & Hps & H). rewrite <- (get_Normal_read _ _ _ Hps).
  apply get_Normal_read. exact H.
Qed.

Lemma operation_Normal {R : Realm} s path method v :
  operation R s path method = Normal v -> v = reads_in R s path method.
Proof.
  unfold operation, reads_in. intros H. apply bind_Normal in H.
  destruct H as (i & Hi & H). rewrite <- (path_item_Normal _ _ _ Hi).
  apply get_Normal_read. exact H.
Qed.

Lemma field_or_Normal {R : Realm} s path method field dflt v :
  field_or R s path method field dflt = Normal v ->
  v = or_value (read R (reads_in R s path method) field) dflt.
Proof.
  unfold field_or. intros H. apply bind_Normal in H.
  destruct H as (op & Hop & H). rewrite <- (operation_Normal _ _ _ _ Hop).
  apply bind_Normal in H. destruct H as (x & Hx & H).
  rewrite <- (get_Normal_read _ _ _ Hx). injection H as <-. reflexivity.
Qed.

(** The result of a completed comparison is the records of the forward
    pass followed by those of the backward pass, every one of them
    justified by the reads of the two documents. *)
Lemma diffSpecs_passes {R : Realm} oldSpec newSpec d :
  diffSpecs R oldSpec newSpec = Normal d ->
  exists forward backward,
    d = forward ++ backward /\
    (forall c, In c forward ->
       is_removal c = false /\ justified R oldSpec newSpec c) /\
    (forall c, In c backward ->
       is_removal c = true /\ justified R oldSpec newSpec c).
Proof.
  unfold diffSpecs. intros H.
  apply bind_Normal in H. destruct H as (np & Hnp & H).
  apply get_Normal_read in Hnp. subst np. rewrite keys_or_object in H.
  apply bind_Normal in H. destruct H as (fw & Hfw & H).
  apply bind_Normal in H. destruct H as (op & Hop & H).
  apply get_Normal_read in Hop. subst op. rewrite keys_or_object in H.
  apply bind_Normal in H. destruct H as (bw & Hbw & H).
  injection H as <-. exists fw, bw. split; [reflexivity|]. split.
  - intros c Hc.
    destruct (forM_In _ _ _ _ Hfw Hc) as (path & c0 & Hpath & Hbody & Hin).
    cbv beta in Hbody. apply bind_Normal in Hbody.
    destruct Hbody as (missing & Hmiss & Hbody).
    apply path_missing_Normal in Hmiss. subst missing.
    destruct (present R oldSpec path) eqn:Hio; cbn [negb] in Hbody.
    + apply bind_Normal in Hbody. destruct Hbody as (ni & Hni & Hbody).
      apply path_item_Normal in Hni. subst ni.
      destruct (forM_In _ _ _ _ Hbody Hin) as (method & c1 & Hm & Hb1 & Hin1).
      cbv beta in Hb1. apply bind_Normal in Hb1.
      destruct Hb1 as (oo & Hoo & Hb1).
      apply operation_Normal in Hoo. subst oo.
      destruct (truthy (reads_in R oldSpec path method)) eqn:Heo;
        cbn [negb] in Hb1.
      * apply bind_Normal in Hb1. destruct Hb1 as (ops & Hops & Hb1).
        apply field_or_Normal in Hops. subst ops.
        apply bind_Normal in Hb1. destruct Hb1 as (nps & Hnps & Hb1).
        apply field_or_Normal in Hnps. subst nps.
        apply bind_Normal in Hb1. destruct Hb1 as (pc & Hpc & Hb1).
        apply bind_Normal in Hb1. destruct Hb1 as (ors & Hors & Hb1).
        apply field_or_Normal in Hors. subst ors.
        apply bind_Normal in Hb1. destruct Hb1 as (nrs & Hnrs & Hb1).
        apply field_or_Normal in Hnrs. subst nrs.
        apply bind_Normal in Hb1. destruct Hb1 as (rc & Hrc & Hb1).
        injection Hb1 as <-. apply in_app_or in Hin1.
        destruct Hin1 as [Hin1|Hin1].
        -- destruct pc as [|d0 pc]; [destruct Hin1|].
           destruct Hin1 as [<-|[]]. split; [reflexivity|].
           cbn [justified]. repeat split; try assumption. discriminate.
        -- destruct rc as [|d0 rc]; [destruct Hin1|].
           destruct Hin1 as [<-|[]]. split; [reflexivity|].
           cbn [justified]. repeat split; try assumption. discriminate.
      * injection Hb1 as <-. destruct Hin1 as [<-|[]].
        split; [reflexivity|]. cbn [justified]. repeat split; assumption.
    + injection Hbody as <-. destruct Hin as [<-|[]].
      split; [reflexivity|]. cbn [justified]. split; assumption.
  - intros c Hc.
    destruct (forM_In _ _ _ _ Hbw Hc) as (path & c0 & Hpath & Hbody & Hin).
    cbv beta in Hbody. apply bind_Normal in Hbody.
    destruct Hbody as (missing & Hmiss & Hbody).
    apply path_missing_Normal in Hmiss. subst missing.
    destruct (present R newSpec path) eqn:Hin'; cbn [negb] in Hbody.
    + apply bind_Normal in Hbody. destruct Hbody as (oi & Hoi & Hbody).
      apply path_item_Normal in Hoi. subst oi.
      destruct (forM_In _ _ _ _ Hbody Hin) as (method & c1 & Hm & Hb1 & Hin1).
      cbv beta in Hb1. apply bind_Normal in Hb1.
      destruct Hb1 as (no & Hno & Hb1).
      apply operation_Normal in Hno. subst no.
      destruct (truthy (reads_in R newSpec path method)) eqn:Hen;
        cbn [negb] in Hb1.
      * injection Hb1 as <-. destruct Hin1.
      * injection Hb1 as <-. destruct Hin1 as [<-|[]].
        split; [reflexivity|]. cbn [justified]. repeat split; assumption.
    + injection Hbody as <-. destruct Hin as [<-|[]].
      split; [reflexivity|]. cbn [justified]. split; assumption.
Qed.

Lemma diffOpenAPISpecs_result {R : Realm} P oldStr newStr d :
  diffOpenAPISpecs R P oldStr newStr = Normal d ->
  d = [] \/
  exists oldSpec newSpec,
    parseSpec P oldStr = Normal oldSpec /\
    parseSpec P newStr = Normal newSpec /\
    diffSpecs R oldSpec newSpec = Normal d.
Proof.
  unfold diffOpenAPISpecs, try_catch.
  destruct (parseSpec P oldStr) as [a|e1]; cbn [bind];
    [|intros [= <-]; left; reflexivity].
  destruct (parseSpec P newStr) as [b|e2]; cbn [bind];
    [|intros [= <-]; left; reflexivity].
  destruct (diffSpecs R a b) as [d'|e3] eqn:E; intros [= <-].
  - right. exists a, b. auto.
  - left. reflexivity.
Qed.

(** X1.  Every record of a diff is justified by what the comparison reads
    in the two parsed documents, a read finding inherited members as well
    as own properties: the path of a record is a key of the [paths] of the
    new document (of the old one for a removal), a method it names is a key
    of that path item, and the read of the path or method in the other
    document is falsy, or truthy, as the record says. *)
Theorem diff_records_justified (R : Realm) (P : SpecParsers)
  (oldStr newStr : string) (oldSpec newSpec : value) (d : list Change)
  (c : Change) :
  parseSpec P oldStr = Normal oldSpec ->
  parseSpec P newStr = Normal newSpec ->
  diffOpenAPISpecs R P oldStr newStr = Normal d ->
  In c d ->
  justified R oldSpec newSpec c.
Proof.
  intros Ho Hn Hd Hc.
  destruct (diffOpenAPISpecs_result _ _ _ _ Hd) as [->|(a & b & Ha & Hb & H)];
    [destruct Hc|].
  rewrite Ho in Ha. rewrite Hn in Hb. injection Ha as <-. injection Hb as <-.
  destruct (diffSpecs_passes _ _ _ H) as (fw & bw & -> & Hfw & Hbw).
  apply in_app_or in Hc. destruct Hc as [Hc|Hc].
  - apply Hfw. exact Hc.
  - apply Hbw. exact Hc.
Qed.

Lemma diff_records_justified_witness :
  justified node_realm (users_spec [("get", VObj [])])
    (users_spec [("get", VObj []);
                 ("constructor",
                    VObj [("parameters", VArr [parameter "id" "query" None])])])
    (parameter_changes "/v1/users" "constructor"
       [new_parameter (VStr "id") (VStr "query")]).
Proof.
  apply (diff_records_justified node_realm sample_parsers
           doc_get doc_constructor_parameters
           (users_spec [("get", VObj [])])
           (users_spec [("get", VObj []);
                        ("constructor",
                           VObj [("parameters",
                                  VArr [parameter "id" "query" None])])])
           [parameter_changes "/v1/users" "constructor"
              [new_parameter (VStr "id") (VStr "query")]]);
    try reflexivity.
  left. reflexivity.
Defined.

(** X2.  A [parameter_changes] or [response_changes] record never carries
    an empty list of deltas. *)
Theorem diff_details_never_empty (R : Realm) (P : SpecParsers)
  (oldStr newStr : string) (d : list Change) :
  diffOpenAPISpecs R P oldStr newStr = Normal d ->
  (forall p m ds, In (parameter_changes p m ds) d -> ds <> []) /\
  (forall p m ds, In (response_changes p m ds) d -> ds <> []).
Proof.
  intros Hd.
  destruct (diffOpenAPISpecs_result _ _ _ _ Hd) as [->|(a & b & _ & _ & H)];
    [split; intros ? ? ? []|].
  destruct (diffSpecs_passes _ _ _ H) as (fw & bw & -> & Hfw & Hbw).
  split; intros p m ds Hc; apply in_app_or in Hc; destruct Hc as [Hc|Hc].
  - apply Hfw in Hc. cbn [justified] in Hc. tauto.
  - apply Hbw in Hc. destruct Hc as [Hc _]. discriminate.
  - apply Hfw in Hc. cbn [justified] in Hc. tauto.
  - apply Hbw in Hc. destruct Hc as [Hc _]. discriminate.
Qed.

Lemma diff_details_never_empty_witness :
  diffOpenAPISpecs node_realm sample_parsers doc_required doc_absent
  = Normal [parameter_changes "/v1/users" "get"
              [parameter_requirement_changed (VStr "expand") (VStr "query")
                 (VBool true) (VBool false)]] /\
  [parameter_requirement_changed (VStr "expand") (VStr "query")
     (VBool true) (VBool false)] <> [].
Proof.
  split; [reflexivity|].
  apply (proj1 (diff_details_never_empty node_realm sample_parsers
                  doc_required doc_absent _ eq_refl) "/v1/users" "get").
  left. reflexivity.
Defined.

(** X3.  The records about one path exclude one another: a path reported
    as a new endpoint has no method, parameter or response record; a
    method reported as new has no parameter or response record; a path
    reported as removed has no removed method. *)
Theorem diff_records_exclusive (R : Realm) (P : SpecParsers)
  (oldStr newStr : string) (d : list Change) :
  diffOpenAPISpecs R P oldStr newStr = Normal d ->
  (forall p, In (new_endpoint p) d ->
     forall m, ~ In (new_method p m) d /\
               (forall ds, ~ In (parameter_changes p m ds) d) /\
               (forall ds, ~ In (response_changes p m ds) d)) /\
  (forall p m, In (new_method p m) d ->
     (forall ds, ~ In (parameter_changes p m ds) d) /\
     (forall ds, ~ In (response_changes p m ds) d)) /\
  (forall p, In (removed_endpoint p) d ->
     forall m, ~ In (removed_method p m) d).
Proof.
  intros Hd.
  destruct (diffOpenAPISpecs_result _ _ _ _ Hd) as [->|(a & b & _ & _ & H)].
  { split; [|split].
    - intros p [].
    - intros p m [].
    - intros p []. }
  destruct (diffSpecs_passes _ _ _ H) as (fw & bw & -> & Hfw & Hbw).
  assert (J : forall c, In c (fw ++ bw) -> justified R a b c).
  { intros c Hc. apply in_app_or in Hc. destruct Hc as [Hc|Hc];
      [apply Hfw|apply Hbw]; exact Hc. }
  split; [|split].
  - intros p Hp m. apply J in Hp. cbn [justified] in Hp.
    destruct Hp as [_ Hp]. repeat split.
    + intros Hc. apply J in Hc. cbn [justified] in Hc.
      destruct Hc as (_ & Hc & _). congruence.
    + intros ds Hc. apply J in Hc. cbn [justified] in Hc.
      destruct Hc as (_ & Hc & _). congruence.
    + intros ds Hc. apply J in Hc. cbn [justified] in Hc.
      destruct Hc as (_ & Hc & _). congruence.
  - intros p m Hp. apply J in Hp. cbn [justified] in Hp.
    destruct Hp as (_ & _ & _ & Hp). split.
    + intros ds Hc. apply J in Hc. cbn [justified] in Hc.
      destruct Hc as (_ & _ & _ & Hc & _). congruence.
    + intros ds Hc. apply J in Hc. cbn [justified] in Hc.
      destruct Hc as (_ & _ & _ & Hc & _). congruence.
  - intros p Hp m Hc. apply J in Hp. apply J in Hc.
    cbn [justified] in Hp, Hc. destruct Hp as [_ Hp].
    destruct Hc as (_ & Hc & _). congruence.
Qed.

Lemma diff_records_exclusive_witness :
  diffOpenAPISpecs node_realm sample_parsers doc_get doc_get_post
  = Normal [new_method "/v1/users" "post"] /\
  ~ In (parameter_changes "/v1/users" "post" [new_parameter (VStr "id") (VStr "query")])
       [new_method "/v1/users" "post"].
Proof.
  split; [reflexivity|].
  pose proof (diff_records_exclusive node_realm sample_parsers
                doc_get doc_get_post _ eq_refl) as H.
  apply (proj1 (proj2 H) "/v1/users" "post"). left. reflexivity.
Defined.

(** X4.  In a diff, the records of additions and changes come first and the
    removals last: no removal precedes a record of another kind. *)
Theorem diff_removals_last (R : Realm) (P : SpecParsers)
  (oldStr newStr : string) (d : list Change) :
  diffOpenAPISpecs R P oldStr newStr = Normal d ->
  exists forward backward,
    d = forward ++ backward /\
    forallb (fun c => negb (is_removal c)) forward = true /\
    forallb is_removal backward = true.
Proof.
  intros Hd.
  destruct (diffOpenAPISpecs_result _ _ _ _ Hd) as [->|(a & b & _ & _ & H)].
  - exists [], []. repeat split.
  - destruct (diffSpecs_passes _ _ _ H) as (fw & bw & -> & Hfw & Hbw).
    exists fw, bw. split; [reflexivity|]. split; apply forallb_forall.
    + intros c Hc. destruct (Hfw c Hc) as [-> _]. reflexivity.
    + intros c Hc. destruct (Hbw c Hc) as [-> _]. reflexivity.
Qed.

Lemma diff_removals_last_witness :
  exists forward backward,
    [parameter_changes "/v1/users" "get"
       [parameter_requirement_changed (VStr "expand") (VStr "query")
          (VBool false) (VBool true)];
     removed_method "/v1/users" "post"] = forward ++ backward /\
    forallb (fun c => negb (is_removal c)) forward = true /\
    forallb is_removal backward = true.
Proof.
  apply (diff_removals_last node_realm more_parsers
           doc_get_post_absent doc_required).
  reflexivity.
Defined.

(** X5.  When the comparison completes, every key of the [paths] of the
    new document that names no member of [Object.prototype], and for which
    the old document, its [paths] absent or an object, holds no truthy
    entry, is reported as a new endpoint; and every such key of the [paths]
    of the old document as a removed endpoint. *)
Theorem missing_paths_reported (R : Realm) (P : SpecParsers)
  (oldStr newStr : string) (oldSpec newSpec : value) (d : list Change)
  (path : string) :
  RealmLaws R ->
  parseSpec P oldStr = Normal oldSpec ->
  parseSpec P newStr = Normal newSpec ->
  diffSpecs R oldSpec newSpec = Normal d ->
  inherited_name path = false ->
  diffOpenAPISpecs R P oldStr newStr = Normal d /\
  (In path (keys (prop newSpec "paths")) ->
   truthy (prop oldSpec "paths") = false \/
   is_object (prop oldSpec "paths") = true ->
   truthy (item oldSpec path) = false -> In (new_endpoint path) d) /\
  (In path (keys (prop oldSpec "paths")) ->
   truthy (prop newSpec "paths") = false \/
   is_object (prop newSpec "paths") = true ->
   truthy (item newSpec path) = false -> In (removed_endpoint path) d).
Proof.
  intros HR Ho Hn Hd Hplain. split.
  { rewrite (diffOpenAPISpecs_parsed _ _ _ _ _ Ho Hn), Hd. reflexivity. }
  assert (Hmiss : forall s, nullish s = false ->
            truthy (prop s "paths") = false \/
            is_object (prop s "paths") = true ->
            truthy (item s path) = false ->
            path_missing R s path = Normal true).
  { intros s Hs Hshape Hf. unfold path_missing.
    rewrite (get_paths HR) by exact Hs. cbn [bind].
    destruct Hshape as [E|E].
    - rewrite E. reflexivity.
    - rewrite (object_truthy _ E). cbn [negb].
      rewrite (get_settled HR); [|exact E|].
      + cbn [bind]. fold (item s path). rewrite Hf. reflexivity.
      + unfold own_or_absent. rewrite Hplain. apply orb_true_r. }
  unfold diffSpecs in Hd.
  apply bind_Normal in Hd. destruct Hd as (np & Hnp & Hd).
  pose proof (get_Normal_nullish _ _ _ Hnp) as Hnn.
  rewrite (get_paths HR) in Hnp by exact Hnn. injection Hnp as <-.
  rewrite keys_or_object in Hd.
  apply bind_Normal in Hd. destruct Hd as (fw & Hfw & Hd).
  apply bind_Normal in Hd. destruct Hd as (op & Hop & Hd).
  pose proof (get_Normal_nullish _ _ _ Hop) as Hno.
  rewrite (get_paths HR) in Hop by exact Hno. injection Hop as <-.
  rewrite keys_or_object in Hd.
  apply bind_Normal in Hd. destruct Hd as (bw & Hbw & Hd).
  injection Hd as <-. split; intros Hk Hshape Hf; apply in_or_app; [left|right].
  - destruct (forM_step _ _ _ _ Hfw Hk) as (c & Hc & Hincl).
    apply Hincl. cbv beta in Hc. rewrite Hmiss in Hc by assumption.
    injection Hc as <-. left. reflexivity.
  - destruct (forM_step _ _ _ _ Hbw Hk) as (c & Hc & Hincl).
    apply Hincl. cbv beta in Hc. rewrite Hmiss in Hc by assumption.
    injection Hc as <-. left. reflexivity.
Qed.

Lemma missing_paths_reported_witness :
  In (new_endpoint "/v1/users") [new_endpoint "/v1/users"] /\
  In (removed_endpoint "/v1/users") [removed_endpoint "/v1/users"].
Proof.
  split.
  - apply (proj1 (proj2 (missing_paths_reported node_realm more_parsers
                           doc_empty_paths doc_get
                           (VObj [("paths", VObj [])])
                           (users_spec [("get", VObj [])])
                           [new_endpoint "/v1/users"] "/v1/users"
                           node_realm_laws eq_refl eq_refl eq_refl eq_refl)));
      [left|right|]; reflexivity.
  - apply (proj2 (proj2 (missing_paths_reported node_realm more_parsers
                           doc_get doc_empty_paths
                           (users_spec [("get", VObj [])])
                           (VObj [("paths", VObj [])])
                           [removed_endpoint "/v1/users"] "/v1/users"
                           node_realm_laws eq_refl eq_refl eq_refl eq_refl)));
      [left|right|]; reflexivity.
Defined.

(** A key of [paths] that names a member of [Object.prototype] is not
    reported: the old document is read as holding it. *)
Example inherited_path_not_reported :
  diffOpenAPISpecs node_realm more_parsers doc_empty_paths doc_constructor_path
  = Normal [] /\
  diffSpecs node_realm (VObj [("paths", VObj [])])
    (VObj [("paths", VObj [("constructor", VObj [("caller", VObj [])])])])
  = Throw TypeError.
Proof. split; reflexivity. Qed.

(** X6.  Against a document without [paths] (absent, null or otherwise
    falsy), the diff is one new endpoint per path of the new document, in
    the order of its keys; with the documents exchanged it is one removed
    endpoint per path. *)
Theorem diff_against_missing_paths (R : Realm) (P : SpecParsers)
  (emptyStr fullStr : string) (emptySpec fullSpec : value) :
  RealmLaws R ->
  parseSpec P emptyStr = Normal emptySpec ->
  parseSpec P fullStr = Normal fullSpec ->
  nullish emptySpec = false -> nullish fullSpec = false ->
  truthy (prop emptySpec "paths") = false ->
  diffOpenAPISpecs R P emptyStr fullStr
  = Normal (map new_endpoint (keys (prop fullSpec "paths"))) /\
  diffOpenAPISpecs R P fullStr emptyStr
  = Normal (map removed_endpoint (keys (prop fullSpec "paths"))).
Proof.
  intros HR He Hf Hne Hnf Hp.
  assert (Hmiss : forall path, path_missing R emptySpec path = Normal true).
  { intros path. unfold path_missing. rewrite (get_paths HR) by exact Hne.
    cbn [bind]. rewrite Hp. reflexivity. }
  assert (Hk : keys (prop emptySpec "paths") = []).
  { rewrite <- keys_or_object. unfold or_value. rewrite Hp. reflexivity. }
  split.
  - rewrite (diffOpenAPISpecs_parsed _ _ _ _ _ He Hf). unfold diffSpecs.
    rewrite (get_paths HR fullSpec) by exact Hnf. cbn [bind].
    rewrite keys_or_object.
    rewrite (forM_pure _ _ (fun path => [new_endpoint path])).
    + cbn [bind]. rewrite (get_paths HR emptySpec) by exact Hne. cbn [bind].
      rewrite keys_or_object, Hk. cbn [forM bind try_catch].
      rewrite app_nil_r, flat_map_concat_map, <- (map_map new_endpoint (fun c => [c])).
      rewrite <- flat_map_concat_map.
      f_equal. induction (map new_endpoint (keys (prop fullSpec "paths")))
        as [|c r IH]; [reflexivity|]. cbn [flat_map app]. rewrite IH. reflexivity.
    + intros path _. rewrite Hmiss. reflexivity.
  - rewrite (diffOpenAPISpecs_parsed _ _ _ _ _ Hf He). unfold diffSpecs.
    rewrite (get_paths HR emptySpec) by exact Hne. cbn [bind].
    rewrite keys_or_object, Hk. cbn [forM bind].
    rewrite (get_paths HR fullSpec) by exact Hnf. cbn [bind].
    rewrite keys_or_object.
    rewrite (forM_pure _ _ (fun path => [removed_endpoint path])).
    + cbn [bind try_catch app].
      rewrite flat_map_concat_map, <- (map_map removed_endpoint (fun c => [c])).
      rewrite <- flat_map_concat_map.
      f_equal. induction (map removed_endpoint (keys (prop fullSpec "paths")))
        as [|c r IH]; [reflexivity|]. cbn [flat_map app]. rewrite IH. reflexivity.
    + intros path _. rewrite Hmiss. reflexivity.
Qed.

Lemma diff_against_missing_paths_witness :
  diffOpenAPISpecs node_realm more_parsers doc_no_paths doc_get
  = Normal [new_endpoint "/v1/users"] /\
  diffOpenAPISpecs node_realm more_parsers doc_get doc_no_paths
  = Normal [removed_endpoint "/v1/users"].
Proof.
  apply (diff_against_missing_paths node_realm more_parsers
           doc_no_paths doc_get
           (VObj [("openapi", VStr "3.0.0")])
           (users_spec [("get", VObj [])]) node_realm_laws);
    reflexivity.
Defined.

(** ** Completion on well-formed documents *)

(** A read in an object finds an own property, a built-in or nothing; it
    does not throw. *)
Lemma get_object_cases {R : Realm} (HR : RealmLaws R) o k :
  is_object o = true ->
  (In k (keys o) /\ get R o k = Normal (prop o k)) \/
  (exists name, get R o k = Normal (VNative name)) \/
  get R o k = Normal VUndefined.
Proof.
  intros Ho. destruct o; try discriminate. cbn [get has_own prop keys].
  destruct (lookup k props) as [x|] eqn:E.
  - left. split; [eapply lookup_keys; exact E|reflexivity].
  - right. destruct (inherited_name k) eqn:Hk.
    + left. apply (object_inherits_member R HR). exact Hk.
    + right. apply (object_inherits_nothing_else R HR). exact Hk.
Qed.

Lemma compareResponses_objects {R : Realm} (HR : RealmLaws R) olds news :
  is_object olds = true -> is_object news = true ->
  exists ds, compareResponses R olds news = Normal ds.
Proof.
  intros Ho Hn. unfold compareResponses.
  assert (Hread : forall o k (g : value -> Completion (list ResponseDelta)),
            is_object o = true ->
            (forall x, exists c, g x = Normal c) ->
            exists c, (x <- get R o k ;; g x) = Normal c).
  { intros o k g Hobj Hg.
    destruct (get_object_cases HR o k Hobj) as [[_ ->]|[(n & ->)| ->]];
      cbn [bind]; apply Hg. }
  destruct (forM_total (keys news) (fun code =>
              old <- get R olds code ;;
              if negb (truthy old) then Normal [new_response_code code]
              else Normal [])) as (added & ->).
  { intros code _. apply Hread; [exact Ho|].
    intros x. destruct (negb (truthy x)); eauto. }
  cbn [bind].
  destruct (forM_total (keys olds) (fun code =>
              new <- get R news code ;;
              if negb (truthy new) then Normal [removed_response_code code]
              else Normal [])) as (removed & ->).
  { intros code _. apply Hread; [exact Hn|].
    intros x. destruct (negb (truthy x)); eauto. }
  cbn [bind]. eauto.
Qed.

(** What [spec.paths[path][method]] yields in a well-formed document, for
    a path that is a key of [paths]: when truthy, a value whose parameters
    are a list of well-formed parameters and whose responses are an
    object. *)
Lemma operation_cases {R : Realm} (HR : RealmLaws R) s path method :
  wf_spec s = true -> In path (keys (prop s "paths")) ->
  exists x,
    operation R s path method = Normal x /\
    (truthy x = true ->
     (exists ps, parameters_of x = VArr ps /\
                 forallb wf_parameter ps = true) /\
     (exists rs, responses_of x = VObj rs)).
Proof.
  intros Hs Hpath. unfold operation.
  rewrite (path_item_present s path Hpath). cbn [bind].
  pose proof (wf_item_of_key _ _ Hs Hpath) as Hwi.
  destruct (get_object_cases HR (item s path) method
              (wf_path_item_object _ Hwi)) as [[Hk ->]|[(n & ->)| ->]].
  - eexists. split; [reflexivity|]. intros _.
    pose proof (wf_entry_of_key _ _ Hwi Hk) as Hwe.
    destruct (wf_entry_parameters _ Hwe) as (ps & E1 & H1 & _).
    destruct (wf_entry_responses _ Hwe) as (rs & E2 & _).
    split; [exists ps|exists rs]; auto.
  - eexists. split; [reflexivity|]. intros _.
    split; [exists []|exists []]; auto.
  - eexists. split; [reflexivity|]. discriminate.
Qed.

Lemma field_or_of_operation {R : Realm} (HR : RealmLaws R)
  s path method field dflt x :
  operation R s path method = Normal x -> nullish x = false ->
  field_of_document x field = true ->
  field_or R s path method field dflt = Normal (or_value (prop x field) dflt).
Proof.
  intros Hop Hx Hf. unfold field_or. rewrite Hop. cbn [bind].
  rewrite (get_field HR) by assumption. reflexivity.
Qed.

Lemma diffSpecs_completes {R : Realm} (HR : RealmLaws R) a b :
  wf_spec a = true -> wf_spec b = true ->
  plain_keys (prop a "paths") = true -> plain_keys (prop b "paths") = true ->
  exists d, diffSpecs R a b = Normal d.
Proof.
  intros Ha Hb Pa Pb.
  pose proof (wf_spec_not_nullish _ Ha) as Hna.
  pose proof (wf_spec_not_nullish _ Hb) as Hnb.
  unfold diffSpecs.
  rewrite (get_paths HR b) by assumption. cbn [bind].
  rewrite (keys_or_empty _ (wf_spec_paths_shape _ Hb)).
  match goal with
  | |- exists d, (forward <- forM ?l ?f ;; _) = Normal d =>
      destruct (forM_total l f) as (fw & ->)
  end.
  { intros path Hpath.
    rewrite (path_missing_wf HR) by
      (try assumption; exact (plain_keys_absent _ _ _ Pb Hpath)).
    cbn [bind].
    destruct (truthy (item a path)) eqn:Hia; cbn [negb]; [|eauto].
    pose proof (wf_item_of_truthy _ _ Ha Hia) as Hpath_a.
    rewrite (path_item_present b path Hpath). cbn [bind].
    apply forM_total. intros method Hm.
    destruct (operation_cases HR a path method Ha Hpath_a)
      as (x & Hx & Hshape).
    rewrite Hx. cbn [bind].
    destruct (truthy x) eqn:Htx; cbn [negb]; [|eauto].
    destruct (Hshape eq_refl) as ((pa & Epa & Hpa) & (ra & Era)).
    pose proof (truthy_not_nullish _ Htx) as Hnx.
    pose proof (wf_item_of_key _ _ Hb Hpath) as Hwib.
    pose proof (wf_entry_of_key _ _ Hwib Hm) as Hweb.
    assert (Hy : operation R b path method = Normal (entry b path method)).
    { unfold operation. rewrite (path_item_present b path Hpath).
      cbn [bind]. apply get_key. exact Hm. }
    pose proof (truthy_not_nullish _ (wf_entry_truthy _ Hweb)) as Hny.
    destruct (wf_entry_parameters _ Hweb) as (pb & Epb & Hpb & _).
    destruct (wf_entry_responses _ Hweb) as (rb & Erb & _).
    rewrite !(field_or_of_operation HR a path method _ _ x)
      by (assumption || reflexivity).
    rewrite !(field_or_of_operation HR b path method _ _ _ Hy)
      by (assumption || reflexivity).
    cbn [bind]. unfold entry, parameters_of, responses_of in *.
    rewrite Epa, Epb, Era, Erb.
    rewrite (compareParameters_wf HR) by assumption. cbn [bind].
    destruct (compareResponses_objects HR (VObj ra) (VObj rb) eq_refl eq_refl)
      as (rc & ->).
    cbn [bind]. eauto. }
  cbn [bind]. rewrite (get_paths HR a) by assumption. cbn [bind].
  rewrite (keys_or_empty _ (wf_spec_paths_shape _ Ha)).
  match goal with
  | |- exists d, (backward <- forM ?l ?f ;; _) = Normal d =>
      destruct (forM_total l f) as (bw & ->)
  end.
  { intros path Hpath.
    rewrite (path_missing_wf HR) by
      (try assumption; exact (plain_keys_absent _ _ _ Pa Hpath)).
    cbn [bind].
    destruct (truthy (item b path)) eqn:Hib; cbn [negb]; [|eauto].
    pose proof (wf_item_of_truthy _ _ Hb Hib) as Hpath_b.
    rewrite (path_item_present a path Hpath). cbn [bind].
    apply forM_total. intros method Hm.
    destruct (operation_cases HR b path method Hb Hpath_b) as (x & -> & _).
    cbn [bind]. destruct (negb (truthy x)); eauto. }
  cbn [bind]. eauto.
Qed.

(** X7.  On documents that parse into well-formed specs whose path keys
    name no member of [Object.prototype], the comparison itself never
    throws: the change list returned is the one computed, not the empty
    list of the [catch]. *)
Theorem well_formed_diff_completes (R : Realm) (P : SpecParsers)
  (oldStr newStr : string) (oldSpec newSpec : value) :
  RealmLaws R ->
  parseSpec P oldStr = Normal oldSpec ->
  parseSpec P newStr = Normal newSpec ->
  wf_spec oldSpec = true -> wf_spec newSpec = true ->
  plain_keys (prop oldSpec "paths") = true ->
  plain_keys (prop newSpec "paths") = true ->
  exists d, diffSpecs R oldSpec newSpec = Normal d /\
            diffOpenAPISpecs R P oldStr newStr = Normal d.
Proof.
  intros HR Ho Hn Hwo Hwn Hpo Hpn.
  destruct (diffSpecs_completes HR oldSpec newSpec Hwo Hwn Hpo Hpn)
    as (d & Hd).
  exists d. split; [exact Hd|].
  rewrite (diffOpenAPISpecs_parsed _ _ _ _ _ Ho Hn), Hd. reflexivity.
Qed.

Lemma well_formed_diff_completes_witness :
  exists d,
    diffSpecs node_realm
      (users_spec (get_with [parameter "expand" "query" (Some true)]))
      (users_spec [("get", VObj []); ("constructor", VObj [])]) = Normal d /\
    diffOpenAPISpecs node_realm sample_parsers doc_required doc_constructor
    = Normal d.
Proof.
  apply (well_formed_diff_completes node_realm sample_parsers
           doc_required doc_constructor _ _ node_realm_laws);
    reflexivity.
Defined.

(** The restriction on the path keys is needed: with a path named as a
    member of [Object.prototype], the read of a method in the built-in that
    the old document is taken to hold can throw, and the diff of two
    well-formed documents is then the empty list of the [catch]. *)
Example well_formed_diff_can_throw :
  wf_spec (VObj [("paths", VObj [])]) = true /\
  wf_spec (VObj [("paths", VObj [("constructor", VObj [("caller", VObj [])])])])
  = true /\
  diffSpecs node_realm (VObj [("paths", VObj [])])
    (VObj [("paths", VObj [("constructor", VObj [("caller", VObj [])])])])
  = Throw TypeError /\
  diffOpenAPISpecs node_realm more_parsers doc_empty_paths doc_constructor_path
  = Normal [].
Proof. repeat split. Qed.

Lemma same_parameter_iff p q :
  wf_parameter q = true ->
  same_parameter p q = true <->
  prop p "name" = prop q "name" /\ prop p "in" = prop q "in".
Proof.
  intros Hq. split.
  - apply same_parameter_fields.
  - intros [E1 E2]. unfold same_parameter. rewrite E1, E2.
    rewrite (strict_eq_refl_string _ (wf_parameter_name _ Hq)).
    rewrite (strict_eq_refl_string _ (wf_parameter_in _ Hq)).
    reflexivity.
Qed.

Lemma found_None_iff ps q :
  wf_parameter q = true ->
  found ps q = None <->
  forall p, In p ps ->
    ~ (prop p "name" = prop q "name" /\ prop p "in" = prop q "in").
Proof.
  intros Hq. unfold found. split.
  - intros H p Hp Hs. apply (same_parameter_iff p q Hq) in Hs.
    pose proof (find_none _ _ H p Hp) as Hn. cbv beta in Hn. congruence.
  - intros H. destruct (find _ ps) as [p|] eqn:E; [|reflexivity].
    apply find_some in E. destruct E as [Hp Hs].
    apply (same_parameter_iff p q Hq) in Hs. destruct (H p Hp Hs).
Qed.

(** X8.  A parameter is identified by its name together with its location.
    On two lists of parameter objects, a [new_parameter] delta is emitted
    exactly for the pairs (name, location) of the new list that no parameter
    of the old list carries, and a [removed_parameter] delta exactly for the
    pairs of the old list that no parameter of the new list carries. *)
Theorem parameters_identified_by_name_and_location (R : Realm)
  (olds news : list value) :
  RealmLaws R ->
  forallb wf_parameter olds = true -> forallb wf_parameter news = true ->
  exists ds,
    compareParameters R (VArr olds) (VArr news) = Normal ds /\
    (forall n l,
       In (new_parameter n l) ds <->
       exists q, In q news /\ prop q "name" = n /\ prop q "in" = l /\
                 forall p, In p olds ->
                   ~ (prop p "name" = n /\ prop p "in" = l)) /\
    (forall n l,
       In (removed_parameter n l) ds <->
       exists p, In p olds /\ prop p "name" = n /\ prop p "in" = l /\
                 forall q, In q news ->
                   ~ (prop q "name" = n /\ prop q "in" = l)).
Proof.
  intros HR Ho Hn. exists (parameter_deltas olds news).
  split; [apply (compareParameters_wf HR); assumption|].
  unfold parameter_deltas. split; intros n l; rewrite in_app_iff, !in_flat_map.
  - split.
    + intros [(q & Hq & H)|(p & Hp & H)].
      * unfold added_parameter in H. destruct (found olds q) as [p|] eqn:E.
        -- destruct (negb _); [|destruct H]. destruct H as [H|[]]. discriminate.
        -- destruct H as [H|[]]. injection H as <- <-.
           exists q. repeat split; try assumption.
           apply found_None_iff; [|exact E]. exact (forallb_In _ _ _ Hn Hq).
      * unfold dropped_parameter in H. destruct (found news p); [destruct H|].
        destruct H as [H|[]]. discriminate.
    + intros (q & Hq & <- & <- & H). left. exists q. split; [exact Hq|].
      unfold added_parameter.
      rewrite (proj2 (found_None_iff olds q (forallb_In _ _ _ Hn Hq)) H).
      left. reflexivity.
  - split.
    + intros [(q & Hq & H)|(p & Hp & H)].
      * unfold added_parameter in H. destruct (found olds q) as [p|] eqn:E.
        -- destruct (negb _); [|destruct H]. destruct H as [H|[]]. discriminate.
        -- destruct H as [H|[]]. discriminate.
      * unfold dropped_parameter in H. destruct (found news p) eqn:E; [destruct H|].
        destruct H as [H|[]]. injection H as <- <-.
        exists p. repeat split; try assumption.
        apply found_None_iff; [|exact E]. exact (forallb_In _ _ _ Ho Hp).
    + intros (p & Hp & <- & <- & H). right. exists p. split; [exact Hp|].
      unfold dropped_parameter.
      rewrite (proj2 (found_None_iff news p (forallb_In _ _ _ Ho Hp)) H).
      left. reflexivity.
Qed.

Lemma parameters_identified_by_name_and_location_witness :
  exists ds,
    compareParameters node_realm (VArr [parameter "id" "query" None])
                      (VArr [parameter "id" "header" None]) = Normal ds /\
    In (new_parameter (VStr "id") (VStr "header")) ds /\
    In (removed_parameter (VStr "id") (VStr "query")) ds.
Proof.
  destruct (parameters_identified_by_name_and_location node_realm
              [parameter "id" "query" None] [parameter "id" "header" None]
              node_realm_laws eq_refl eq_refl) as (ds & Hds & Hnew & Hrem).
  exists ds. split; [exact Hds|]. split.
  - apply Hnew. exists (parameter "id" "header" None).
    repeat split; try reflexivity; [left; reflexivity|].
    intros p [<-|[]] [_ H]. discriminate H.
  - apply Hrem. exists (parameter "id" "query" None).
    repeat split; try reflexivity; [left; reflexivity|].
    intros p [<-|[]] [_ H]. discriminate H.
Defined.

(* ===================================================================== *)
(** * More on extractApiEndpoints *)
(* ===================================================================== *)

Lemma set_has_In s x : JS.set_has s x = true <-> In x s.
Proof.
  unfold JS.set_has. rewrite existsb_exists. split.
  - intros (y & Hy & E). apply String.eqb_eq in E. subst. exact Hy.
  - intros H. exists x. split; [exact H|apply String.eqb_refl].
Qed.

Lemma set_add_In s x y : In y (JS.set_add s x) <-> In y s \/ y = x.
Proof.
  unfold JS.set_add. destruct (JS.set_has s x) eqn:E.
  - apply set_has_In in E. split; [auto|]. intros [H| ->]; assumption.
  - rewrite in_app_iff. cbn [In]. split.
    + intros [H|[H|[]]]; auto.
    + intros [H|H]; auto.
Qed.

Lemma set_add_NoDup s x : NoDup s -> NoDup (JS.set_add s x).
Proof.
  intros H. unfold JS.set_add. destruct (JS.set_has s x) eqn:E; [exact H|].
  assert (Hx : ~ In x s).
  { intros Hin. apply set_has_In in Hin. congruence. }
  apply NoDup_rev in H. rewrite <- (rev_involutive (s ++ [x])).
  apply NoDup_rev. rewrite rev_app_distr. cbn [rev app].
  constructor; [|exact H]. rewrite <- in_rev. exact Hx.
Qed.

Section EndpointInvariant.

(** An invariant of the set of endpoints that every addition of a string
    starting with a slash preserves. *)
Variable I : list string -> Prop.
Hypothesis I_add : forall s x, I s -> slashed x -> I (JS.set_add s x).

Lemma fold_add_inv {A} (f : list string -> A -> list string) (l : list A) s :
  (forall s a, I s -> I (f s a)) -> I s -> I (fold_left f l s).
Proof.
  intros Hf. revert s. induction l as [|a r IH]; intros s Hs; cbn [fold_left].
  - exact Hs.
  - apply IH. apply Hf. exact Hs.
Qed.

Lemma strip_param_tail_prefix s :
  String.prefix (Regex.strip_param_tail s) s = true.
Proof.
  induction s as [|c r IH].
  - reflexivity.
  - cbn [Regex.strip_param_tail]. destruct (Regex.param_tail_at (String c r)).
    + reflexivity.
    + cbn [String.prefix]. destruct (ascii_dec c c); [exact IH|congruence].
Qed.

Lemma prefix_slashed p s :
  String.prefix p s = true -> slashed s -> (1 <= String.length p)%nat ->
  slashed p.
Proof.
  intros Hpre Hs Hlen. destruct p as [|c p]; [cbn in Hlen; lia|].
  destruct s as [|d s]; [discriminate Hpre|]. cbn [String.prefix] in Hpre.
  destruct (ascii_dec c d) as [->|]; [|discriminate].
  unfold slashed, JS.startsWith in *. cbn [String.prefix] in *.
  destruct (ascii_dec "/" d); [|discriminate]. destruct p; reflexivity.
Qed.

Lemma slashed_cons x : slashed (String "/" x).
Proof.
  unfold slashed, JS.startsWith. cbn [String.prefix].
  destruct (ascii_dec "/" "/"); [|congruence]. destruct x; reflexivity.
Qed.

Lemma add_path_endpoints_inv endpoints path :
  I endpoints -> I (add_path_endpoints endpoints path).
Proof.
  intros H. unfold add_path_endpoints.
  destruct (JS.is_empty path); [exact H|].
  set (cleanPath := Regex.strip_method_suffix (JS.strip_prefix "/paths" path)).
  destruct (JS.startsWith cleanPath "/") eqn:Hs; cbn [andb]; [|exact H].
  destruct (1 <? String.length cleanPath)%nat; [|exact H].
  assert (H1 : I (JS.set_add endpoints cleanPath)) by (apply I_add; assumption).
  set (e1 := JS.set_add endpoints cleanPath) in *.
  assert (H2 : I (if negb (String.eqb (Regex.strip_param_tail cleanPath) cleanPath) &&
                     (1 <? String.length (Regex.strip_param_tail cleanPath))%nat
                  then JS.set_add e1 (Regex.strip_param_tail cleanPath) else e1)).
  { destruct (negb (String.eqb (Regex.strip_param_tail cleanPath) cleanPath));
      cbn [andb]; [|exact H1].
    destruct (1 <? String.length (Regex.strip_param_tail cleanPath))%nat eqn:E;
      [|exact H1].
    apply I_add; [exact H1|]. apply Nat.ltb_lt in E.
    apply (prefix_slashed _ cleanPath);
      [apply strip_param_tail_prefix|exact Hs|lia]. }
  match goal with
  | |- I (if ?c then _ else _) => destruct c; [|exact H2]
  end.
  apply fold_add_inv; [|exact H2].
  intros s i Hi. cbv beta.
  match goal with
  | |- I (if ?c then _ else _) => destruct c; [|exact Hi]
  end.
  apply I_add; [exact Hi|]. apply slashed_cons.
Qed.

Lemma quoted_path_at_slashed s p :
  Regex.quoted_path_at s = Some p -> slashed p.
Proof.
  unfold Regex.quoted_path_at. destruct s as [|q [|c r]]; try discriminate.
  destruct c as [[] [] [] [] [] [] [] []]; try discriminate.
  destruct (Regex.is_quote q); [|discriminate].
  destruct (JS.span Regex.is_path_char r) as [body rest].
  destruct body; [discriminate|]. destruct rest as [|q' rest']; [discriminate|].
  destruct (Regex.is_quote q'); [|discriminate].
  intros [= <-]. apply slashed_cons.
Qed.

Lemma quoted_paths_slashed s k p :
  In p (Regex.quoted_paths_from k s) -> slashed p.
Proof.
  revert k. induction s as [|c r IH]; intros k; cbn [Regex.quoted_paths_from].
  - intros [].
  - destruct k as [|k]; [|apply IH].
    destruct (Regex.quoted_path_at (String c r)) as [q|] eqn:E; [|apply IH].
    intros [<-|H]; [eapply quoted_path_at_slashed; exact E|eapply IH; exact H].
Qed.

Lemma fold_add_inv_In {A} (f : list string -> A -> list string) (l : list A) s :
  (forall s a, In a l -> I s -> I (f s a)) -> I s -> I (fold_left f l s).
Proof.
  revert s. induction l as [|a r IH]; intros s Hf Hs; cbn [fold_left].
  - exact Hs.
  - apply IH.
    + intros s' a' Ha'. apply Hf. right. exact Ha'.
    + apply Hf; [left; reflexivity|exact Hs].
Qed.

Lemma add_details_endpoints_inv endpoints details :
  I endpoints -> I (add_details_endpoints endpoints details).
Proof.
  intros H. unfold add_details_endpoints.
  set (detailsStr := stringify details).
  assert (H1 : I (fold_left (fun (endpoints0 : list string) (path : string) =>
                   if (3 <? String.length path)%nat && JS.includes path "/"
                   then JS.set_add endpoints0 path else endpoints0)
                   (Regex.quoted_paths detailsStr) endpoints)).
  { apply fold_add_inv_In; [|exact H]. intros s p Hp Hs. cbv beta.
    match goal with
    | |- I (if ?c then _ else _) => destruct c; [|exact Hs]
    end.
    apply I_add; [exact Hs|].
    eapply quoted_paths_slashed. exact Hp. }
  destruct (Regex.find_operationId detailsStr); [|exact H1].
  match goal with
  | |- I (if ?c then _ else _) => destruct c; [|exact H1]
  end.
  apply I_add; [exact H1|]. apply slashed_cons.
Qed.

Lemma collect_endpoints_inv changes : I [] -> I (collect_endpoints changes).
Proof.
  intros H. unfold collect_endpoints. apply fold_add_inv; [|exact H].
  intros s c Hs. destruct (change_details c).
  - apply add_details_endpoints_inv, add_path_endpoints_inv. exact Hs.
  - apply add_path_endpoints_inv. exact Hs.
Qed.

End EndpointInvariant.

(** X9.  The extractor returns a set: no identifier appears twice. *)
Theorem extracted_endpoints_distinct (changes : list Change) :
  NoDup (extractApiEndpoints changes).
Proof.
  unfold extractApiEndpoints. apply NoDup_filter.
  apply (collect_endpoints_inv (@NoDup string)).
  - intros s x Hs _. apply set_add_NoDup. exact Hs.
  - constructor.
Qed.

(** X10.  Every identifier returned by the extractor starts with a
    slash. *)
Theorem extracted_endpoints_slashed (changes : list Change) :
  Forall slashed (extractApiEndpoints changes).
Proof.
  unfold extractApiEndpoints. apply Forall_forall. intros e He.
  apply filter_In in He. destruct He as [He _]. revert e He.
  apply Forall_forall.
  apply (collect_endpoints_inv (Forall slashed)).
  - intros s x Hs Hx. apply Forall_forall. intros y Hy.
    apply set_add_In in Hy. destruct Hy as [Hy| ->]; [|exact Hx].
    rewrite Forall_forall in Hs. apply Hs. exact Hy.
  - constructor.
Qed.

Lemma set_add_idempotent s x : JS.set_add (JS.set_add s x) x = JS.set_add s x.
Proof.
  unfold JS.set_add at 1.
  assert (H : JS.set_has (JS.set_add s x) x = true).
  { apply set_has_In. apply set_add_In. right. reflexivity. }
  rewrite H. reflexivity.
Qed.

Lemma add_path_endpoints_exact endpoints path :
  slashed (clean_path path) -> (1 < String.length (clean_path path))%nat ->
  In (clean_path path) (add_path_endpoints endpoints path).
Proof.
  intros Hs Hl.
  assert (Hne : JS.is_empty path = false).
  { destruct path; [discriminate Hs|reflexivity]. }
  assert (E : add_path_endpoints endpoints path
              = add_path_endpoints (JS.set_add endpoints (clean_path path)) path).
  { unfold add_path_endpoints. rewrite Hne. fold (clean_path path).
    unfold slashed in Hs. rewrite Hs. apply Nat.ltb_lt in Hl. rewrite Hl.
    cbn [andb]. rewrite set_add_idempotent. reflexivity. }
  rewrite E.
  apply (add_path_endpoints_inv (fun s => In (clean_path path) s)).
  - intros s x H _. apply set_add_In. left. exact H.
  - apply set_add_In. right. reflexivity.
Qed.

Lemma collect_step_keeps x (changes : list Change) s :
  In x s ->
  In x (fold_left (fun endpoints change =>
          let endpoints := add_path_endpoints endpoints (change_path change) in
          match change_details change with
          | Some details => add_details_endpoints endpoints details
          | None => endpoints
          end) changes s).
Proof.
  intros H. apply (fold_add_inv (fun s => In x s)); [|exact H].
  intros s' c Hs'. cbv zeta. destruct (change_details c).
  - apply (add_details_endpoints_inv (fun s => In x s)).
    + intros s0 y H0 _. apply set_add_In. left. exact H0.
    + apply (add_path_endpoints_inv (fun s => In x s)); [|exact Hs'].
      intros s0 y H0 _. apply set_add_In. left. exact H0.
  - apply (add_path_endpoints_inv (fun s => In x s)); [|exact Hs'].
    intros s0 y H0 _. apply set_add_In. left. exact H0.
Qed.

(** X11.  The exact path of every change is extracted: when the path of a
    record, without its [/paths] prefix and method suffix, starts with a
    slash and passes the final filter, it is one of the identifiers
    returned, whatever the other records add. *)
Theorem exact_path_extracted (changes : list Change) (c : Change) :
  In c changes ->
  slashed (clean_path (change_path c)) ->
  keep_endpoint (clean_path (change_path c)) = true ->
  In (clean_path (change_path c)) (extractApiEndpoints changes).
Proof.
  intros Hc Hs Hk. unfold extractApiEndpoints. apply filter_In.
  split; [|exact Hk].
  assert (Hl : (1 < String.length (clean_path (change_path c)))%nat).
  { unfold keep_endpoint in Hk.
    repeat (apply andb_prop in Hk; destruct Hk as [Hk ?]).
    apply Nat.ltb_lt in Hk. lia. }
  destruct (in_split _ _ Hc) as (l1 & l2 & ->).
  unfold collect_endpoints. rewrite fold_left_app. cbn [fold_left].
  apply collect_step_keeps.
  destruct (change_details c).
  - apply (add_details_endpoints_inv
             (fun s => In (clean_path (change_path c)) s)).
    + intros s0 y H0 _. apply set_add_In. left. exact H0.
    + apply add_path_endpoints_exact; assumption.
  - apply add_path_endpoints_exact; assumption.
Qed.

Lemma exact_path_extracted_witness :
  In "/v1/users/{id}"
     (extractApiEndpoints
        [new_endpoint "/health"; new_method "/paths/v1/users/{id}/get" "get"]).
Proof.
  apply (exact_path_extracted
           [new_endpoint "/health"; new_method "/paths/v1/users/{id}/get" "get"]
           (new_method "/paths/v1/users/{id}/get" "get")).
  - right. left. reflexivity.
  - reflexivity.
  - reflexivity.
Defined.

(* ===================================================================== *)
(** * More on findRelevantTestFiles *)
(* ===================================================================== *)

Lemma scan_file_eq fs ids st f :
  scan_file fs ids st f =
  if has_match fs ids f
  then {| relevantFiles := relevantFiles st ++ [f];
          endpointMatches :=
            map_set (endpointMatches st) f (matched_identifiers fs ids f) |}
  else st.
Proof.
  unfold scan_file, has_match, matched_identifiers, matches_of.
  destruct (readFileSync fs f); reflexivity.
Qed.

Lemma scan_relevant fs ids files st :
  relevantFiles (fold_left (scan_file fs ids) files st)
  = relevantFiles st ++ filter (has_match fs ids) files.
Proof.
  revert st. induction files as [|f r IH]; intros st; cbn [fold_left filter].
  - rewrite app_nil_r. reflexivity.
  - rewrite IH, scan_file_eq. destruct (has_match fs ids f); [|reflexivity].
    cbn [relevantFiles]. rewrite <- app_assoc. reflexivity.
Qed.

Lemma map_get_set m k v k' :
  map_get (map_set m k v) k' = if String.eqb k k' then Some v else map_get m k'.
Proof.
  induction m as [|[k0 v0] r IH]; cbn [map_set map_get].
  - reflexivity.
  - destruct (String.eqb k0 k) eqn:E.
    + apply String.eqb_eq in E. subst k0. cbn [map_get].
      destruct (String.eqb k k'); reflexivity.
    + cbn [map_get]. rewrite IH. destruct (String.eqb k0 k') eqn:E'; [|reflexivity].
      apply String.eqb_eq in E'. subst k'. rewrite String.eqb_sym, E. reflexivity.
Qed.

Lemma scan_matches fs ids files st f :
  map_get (endpointMatches (fold_left (scan_file fs ids) files st)) f
  = if existsb (String.eqb f) (filter (has_match fs ids) files)
    then Some (matched_identifiers fs ids f)
    else map_get (endpointMatches st) f.
Proof.
  revert st. induction files as [|g r IH]; intros st; cbn [fold_left filter].
  - reflexivity.
  - rewrite IH, scan_file_eq. destruct (has_match fs ids g) eqn:Hg.
    + cbn [existsb endpointMatches]. rewrite map_get_set.
      destruct (existsb (String.eqb f) (filter (has_match fs ids) r));
        [rewrite orb_true_r; reflexivity|].
      rewrite orb_false_r, (String.eqb_sym g f).
      destruct (String.eqb f g) eqn:E; [|reflexivity].
      apply String.eqb_eq in E. subst g. reflexivity.
    + reflexivity.
Qed.

Lemma set_add_all_spec l s :
  (NoDup s -> NoDup (JS.set_add_all s l)) /\
  (forall x, In x (JS.set_add_all s l) <-> In x s \/ In x l).
Proof.
  unfold JS.set_add_all. revert s. induction l as [|y r IH]; intros s; cbn [fold_left].
  - split; [auto|]. intros x. cbn [In]. tauto.
  - destruct (IH (JS.set_add s y)) as [H1 H2]. split.
    + intros Hs. apply H1. apply set_add_NoDup. exact Hs.
    + intros x. rewrite H2, set_add_In. cbn [In]. split.
      * intros [[H|H]|H]; auto.
      * intros [H|[H|H]]; auto.
Qed.

Lemma file_matches_incl ids content x :
  In x (file_matches ids content) -> In x ids.
Proof.
  unfold file_matches. rewrite in_flat_map. intros (e & He & H).
  apply in_flat_map in H. destruct H as (p & _ & H).
  destruct (_ && _); [|destruct H]. destruct H as [<-|[]]. exact He.
Qed.

Lemma matched_identifiers_bound fs ids f :
  (List.length (matched_identifiers fs ids f) <= List.length ids)%nat.
Proof.
  unfold matched_identifiers.
  destruct (set_add_all_spec (matches_of fs ids f) []) as [Hnd Hin].
  apply NoDup_incl_length; [apply Hnd; constructor|].
  intros x Hx. apply Hin in Hx. destruct Hx as [[]|Hx].
  unfold matches_of in Hx. destruct (readFileSync fs f); [|destruct Hx].
  eapply file_matches_incl. exact Hx.
Qed.

Lemma match_count_scan fs ids files f :
  In f files ->
  match_count (endpointMatches (scan_files fs ids files)) f
  = Z.of_nat (List.length (matched_identifiers fs ids f)).
Proof.
  intros Hf. unfold match_count, scan_files. rewrite scan_matches.
  cbn [endpointMatches map_get].
  destruct (existsb _ _) eqn:Ex; [reflexivity|].
  destruct (has_match fs ids f) eqn:Hm.
  - assert (Hin : existsb (String.eqb f) (filter (has_match fs ids) files) = true).
    { apply existsb_exists. exists f. split; [|apply String.eqb_refl].
      apply filter_In. auto. }
    congruence.
  - unfold has_match in Hm. apply Nat.ltb_ge in Hm.
    unfold matched_identifiers.
    destruct (matches_of fs ids f); [reflexivity|].
    cbn [List.length] in Hm. lia.
Qed.

(** X12.  The score of a file of the corpus is the number of distinct
    identifiers matched in it: an identifier found through several patterns
    counts once, an unreadable file scores 0, and no score exceeds the
    number of identifiers. *)
Theorem score_counts_identifiers_once (fs : FileSystem)
  (allTestFiles changedEndpoints : list string) (file : string) :
  In file allTestFiles ->
  match_count (endpointMatches (scan_files fs changedEndpoints allTestFiles)) file
  = Z.of_nat (List.length (matched_identifiers fs changedEndpoints file)) /\
  NoDup (matched_identifiers fs changedEndpoints file) /\
  (forall e, In e (matched_identifiers fs changedEndpoints file) ->
             In e changedEndpoints) /\
  (match_count (endpointMatches (scan_files fs changedEndpoints allTestFiles)) file
   <= Z.of_nat (List.length changedEndpoints))%Z.
Proof.
  intros Hf.
  pose proof (match_count_scan fs changedEndpoints allTestFiles file Hf) as E.
  split; [exact E|].
  destruct (set_add_all_spec (matches_of fs changedEndpoints file) [])
    as [Hnd Hin].
  split; [apply Hnd; constructor|]. split.
  - intros e He. apply Hin in He. destruct He as [[]|He].
    unfold matches_of in He. destruct (readFileSync fs file); [|destruct He].
    eapply file_matches_incl. exact He.
  - rewrite E. pose proof (matched_identifiers_bound fs changedEndpoints file). lia.
Qed.

Lemma score_counts_identifiers_once_witness :
  match_count
    (endpointMatches
       (scan_files (files_on_disk users_tests) ["/v1/users"; "/v1/orders"]
          (map fst users_tests)))
    "tests/users.test.js" = 1%Z.
Proof.
  rewrite (proj1 (score_counts_identifiers_once (files_on_disk users_tests)
                    (map fst users_tests) ["/v1/users"; "/v1/orders"]
                    "tests/users.test.js"
                    ltac:(right; left; reflexivity))).
  reflexivity.
Defined.

Lemma In_firstn {A} (x : A) n l : In x (firstn n l) -> In x l.
Proof.
  revert n. induction l as [|y r IH]; intros [|n]; cbn [firstn In]; try tauto.
  intros [H|H]; [left; exact H|right; eapply IH; exact H].
Qed.

Lemma In_skipn {A} (x : A) n l : In x (skipn n l) -> In x l.
Proof.
  revert n. induction l as [|y r IH]; intros [|n]; cbn [skipn In]; try tauto.
  intros H. right. eapply IH. exact H.
Qed.

Lemma In_slice {A} (x : A) l a b : In x (JS.slice l a b) -> In x l.
Proof. unfold JS.slice. intros H. apply In_firstn, In_skipn in H. exact H. Qed.

Lemma In_sort {A} (cmp : A -> A -> Z) l x : In x (JS.sort cmp l) <-> In x l.
Proof.
  split; intros H.
  - eapply Permutation_in; [apply Permutation_sym, sort_perm|exact H].
  - eapply Permutation_in; [apply sort_perm|exact H].
Qed.

(** How a file can come to be returned by the ranking. *)
Lemma rank_result_origin fs files ids f :
  In f (rankTestFiles fs files ids) ->
  In f files /\
  (ids = [] \/
   has_match fs ids f = true \/
   (filter (has_match fs ids) files = [] /\ is_api_test_file f = true)).
Proof.
  unfold rankTestFiles. destruct ids as [|e es]; cbn [List.length Nat.eqb].
  - intros H. apply In_slice in H. auto.
  - unfold scan_files. rewrite scan_relevant. cbn [relevantFiles app].
    set (rel := filter (has_match fs (e :: es)) files).
    destruct (List.length (JS.sort _ rel) =? 0)%nat eqn:E.
    + unfold JS.or_array, JS.truthy_array. intros H. apply In_slice in H.
      apply filter_In in H. destruct H as [Hf Hm]. split; [exact Hf|].
      right. right. split; [|exact Hm].
      apply Nat.eqb_eq in E. apply length_zero_iff_nil in E.
      destruct rel as [|g rel']; [reflexivity|].
      assert (Hg : In g (JS.sort
                (fun a b =>
                   (match_count
                      (endpointMatches
                         (fold_left (scan_file fs (e :: es)) files
                            {| relevantFiles := []; endpointMatches := [] |})) b -
                    match_count
                      (endpointMatches
                         (fold_left (scan_file fs (e :: es)) files
                            {| relevantFiles := []; endpointMatches := [] |})) a)%Z)
                (g :: rel'))) by (apply In_sort; left; reflexivity).
      rewrite E in Hg. destruct Hg.
    + intros H. apply In_slice, In_sort in H. apply filter_In in H.
      destruct H as [Hf Hm]. auto.
Qed.

(** X13.  The ranking returns only files of the corpus; in particular an
    empty corpus gives an empty result. *)
Theorem ranked_files_from_corpus (fs : FileSystem)
  (allTestFiles changedEndpoints : list string) (file : string) :
  In file (rankTestFiles fs allTestFiles changedEndpoints) ->
  In file allTestFiles.
Proof. intros H. apply rank_result_origin in H. tauto. Qed.

Lemma ranked_files_from_corpus_witness :
  In "tests/users.test.js" (map fst users_tests).
Proof.
  apply (ranked_files_from_corpus (files_on_disk users_tests)
           (map fst users_tests) ["/v1/users"]).
  vm_compute. left. reflexivity.
Defined.

(** X14.  With a non-empty identifier set, a returned file either can be
    read and matches at least one identifier, or no file of the corpus
    matches anything and the name of the returned file carries one of the
    generic markers. *)
Theorem ranked_files_matched_or_marked (fs : FileSystem)
  (allTestFiles changedEndpoints : list string) (file : string) :
  changedEndpoints <> [] ->
  In file (rankTestFiles fs allTestFiles changedEndpoints) ->
  (exists raw,
     readFileSync fs file = Normal raw /\
     file_matches changedEndpoints (JS.toLowerCase raw) <> []) \/
  ((forall f, In f allTestFiles ->
      matches_of fs changedEndpoints f = []) /\
   is_api_test_file file = true).
Proof.
  intros Hne H. apply rank_result_origin in H.
  destruct H as [_ [H|[H|[Hnone Hm]]]]; [congruence| |].
  - left. unfold has_match, matches_of in H.
    destruct (readFileSync fs file) as [raw|]; [|discriminate].
    exists raw. split; [reflexivity|].
    intros Hnil. rewrite Hnil in H. discriminate H.
  - right. split; [|exact Hm]. intros f Hf.
    destruct (has_match fs changedEndpoints f) eqn:E.
    + assert (Hin : In f (filter (has_match fs changedEndpoints) allTestFiles))
        by (apply filter_In; auto).
      rewrite Hnone in Hin. destruct Hin.
    + unfold has_match in E. apply Nat.ltb_ge in E.
      destruct (matches_of fs changedEndpoints f); [reflexivity|].
      cbn [List.length] in E. lia.
Qed.

Lemma ranked_files_matched_or_marked_witness :
  exists raw,
    readFileSync (files_on_disk users_tests) "tests/users.test.js" = Normal raw /\
    file_matches ["/v1/users"] (JS.toLowerCase raw) <> [].
Proof.
  destruct (ranked_files_matched_or_marked (files_on_disk users_tests)
              (map fst users_tests) ["/v1/users"] "tests/users.test.js")
    as [H|[H _]].
  - discriminate.
  - vm_compute. left. reflexivity.
  - exact H.
  - exfalso. specialize (H "tests/users.test.js" ltac:(right; left; reflexivity)).
    vm_compute in H. discriminate H.
Defined.

Lemma StronglySorted_firstn {A} (R : A -> A -> Prop) n l :
  StronglySorted R l -> StronglySorted R (firstn n l).
Proof.
  revert n. induction l as [|x r IH]; intros [|n] H; cbn [firstn];
    try constructor.
  - apply IH. inversion H; assumption.
  - inversion H as [|? ? _ Hall]; subst. apply Forall_forall. intros y Hy.
    apply In_firstn in Hy. rewrite Forall_forall in Hall. auto.
Qed.

Lemma StronglySorted_all {A} (R : A -> A -> Prop) l :
  (forall x y, In x l -> In y l -> R x y) -> StronglySorted R l.
Proof.
  induction l as [|x r IH]; intros H; constructor.
  - apply IH. intros a b Ha Hb. apply H; right; assumption.
  - apply Forall_forall. intros y Hy. apply H; [left; reflexivity|right; exact Hy].
Qed.

Lemma StronglySorted_impl {A} (R S : A -> A -> Prop) l :
  (forall x y, In x l -> In y l -> R x y -> S x y) ->
  StronglySorted R l -> StronglySorted S l.
Proof.
  intros HRS H. induction H as [|x r Hs IH Hall]; constructor.
  - apply IH. intros a b Ha Hb. apply HRS; right; assumption.
  - apply Forall_forall. intros y Hy. rewrite Forall_forall in Hall.
    apply HRS; [left; reflexivity|right; exact Hy|apply Hall; exact Hy].
Qed.

(** X15.  The ranking is ordered by score: no returned file has a lower
    score than a file returned after it. *)
Theorem ranked_by_descending_score (fs : FileSystem)
  (allTestFiles changedEndpoints : list string) :
  StronglySorted
    (fun a b =>
       (List.length (matched_identifiers fs changedEndpoints b)
        <= List.length (matched_identifiers fs changedEndpoints a))%nat)
    (rankTestFiles fs allTestFiles changedEndpoints).
Proof.
  assert (Hzero : forall f, has_match fs changedEndpoints f = false ->
                    List.length (matched_identifiers fs changedEndpoints f) = 0%nat).
  { intros f E. unfold has_match in E. apply Nat.ltb_ge in E.
    unfold matched_identifiers.
    destruct (matches_of fs changedEndpoints f); [reflexivity|].
    cbn [List.length] in E. lia. }
  destruct (filter (has_match fs changedEndpoints) allTestFiles) as [|g rel] eqn:Hrel.
  - (* no file matched: every score is 0 *)
    apply StronglySorted_all. intros x y Hx Hy.
    apply rank_result_origin in Hy. destruct Hy as [Hy _].
    rewrite (Hzero y); [lia|].
    destruct (has_match fs changedEndpoints y) eqn:E; [|reflexivity].
    assert (Hin : In y (filter (has_match fs changedEndpoints) allTestFiles))
      by (apply filter_In; auto).
    rewrite Hrel in Hin. destruct Hin.
  - (* some file matched: the identifier set is not empty *)
    unfold rankTestFiles. destruct changedEndpoints as [|e es].
    { assert (Hin : In g (filter (has_match fs []) allTestFiles))
        by (rewrite Hrel; left; reflexivity).
      apply filter_In in Hin. destruct Hin as [_ Hin].
      unfold has_match, matches_of in Hin.
      destruct (readFileSync fs g); discriminate Hin. }
    cbn [List.length Nat.eqb]. unfold scan_files.
    rewrite scan_relevant. cbn [relevantFiles app]. rewrite Hrel.
    fold (scan_files fs (e :: es) allTestFiles).
    set (M := endpointMatches (scan_files fs (e :: es) allTestFiles)).
    destruct (List.length (JS.sort _ (g :: rel)) =? 0)%nat eqn:E.
    { apply Nat.eqb_eq, length_zero_iff_nil in E.
      assert (Hg : In g (JS.sort (fun a b => (match_count M b - match_count M a)%Z)
                           (g :: rel))) by (apply In_sort; left; reflexivity).
      rewrite E in Hg. destruct Hg. }
    unfold maxFiles. rewrite slice_prefix by lia. apply StronglySorted_firstn.
    apply (StronglySorted_impl
             (fun a b => (- match_count M a <= - match_count M b)%Z)).
    + intros x y Hx Hy Hxy. cbv beta in Hxy.
      assert (Hfiles : forall z, In z (JS.sort
                 (fun a b => (match_count M b - match_count M a)%Z) (g :: rel)) ->
                 In z allTestFiles).
      { intros z Hz. apply In_sort in Hz. rewrite <- Hrel in Hz.
        apply filter_In in Hz. tauto. }
      unfold M in Hxy.
      rewrite !match_count_scan in Hxy by (apply Hfiles; assumption). lia.
    + apply sort_sorted. intros x y _ _. lia.
Qed.

(* ===================================================================== *)
(** * readTestFiles on unreadable files *)
(* ===================================================================== *)

Lemma budget_loop_unreadable fs repo files st :
  (forall f, In f files -> exists e, readFileSync fs f = Throw e) ->
  budget_loop fs repo files st = st.
Proof.
  revert st. induction files as [|f r IH]; intros st H; cbn [budget_loop].
  - reflexivity.
  - destruct (maxTotalTokens <=? totalTokens st)%Z; [reflexivity|].
    unfold include_file. destruct (H f (or_introl eq_refl)) as (e & ->).
    apply IH. intros g Hg. apply H. right. exact Hg.
Qed.

(** X16.  When none of the files can be read (in particular when there is
    no file), [readTestFiles] returns its fixed message instead of a
    context. *)
Theorem unreadable_files_give_message (S : ArraySort) (fs : FileSystem)
  (testFiles : list string) (testRepoPath : string) :
  ArraySortLaws S ->
  (forall f, In f testFiles -> exists e, readFileSync fs f = Throw e) ->
  readTestFiles S fs testFiles testRepoPath
  = "No test files found in the test repository. Please create new test files following standard testing patterns.".
Proof.
  intros HS H. unfold readTestFiles, readTestFiles_state.
  rewrite budget_loop_unreadable; [reflexivity|].
  intros f Hf. apply H. unfold sortedBySize in Hf.
  eapply Permutation_in;
    [apply Permutation_sym, (array_sort_permutation S HS)|exact Hf].
Qed.

Lemma unreadable_files_give_message_witness :
  readTestFiles stable_sort empty_disk ["tests/a.test.js"; "tests/b.test.js"]
    "tests"
  = "No test files found in the test repository. Please create new test files following standard testing patterns.".
Proof.
  apply (unreadable_files_give_message stable_sort empty_disk
           ["tests/a.test.js"; "tests/b.test.js"] "tests" stable_sort_laws).
  intros f _. exists SystemError. reflexivity.
Defined.

Lemma length_slice_prefix {A} (l : list A) k n :
  (0 <= k <= Z.of_nat n)%Z -> (List.length (JS.slice l 0 k) <= n)%nat.
Proof.
  intros Hk. pose proof (slice_prefix_length l k ltac:(lia)). lia.
Qed.

(** X17.  A truncated rendering keeps at most 10 declaration lines; the
    budget of code lines is at most 20, and when it is not negative at most
    20 code lines are kept. *)
Theorem truncation_line_bounds (content : string) :
  (List.length (importLines content) <= 10)%nat /\
  (maxCodeLines content <= 20)%Z /\
  ((0 <= maxCodeLines content)%Z ->
   (List.length (selectedCode content) <= 20)%nat).
Proof.
  assert (Hmax : (maxCodeLines content <= 20)%Z).
  { unfold maxCodeLines, maxTokensPerFile.
    apply Z.div_le_upper_bound; lia. }
  split; [|split].
  - unfold importLines. apply length_slice_prefix. lia.
  - exact Hmax.
  - intros H. unfold selectedCode. apply length_slice_prefix. lia.
Qed.

Lemma truncation_line_bounds_witness :
  (List.length (selectedCode "it('a');") <= 20)%nat.
Proof.
  apply (proj2 (proj2 (truncation_line_bounds "it('a');"))).
  vm_compute. discriminate.
Defined.

(* ===================================================================== *)
(** * The git helpers, detectChanges and run *)
(* ===================================================================== *)

(** X18.  Every file returned by [detectChanges] is a line of the output of
    [git diff] that is not blank and that matches the configured patterns;
    outside a git repository, or when [git diff] fails, nothing is
    returned. *)
Theorem detected_changes_are_matching_lines (g : Git) (G : Globbing)
  (api_spec_paths : list string) :
  (forall file, In file (detectChanges g G api_spec_paths) ->
     isGitRepository g = true /\
     isMatch G file api_spec_paths = true /\
     JS.trim file <> "" /\
     exists output, git_diff_names g = Normal output /\
                    In file (JS.split JS.LF output)) /\
  (isGitRepository g = false -> detectChanges g G api_spec_paths = []) /\
  ((exists e, git_diff_names g = Throw e) ->
   detectChanges g G api_spec_paths = []).
Proof.
  split; [|split].
  - intros file. unfold detectChanges.
    destruct (isGitRepository g); cbn [negb]; [|intros []].
    destruct (List.length (getChangedFiles g) =? 0)%nat; [intros []|].
    intros H. apply filter_In in H. destruct H as [H Hm].
    unfold getChangedFiles in H.
    destruct (git_diff_names g) as [output|]; [|destruct H].
    apply filter_In in H. destruct H as [Hl Hb].
    repeat split; try assumption.
    + intros E. rewrite E in Hb. discriminate Hb.
    + exists output. auto.
  - intros H. unfold detectChanges. rewrite H. reflexivity.
  - intros (e & H). unfold detectChanges, getChangedFiles. rewrite H.
    destruct (isGitRepository g); reflexivity.
Qed.

Lemma In_fold_add_pattern G repo patterns acc p :
  In p (fold_left (add_pattern_files G repo) patterns acc) <->
  In p acc \/
  exists pattern files f,
    In pattern patterns /\ glob_sync G pattern repo = Normal files /\
    In f files /\ p = path_join G repo f.
Proof.
  revert acc. induction patterns as [|q r IH]; intros acc; cbn [fold_left].
  - split; [auto|]. intros [H|(? & ? & ? & [] & _)]. exact H.
  - rewrite IH. unfold add_pattern_files.
    destruct (glob_sync G q repo) as [files|e] eqn:E.
    + rewrite in_app_iff, in_map_iff. split.
      * intros [[H|(f & <- & Hf)]|(pt & fl & f & Hpt & Hg & Hf & ->)].
        -- auto.
        -- right. exists q, files, f. cbn [In]. auto.
        -- right. exists pt, fl, f. cbn [In]. auto.
      * intros [H|(pt & fl & f & [<-|Hpt] & Hg & Hf & ->)].
        -- auto.
        -- rewrite E in Hg. injection Hg as <-. left. right. exists f. auto.
        -- right. exists pt, fl, f. auto.
    + split.
      * intros [H|(pt & fl & f & Hpt & Hg & Hf & ->)]; [auto|].
        right. exists pt, fl, f. cbn [In]. auto.
      * intros [H|(pt & fl & f & [<-|Hpt] & Hg & Hf & ->)]; [auto| |].
        -- rewrite E in Hg. discriminate.
        -- right. exists pt, fl, f. auto.
Qed.

(** X19.  [getTestFilesFromRepo] returns each path once, and the paths it
    returns are exactly the joined paths of the files found for some
    pattern whose search succeeded: a pattern whose search throws loses
    nothing found for the others. *)
Theorem test_files_distinct_and_complete (G : Globbing)
  (testRepoPath : string) (testCodePaths : list string) :
  NoDup (getTestFilesFromRepo G testRepoPath testCodePaths) /\
  forall p,
    In p (getTestFilesFromRepo G testRepoPath testCodePaths) <->
    exists pattern files f,
      In pattern testCodePaths /\
      glob_sync G pattern testRepoPath = Normal files /\
      In f files /\ p = path_join G testRepoPath f.
Proof.
  unfold getTestFilesFromRepo.
  destruct (set_add_all_spec
              (fold_left (add_pattern_files G testRepoPath) testCodePaths []) [])
    as [Hnd Hin].
  split; [apply Hnd; constructor|].
  intros p. rewrite Hin, In_fold_add_pattern. cbn [In]. tauto.
Qed.

Lemma detected_changes_are_matching_lines_witness :
  isMatch sample_globbing "api/openapi.yaml" ["api/openapi.yaml"] = true /\
  JS.trim "api/openapi.yaml" <> "".
Proof.
  destruct (proj1 (detected_changes_are_matching_lines sample_git
                     sample_globbing ["api/openapi.yaml"])
              "api/openapi.yaml") as (_ & Hm & Hb & _).
  - vm_compute. left. reflexivity.
  - split; assumption.
Defined.

Lemma test_files_distinct_and_complete_witness :
  getTestFilesFromRepo sample_globbing "/tmp/repo"
    ["tests/**/*.js"; "test/**/*.js"; "tests/**/a.*"]
  = ["/tmp/repo/tests/a.test.js"; "/tmp/repo/tests/b.test.js"] /\
  NoDup (getTestFilesFromRepo sample_globbing "/tmp/repo"
           ["tests/**/*.js"; "test/**/*.js"; "tests/**/a.*"]).
Proof.
  split; [reflexivity|].
  apply (proj1 (test_files_distinct_and_complete sample_globbing "/tmp/repo"
                  ["tests/**/*.js"; "test/**/*.js"; "tests/**/a.*"])).
Defined.

Lemma process_file_result {R : Realm} g fs P file pushed :
  process_file R g fs P file = Normal pushed ->
  pushed = [] \/
  exists changes,
    pushed = [{| diff_file := file; diff_changes := changes |}] /\
    changes <> [] /\
    getFileAtRevision g file "HEAD~1" <> "" /\
    getCurrentFileContent fs file <> "" /\
    diffOpenAPISpecs R P (getFileAtRevision g file "HEAD~1")
      (getCurrentFileContent fs file) = Normal changes.
Proof.
  unfold process_file.
  destruct (JS.is_empty (getFileAtRevision g file "HEAD~1")) eqn:Eo;
    cbn [orb]; [intros [= <-]; left; reflexivity|].
  destruct (JS.is_empty (getCurrentFileContent fs file)) eqn:En;
    [intros [= <-]; left; reflexivity|].
  intros H. apply bind_Normal in H. destruct H as (changes & Hd & H).
  destruct changes as [|c changes]; cbn [List.length Nat.ltb Nat.leb] in H;
    injection H as <-; [left; reflexivity|].
  right. exists (c :: changes). repeat split; try assumption.
  - discriminate.
  - intros E. rewrite E in Eo. discriminate.
  - intros E. rewrite E in En. discriminate.
Qed.

Lemma run_entry {R : Realm} g fs P changedFiles e :
  In e (run R g fs P changedFiles) ->
  In (diff_file e) changedFiles /\
  process_file R g fs P (diff_file e) = Normal [e].
Proof.
  unfold run. rewrite in_flat_map. intros (file & Hf & H).
  unfold try_catch in H.
  destruct (process_file R g fs P file) as [pushed|err] eqn:E; [|destruct H].
  destruct (process_file_result _ _ _ _ _ E) as [->|(changes & -> & _)];
    [destruct H|].
  destruct H as [<-|[]]. cbn [diff_file]. auto.
Qed.

(** X20.  Every entry returned by [run] names one of the changed files,
    both versions of that file were retrieved and are not empty, the
    changes of the entry are the diff of the two versions, and they are not
    empty. *)
Theorem run_entries_are_real_diffs (R : Realm) (g : Git) (fs : FileSystem)
  (P : SpecParsers) (changedFiles : list string) (e : SpecDiff) :
  In e (run R g fs P changedFiles) ->
  In (diff_file e) changedFiles /\
  diff_changes e <> [] /\
  (exists old, git_show g "HEAD~1" (diff_file e) = Normal old /\ old <> "" /\
   exists new, readFileSync fs (diff_file e) = Normal new /\ new <> "" /\
     diffOpenAPISpecs R P old new = Normal (diff_changes e)).
Proof.
  intros H. apply run_entry in H. destruct e as [file chs].
  cbn [diff_file diff_changes] in *. destruct H as [Hf H].
  split; [exact Hf|].
  destruct (process_file_result _ _ _ _ _ H)
    as [E|(changes & E & Hne & Ho & Hn & Hd)]; [discriminate E|].
  injection E as ->. split; [exact Hne|].
  unfold getFileAtRevision, getCurrentFileContent in *.
  destruct (git_show g "HEAD~1" file) as [old|]; [|congruence].
  destruct (readFileSync fs file) as [new|]; [|congruence].
  exists old. repeat split; try assumption.
  exists new. repeat split; assumption.
Qed.

Lemma run_entries_are_real_diffs_witness :
  In "api/openapi.yaml" ["api/openapi.yaml"; "README.md"] /\
  [new_method "/v1/users" "post"] <> [].
Proof.
  destruct (run_entries_are_real_diffs node_realm sample_git sample_workspace
              sample_parsers
              ["api/openapi.yaml"; "README.md"]
              {| diff_file := "api/openapi.yaml";
                 diff_changes := [new_method "/v1/users" "post"] |})
    as (Hfile & Hchanges & _).
  - vm_compute. left. reflexivity.
  - split; [exact Hfile|exact Hchanges].
Defined.

(** X21.  [run] returns one entry for each changed file of which both
    versions were retrieved and are not empty and whose versions differ,
    in the order of the changed files and once for each occurrence of the
    file; the entry holds the file and the changes between its two
    versions. *)
Theorem run_keeps_file_order (R : Realm) (g : Git) (fs : FileSystem)
  (P : SpecParsers) (changedFiles : list string) :
  run R g fs P changedFiles
  = map (fun file => {| diff_file := file;
                        diff_changes := changes_of R g fs P file |})
      (filter (has_changes R g fs P) changedFiles) /\
  map diff_file (run R g fs P changedFiles)
  = filter (has_changes R g fs P) changedFiles.
Proof.
  assert (E : run R g fs P changedFiles
              = map (fun file => {| diff_file := file;
                                    diff_changes := changes_of R g fs P file |})
                  (filter (has_changes R g fs P) changedFiles)).
  { unfold run. induction changedFiles as [|f r IH]; [reflexivity|].
    cbn [flat_map filter]. rewrite IH. clear IH.
    unfold has_changes, changes_of, process_file, try_catch.
    destruct (JS.is_empty (getFileAtRevision g f "HEAD~1")); cbn [negb andb orb];
      [reflexivity|].
    destruct (JS.is_empty (getCurrentFileContent fs f)); cbn [negb andb];
      [reflexivity|].
    destruct (diffOpenAPISpecs R P (getFileAtRevision g f "HEAD~1")
                (getCurrentFileContent fs f)) as [changes|err] eqn:Ed;
      cbn [bind]; [|reflexivity].
    destruct changes as [|c changes]; [reflexivity|].
    cbn [List.length Nat.ltb Nat.leb map app]. rewrite Ed. reflexivity. }
  split; [exact E|].
  rewrite E, map_map. cbn [diff_file]. apply map_id.
Qed.

(** X22.  A changed file yields no entry when its old version cannot be
    retrieved or is empty, when its current version cannot be read or is
    empty, when either version fails to parse under both encodings, or when
    both versions are one and the same well-formed document. *)
Theorem run_skips_file (R : Realm) (g : Git) (fs : FileSystem)
  (P : SpecParsers) (changedFiles : list string) (file : string) :
  RealmLaws R ->
  getFileAtRevision g file "HEAD~1" = "" \/
  getCurrentFileContent fs file = "" \/
  (exists e, parseSpec P (getFileAtRevision g file "HEAD~1") = Throw e) \/
  (exists e, parseSpec P (getCurrentFileContent fs file) = Throw e) \/
  (getFileAtRevision g file "HEAD~1" = getCurrentFileContent fs file /\
   exists x, parseSpec P (getCurrentFileContent fs file) = Normal x /\
             wf_spec x = true) ->
  forall e, In e (run R g fs P changedFiles) -> diff_file e <> file.
Proof.
  intros HR Hcase e He Hfile. apply run_entry in He. destruct He as [_ He].
  rewrite Hfile in He.
  destruct (process_file_result _ _ _ _ _ He)
    as [E|(changes & _ & Hne & Ho & Hn & Hd)]; [discriminate E|].
  destruct Hcase as [H|[H|[(err & H)|[(err & H)|(Heq & x & Hx & Hwf)]]]].
  - congruence.
  - congruence.
  - unfold diffOpenAPISpecs in Hd. rewrite H in Hd. cbn in Hd. congruence.
  - unfold diffOpenAPISpecs in Hd. rewrite H in Hd.
    destruct (parseSpec P (getFileAtRevision g file "HEAD~1")); cbn in Hd;
      congruence.
  - rewrite Heq in Hd. rewrite (diffOpenAPISpecs_parsed _ _ _ _ _ Hx Hx) in Hd.
    rewrite (diffSpecs_same HR) in Hd by exact Hwf. cbn in Hd. congruence.
Qed.

Lemma run_skips_file_witness :
  Forall (fun e => diff_file e <> "README.md")
    (run node_realm sample_git sample_workspace sample_parsers
       ["api/openapi.yaml"; "README.md"]).
Proof.
  apply Forall_forall.
  apply (run_skips_file node_realm sample_git sample_workspace sample_parsers
           ["api/openapi.yaml"; "README.md"] "README.md" node_realm_laws).
  left. reflexivity.
Defined.

(* ===================================================================== *)
(** * The ranking on the corpus built by getTestFilesFromRepo *)
(* ===================================================================== *)

Lemma NoDup_firstn {A} n (l : list A) : NoDup l -> NoDup (firstn n l).
Proof.
  revert n. induction l as [|x r IH]; intros [|n] H; cbn [firstn];
    try constructor.
  - inversion H; subst. intros Hx. apply In_firstn in Hx. contradiction.
  - apply IH. inversion H; assumption.
Qed.

Lemma NoDup_skipn {A} n (l : list A) : NoDup l -> NoDup (skipn n l).
Proof.
  revert n. induction l as [|x r IH]; intros [|n] H; cbn [skipn]; try assumption.
  apply IH. inversion H; assumption.
Qed.

Lemma NoDup_slice {A} (l : list A) a b : NoDup l -> NoDup (JS.slice l a b).
Proof. intros H. unfold JS.slice. apply NoDup_firstn, NoDup_skipn, H. Qed.

Lemma rank_NoDup fs files ids : NoDup files -> NoDup (rankTestFiles fs files ids).
Proof.
  intros H. unfold rankTestFiles.
  destruct (List.length ids =? 0)%nat; [apply NoDup_slice; exact H|].
  cbv zeta. destruct (List.length _ =? 0)%nat.
  - unfold JS.or_array, JS.truthy_array. apply NoDup_slice, NoDup_filter, H.
  - apply NoDup_slice.
    eapply Permutation_NoDup; [apply sort_perm|].
    unfold scan_files. rewrite scan_relevant. cbn [relevantFiles app].
    apply NoDup_filter, H.
Qed.

(** X23.  On the corpus built by [getTestFilesFromRepo], the ranking
    returns no file twice. *)
Theorem ranking_of_repo_files_distinct (G : Globbing) (fs : FileSystem)
  (testRepoPath : string) (testCodePaths : list string)
  (changes : list Change) :
  NoDup (findRelevantTestFiles fs
           (getTestFilesFromRepo G testRepoPath testCodePaths) changes).
Proof.
  unfold findRelevantTestFiles. apply rank_NoDup.
  unfold getTestFilesFromRepo.
  apply (proj1 (set_add_all_spec _ [])). constructor.
Qed.

(* ===================================================================== *)
(** * create-draft-pr.js: names *)
(* ===================================================================== *)

Lemma lower_dashed_safe c :
  branch_safe (JS.lower_char (if is_alnum c then c else "-"%char)) = true.
Proof.
  destruct c as [[] [] [] [] [] [] [] []]; vm_compute; reflexivity.
Qed.

Lemma all_chars_app f a b :
  all_chars f (a ++ b) = all_chars f a && all_chars f b.
Proof.
  induction a as [|c r IH]; cbn [all_chars append]; [reflexivity|].
  rewrite IH. apply andb_assoc.
Qed.

Lemma slug_safe s : all_chars branch_safe (JS.toLowerCase (dash_non_alnum s)) = true.
Proof.
  induction s as [|c r IH]; cbn [dash_non_alnum JS.toLowerCase all_chars];
    [reflexivity|].
  rewrite lower_dashed_safe, IH. reflexivity.
Qed.

Lemma join_safe l :
  (forall x, In x l -> all_chars branch_safe x = true) ->
  all_chars branch_safe (JS.join "-" l) = true.
Proof.
  induction l as [|x r IH]; intros H; [reflexivity|].
  cbn [JS.join]. destruct r as [|y r'].
  - apply H. left. reflexivity.
  - rewrite !all_chars_app, (H x (or_introl eq_refl)).
    rewrite IH by (intros z Hz; apply H; right; exact Hz). reflexivity.
Qed.

(** X24.  Whatever the names of the spec files, the part of the branch name
    drawn from them holds only lower-case letters, digits and hyphens, and
    it is drawn from the first two files at most; with a date and a
    timestamp made of digits and hyphens, the branch name holds nothing but
    such characters and the slash of its prefix. *)
Theorem branch_files_part_safe (stem : string -> string) (files : list string)
  (date timestamp : string) :
  all_chars branch_safe (apiFilesPart stem files) = true /\
  apiFilesPart stem files = apiFilesPart stem (firstn 2 files) /\
  (all_chars branch_safe date = true ->
   all_chars branch_safe timestamp = true ->
   all_chars (fun c => branch_safe c || Ascii.eqb c "/")
     (branchName stem date timestamp files) = true).
Proof.
  assert (Hpart : all_chars branch_safe (apiFilesPart stem files) = true).
  { unfold apiFilesPart.
    match goal with
    | |- context [if ?c then _ else _] => destruct c; [|reflexivity]
    end.
    rewrite all_chars_app. cbn [all_chars andb]. rewrite andb_true_r.
    apply join_safe. intros x Hx. apply In_slice in Hx.
    apply in_map_iff in Hx. destruct Hx as (f & <- & _). apply slug_safe. }
  split; [exact Hpart|]. split.
  - unfold apiFilesPart. rewrite !slice_prefix by lia.
    rewrite <- !firstn_map, firstn_firstn. reflexivity.
  - intros Hd Ht.
    assert (Hweak : forall s, all_chars branch_safe s = true ->
              all_chars (fun c => branch_safe c || Ascii.eqb c "/") s = true).
    { induction s as [|c r IH]; cbn [all_chars]; [reflexivity|].
      intros H. apply andb_prop in H. destruct H as [-> H].
      rewrite (IH H). reflexivity. }
    unfold branchName. rewrite !all_chars_app.
    rewrite (Hweak _ Hd), (Hweak _ Ht), (Hweak _ Hpart). reflexivity.
Qed.

Lemma branch_files_part_safe_witness :
  all_chars (fun c => branch_safe c || Ascii.eqb c "/")
    (branchName (fun f => f) "2024-05-17" "482913"
       ["Open API v2"; "payments_spec"; "third"]) = true.
Proof.
  apply (proj2 (proj2 (branch_files_part_safe (fun f => f)
                         ["Open API v2"; "payments_spec"; "third"]
                         "2024-05-17" "482913")));
    reflexivity.
Defined.

Example branch_name_example :
  branchName (fun f => f) "2024-05-17" "482913"
    ["Open API v2"; "payments_spec"; "third"]
  = "ai-test-updates/2024-05-17-open-api-v2-payments-spec-482913".
Proof. reflexivity. Qed.

Lemma split_by_not_nil sep s : JS.split_by sep s <> [].
Proof.
  destruct s as [|d r]; cbn [JS.split_by]; [discriminate|].
  destruct (sep d); [discriminate|].
  destruct (JS.split_by sep r); discriminate.
Qed.

Lemma split_app_sep c a b :
  JS.split c (a ++ String c b) = JS.split c a ++ JS.split c b.
Proof.
  unfold JS.split. induction a as [|d r IH]; cbn [append JS.split_by].
  - rewrite Ascii.eqb_refl. reflexivity.
  - destruct (Ascii.eqb c d).
    + rewrite IH. reflexivity.
    + rewrite IH.
      destruct (JS.split_by (Ascii.eqb c) r) as [|w ws] eqn:E;
        [destruct (split_by_not_nil _ _ E)|]. reflexivity.
Qed.

Lemma split_no_sep c s : JS.has_char c s = false -> JS.split c s = [s].
Proof.
  unfold JS.split. induction s as [|d r IH]; cbn [JS.has_char JS.split_by];
    [reflexivity|].
  intros H. apply orb_false_iff in H. destruct H as [H1 H2].
  rewrite H1, (IH H2). reflexivity.
Qed.

Lemma has_char_app c a b :
  JS.has_char c (a ++ b) = JS.has_char c a || JS.has_char c b.
Proof.
  induction a as [|d r IH]; cbn [append JS.has_char]; [reflexivity|].
  rewrite IH. apply orb_assoc.
Qed.

Lemma length_append a b :
  String.length (a ++ b) = (String.length a + String.length b)%nat.
Proof.
  induction a as [|c r IH]; cbn [append String.length]; [reflexivity|].
  rewrite IH. reflexivity.
Qed.

Lemma strip_suffix_app p r : JS.strip_suffix p (r ++ p) = Some r.
Proof.
  induction r as [|c r IH].
  - cbn [append]. destruct p; cbn [JS.strip_suffix]; rewrite String.eqb_refl;
      reflexivity.
  - cbn [append]. cbn [JS.strip_suffix].
    destruct (String.eqb (String c (r ++ p)) p) eqn:E.
    + apply String.eqb_eq in E. apply (f_equal String.length) in E.
      cbn [String.length] in E. rewrite length_append in E. lia.
    + rewrite IH. reflexivity.
Qed.

Lemma parse_segments base owner last :
  no_slash owner = true -> no_slash last = true ->
  rev (JS.split "/" (base ++ "/" ++ owner ++ "/" ++ last))
  = last :: owner :: rev (JS.split "/" base).
Proof.
  unfold no_slash. intros Ho Hl.
  apply negb_true_iff in Ho. apply negb_true_iff in Hl.
  change (base ++ "/" ++ owner ++ "/" ++ last)%string
    with (base ++ String "/" (owner ++ String "/" last))%string.
  rewrite !split_app_sep, (split_no_sep _ _ Ho), (split_no_sep _ _ Hl).
  rewrite !rev_app_distr. reflexivity.
Qed.

Lemma rev_split_cons base :
  exists x r, rev (JS.split "/" base) = x :: r.
Proof.
  destruct (rev (JS.split "/" base)) as [|x r] eqn:E; [|eauto].
  apply (f_equal (@rev string)) in E. rewrite rev_involutive in E.
  destruct (split_by_not_nil _ _ E).
Qed.

Lemma parse_repo_url_cases (base owner repo : string) :
  no_slash owner = true -> owner <> "" ->
  no_slash repo = true -> repo <> "" ->
  parse_repo_url (base ++ "/" ++ owner ++ "/" ++ repo ++ ".git")
  = Some (owner, repo) /\
  (JS.strip_suffix ".git" repo = None ->
   parse_repo_url (base ++ "/" ++ owner ++ "/" ++ repo) = Some (owner, repo)) /\
  parse_repo_url (base ++ "/" ++ owner ++ "/" ++ repo ++ "/") = None.
Proof.
  intros Ho Hone Hr Hrne.
  assert (Eo : JS.is_empty owner = false)
    by (destruct owner; [exfalso; apply Hone; reflexivity|reflexivity]).
  assert (Er : JS.is_empty repo = false)
    by (destruct repo; [exfalso; apply Hrne; reflexivity|reflexivity]).
  destruct (rev_split_cons base) as (x & r & Eb).
  split; [|split].
  - unfold parse_repo_url. rewrite parse_segments, Eb.
    + assert (El : JS.is_empty (repo ++ ".git") = false)
        by (destruct repo; reflexivity).
      rewrite El, Eo. cbn [orb]. unfold strip_git_suffix.
      rewrite strip_suffix_app, Er. reflexivity.
    + exact Ho.
    + unfold no_slash in *. rewrite has_char_app.
      apply negb_true_iff in Hr. rewrite Hr. reflexivity.
  - intros Hnone. unfold parse_repo_url.
    rewrite parse_segments, Eb by assumption.
    rewrite Er, Eo. cbn [orb]. unfold strip_git_suffix. rewrite Hnone.
    reflexivity.
  - unfold parse_repo_url.
    change (base ++ "/" ++ owner ++ "/" ++ repo ++ "/")%string
      with (base ++ "/" ++ owner ++ "/" ++ (repo ++ String "/" ""))%string.
    assert (E : rev (JS.split "/" (base ++ "/" ++ owner ++ "/" ++ (repo ++ String "/" "")))
                = "" :: repo :: owner :: rev (JS.split "/" base)).
    { change (base ++ "/" ++ owner ++ "/" ++ (repo ++ String "/" ""))%string
        with (base ++ String "/" (owner ++ String "/" (repo ++ String "/" "")))%string.
      unfold no_slash in *. apply negb_true_iff in Ho. apply negb_true_iff in Hr.
      rewrite !split_app_sep, (split_no_sep _ _ Ho), (split_no_sep _ _ Hr).
      rewrite !rev_app_distr. reflexivity. }
    rewrite E. reflexivity.
Qed.

(** X25.  The owner and the repository are read back from a repository
    URL: from [base/owner/repo.git] and, when [repo] does not itself end in
    [.git], from [base/owner/repo]; a URL that ends with a slash has no
    match, and [createGitHubPR] throws the error that quotes it. *)
Theorem repo_url_round_trip (base owner repo : string) :
  no_slash owner = true -> owner <> "" ->
  no_slash repo = true -> repo <> "" ->
  repo_of_url (base ++ "/" ++ owner ++ "/" ++ repo ++ ".git")
  = inr (owner, repo) /\
  (JS.strip_suffix ".git" repo = None ->
   repo_of_url (base ++ "/" ++ owner ++ "/" ++ repo) = inr (owner, repo)) /\
  repo_of_url (base ++ "/" ++ owner ++ "/" ++ repo ++ "/")
  = inl ("Cannot parse owner/repo from URL: "
         ++ base ++ "/" ++ owner ++ "/" ++ repo ++ "/")%string.
Proof.
  intros Ho Hone Hr Hrne.
  destruct (parse_repo_url_cases base owner repo Ho Hone Hr Hrne)
    as (H1 & H2 & H3).
  unfold repo_of_url. rewrite H1, H3. repeat split.
  intros Hnone. rewrite (H2 Hnone). reflexivity.
Qed.

Lemma repo_url_round_trip_witness :
  repo_of_url "https://github.com/acme/api-tests.git"
  = inr ("acme", "api-tests") /\
  repo_of_url "https://github.com/acme/api-tests" = inr ("acme", "api-tests") /\
  repo_of_url "https://github.com/acme/api-tests/"
  = inl "Cannot parse owner/repo from URL: https://github.com/acme/api-tests/".
Proof.
  destruct (repo_url_round_trip "https://github.com" "acme" "api-tests")
    as (H1 & H2 & H3); try reflexivity; try discriminate.
  split; [exact H1|]. split; [apply H2; reflexivity|exact H3].
Defined.

(* ===================================================================== *)
(** * create-draft-pr.js: applyTestChanges *)
(* ===================================================================== *)

Section ApplyTestChanges.

Context {S : Type} (D : DiskOps S) (laws : DiskLaws D).

Lemma prepared_directory s t s1 :
  (if negb (disk_exists D s (disk_dirname D (absolutePath t)))
   then disk_mkdir D s (disk_dirname D (absolutePath t)) else Normal s)
  = Normal s1 ->
  forall q, disk_read D s1 q = disk_read D s q.
Proof.
  destruct (negb _); intros H q.
  - eapply mkdir_frame; eassumption.
  - injection H as <-. reflexivity.
Qed.

(** X26.  What a successful [applyTestChanges] leaves in the target file:
    with [create] the generated code, replacing what was there; with
    [update] or [modify] on a file that could be read, the previous content
    followed by a marker, the description and the generated code, so that
    nothing of the previous content is lost. *)
Theorem applied_changes_content (s s' : S) (t : TestBlock) :
  applyTestChanges D s t = Normal s' ->
  (action t = "create" ->
   disk_read D s' (absolutePath t) = Normal (code t)) /\
  (action t = "update" \/ action t = "modify" ->
   forall existing,
     disk_read D s (absolutePath t) = Normal existing ->
     disk_read D s' (absolutePath t)
     = Normal (appended existing (description t) (code t))).
Proof.
  unfold applyTestChanges. intros H. apply bind_Normal in H.
  destruct H as (s1 & Hs1 & H).
  pose proof (prepared_directory _ _ _ Hs1) as Hframe.
  split.
  - intros Ha. rewrite Ha in H. cbn in H.
    eapply read_written; eassumption.
  - intros Ha existing Hex.
    assert (Hc : String.eqb (action t) "create" = false)
      by (destruct Ha as [-> | ->]; reflexivity).
    assert (Hu : String.eqb (action t) "update" || String.eqb (action t) "modify"
                 = true)
      by (destruct Ha as [-> | ->]; reflexivity).
    rewrite Hc, Hu in H. rewrite <- Hframe in Hex.
    rewrite (readable_exists D laws _ _ _ Hex), Hex in H. cbn [bind] in H.
    eapply read_written; eassumption.
Qed.

(** X27.  A successful [applyTestChanges] leaves the content of every file
    other than its target as it was, and with an action other than
    [create], [update] and [modify] it leaves the target as it was too. *)
Theorem applied_changes_frame (s s' : S) (t : TestBlock) (q : string) :
  applyTestChanges D s t = Normal s' ->
  (q <> absolutePath t -> disk_read D s' q = disk_read D s q) /\
  (action t <> "create" -> action t <> "update" -> action t <> "modify" ->
   disk_read D s' q = disk_read D s q).
Proof.
  unfold applyTestChanges. intros H. apply bind_Normal in H.
  destruct H as (s1 & Hs1 & H).
  pose proof (prepared_directory _ _ _ Hs1) as Hframe.
  split.
  - intros Hq. rewrite <- Hframe.
    destruct (String.eqb (action t) "create").
    { eapply write_frame; eassumption. }
    destruct (String.eqb (action t) "update" || String.eqb (action t) "modify").
    + destruct (disk_exists D s1 (absolutePath t)).
      * apply bind_Normal in H. destruct H as (ex & _ & H).
        eapply write_frame; eassumption.
      * eapply write_frame; eassumption.
    + injection H as <-. reflexivity.
  - intros Hc Hu Hm. rewrite <- Hframe.
    apply String.eqb_neq in Hc. apply String.eqb_neq in Hu.
    apply String.eqb_neq in Hm. rewrite Hc, Hu, Hm in H. cbn in H.
    injection H as <-. reflexivity.
Qed.

End ApplyTestChanges.

Lemma file_content_written t p c q :
  file_content (table_write t p c) q
  = if String.eqb p q then Some c else file_content t q.
Proof.
  induction t as [|[p' c'] r IH]; cbn [table_write file_content].
  - reflexivity.
  - destruct (String.eqb p' p) eqn:E.
    + apply String.eqb_eq in E. subst p'. cbn [file_content].
      destruct (String.eqb p q); reflexivity.
    + cbn [file_content]. rewrite IH.
      destruct (String.eqb p' q) eqn:E'; [|reflexivity].
      apply String.eqb_eq in E'. subst q. rewrite String.eqb_sym, E. reflexivity.
Qed.

Lemma table_disk_laws : DiskLaws table_disk.
Proof.
  split; cbn.
  - intros s p c s' [= <-]. rewrite file_content_written, String.eqb_refl.
    reflexivity.
  - intros s p c s' q [= <-] Hq. rewrite file_content_written.
    destruct (String.eqb p q) eqn:E; [|reflexivity].
    apply String.eqb_eq in E. congruence.
  - intros s d s' q [= <-]. reflexivity.
  - intros s p c. destruct (file_content s p); [reflexivity|discriminate].
Qed.

Lemma applied_changes_content_witness :
  disk_read table_disk
    (table_write [("tests/users.test.js", "it('lists users', () => {});")]
       "tests/users.test.js"
       (appended "it('lists users', () => {});" (description update_block)
          (code update_block)))
    "tests/users.test.js"
  = Normal (appended "it('lists users', () => {});" (description update_block)
              (code update_block)).
Proof.
  apply (proj2 (applied_changes_content table_disk table_disk_laws
                  [("tests/users.test.js", "it('lists users', () => {});")]
                  _ update_block eq_refl)).
  - left. reflexivity.
  - reflexivity.
Defined.

Lemma applied_changes_frame_witness :
  disk_read table_disk
    (table_write [("tests/users.test.js", "it('lists users', () => {});");
                  ("tests/cart.test.js", "it('adds', () => {});")]
       "tests/users.test.js"
       (appended "it('lists users', () => {});" (description update_block)
          (code update_block)))
    "tests/cart.test.js"
  = Normal "it('adds', () => {});".
Proof.
  apply (proj1 (applied_changes_frame table_disk table_disk_laws
                  [("tests/users.test.js", "it('lists users', () => {});");
                   ("tests/cart.test.js", "it('adds', () => {});")]
                  _ update_block "tests/cart.test.js" eq_refl)).
  discriminate.
Defined.
